(** * Release-notes preparator: a shallow embedding and its properties

    The development follows [release-notes/release-notes-preparator.ts]
    (class [ReleaseNotesPreparator]).  JavaScript strings are sequences of
    code units; they are rendered here as [string], one [ascii] per code
    unit (code units 0..255).  Objects used as dictionaries are finite maps
    over their own properties, read and written through [Object.prototype]
    where the key comes from the data (the logins); where [Object.values]
    is read they are association lists in the order of creation of the
    keys.  Calls to the GitHub REST client, to [fetch], to the file system,
    to the template engine and to the JavaScript runtime ([Date],
    [JSON.parse]) are answered by an environment that the definitions take
    as a parameter.  The script that starts the generator from the command
    line ([release-notes/generate-release-notes.ts]) is followed in its two
    forms, in module [Cli]. *)

From Stdlib Require Import ZArith Ascii String List Bool Lia.
From stdpp Require Import base option list strings gmap fin_maps pretty.

Local Open Scope string_scope.
Local Open Scope list_scope.
Local Open Scope Z_scope.

(** ** Characters and strings of the runtime *)

Module Js.

Definition code (c : ascii) : N := N_of_ascii c.

Definition in_range (lo hi : N) (c : ascii) : bool :=
  ((lo <=? code c) && (code c <=? hi))%N.

(** [\d] *)
Definition is_digit (c : ascii) : bool := in_range 48 57 c.

(** [\s] on code units below 256: TAB, LF, VT, FF, CR, SP and NBSP. *)
Definition is_space (c : ascii) : bool :=
  in_range 9 13 c || (code c =? 32)%N || (code c =? 160)%N.

(** [[\s\S]] *)
Definition any_char (c : ascii) : bool := true.

Definition is_ascii_lower (c : ascii) : bool := in_range 97 122 c.
Definition is_ascii_upper (c : ascii) : bool := in_range 65 90 c.

(** Upper-case letters of Latin-1 other than the ASCII ones: U+00C0..U+00DE
    without the multiplication sign U+00D7. *)
Definition is_latin1_upper (c : ascii) : bool :=
  in_range 192 222 c && negb (code c =? 215)%N.

(** [String.prototype.toLowerCase], one code unit at a time. *)
Definition lower_char (c : ascii) : ascii :=
  if is_ascii_upper c || is_latin1_upper c
  then ascii_of_N (code c + 32) else c.

Fixpoint toLowerCase (s : string) : string :=
  match s with
  | EmptyString => EmptyString
  | String c s' => String (lower_char c) (toLowerCase s')
  end.

(** [Canonicalize] of the regular-expression semantics without the [u]
    flag: under [/i] a code unit is replaced by its upper-case form,
    except that a code unit of 128 or more never becomes an ASCII one.
    Every pattern character of this program is ASCII, so for code units
    of 128 or more only "is not ASCII" matters and they are left as they
    are. *)
Definition canonicalize (ignoreCase : bool) (c : ascii) : ascii :=
  if ignoreCase && is_ascii_lower c
  then ascii_of_N (code c - 32) else c.

(** Truthiness of a string value. *)
Definition truthy (s : string) : bool :=
  match s with EmptyString => false | String _ _ => true end.

(** [String.prototype.startsWith] *)
Fixpoint startsWith (s p : string) {struct p} : bool :=
  match p with
  | EmptyString => true
  | String c p' =>
      match s with
      | EmptyString => false
      | String a s' => Ascii.eqb a c && startsWith s' p'
      end
  end.

(** The first [n] code units of [s] ([s.substring(0, n)]). *)
Fixpoint take (n : nat) (s : string) : string :=
  match n, s with
  | S n', String c s' => String c (take n' s')
  | _, _ => EmptyString
  end.

(** [s.substring(n)] *)
Fixpoint drop (n : nat) (s : string) : string :=
  match n, s with
  | S n', String _ s' => drop n' s'
  | _, _ => s
  end.

(** [String.prototype.split] with a one-character separator: the pieces
    between the separators, [[""]] for the empty string. *)
Fixpoint split (s : string) (sep : ascii) : list string :=
  match s with
  | EmptyString => [EmptyString]
  | String c s' =>
      if Ascii.eqb c sep then EmptyString :: split s' sep
      else
        match split s' sep with
        | piece :: pieces => String c piece :: pieces
        | [] => [String c EmptyString]
        end
  end.

(** [s.includes(c)] for a character. *)
Fixpoint has_char (c : ascii) (s : string) : bool :=
  match s with
  | EmptyString => false
  | String a s' => Ascii.eqb a c || has_char c s'
  end.

(** [Array.prototype.join] *)
Fixpoint join (sep : string) (l : list string) : string :=
  match l with
  | [] => EmptyString
  | [x] => x
  | x :: l' => x +:+ sep +:+ join sep l'
  end.

(** All code units below 256, for exhaustive checks. *)
Definition all_ascii : list ascii := map ascii_of_nat (seq 0 256).

(** A word of ASCII characters only. *)
Fixpoint ascii_word (w : string) : bool :=
  match w with
  | EmptyString => true
  | String c w' => (code c <? 128)%N && ascii_word w'
  end.

End Js.

(** ** Data model *)

Module User.
Record t := mk { login : string; html_url : string; type : string }.
End User.

Module PullRequestRef.
Record t := mk { url : string; html_url : string }.
End PullRequestRef.

(** The fields of [components['schemas']['issue']] that the program reads. *)
Module Issue.
Record t := mk {
  title : string;
  user : option User.t;
  number : Z;
  html_url : string;
  created_at : string;
  body : option string;
  pull_request : option PullRequestRef.t
}.

(** [{ ...pr, body: b }] *)
Definition with_body (pr : t) (b : option string) : t :=
  mk (title pr) (user pr) (number pr) (html_url pr) (created_at pr) b
     (pull_request pr).
End Issue.

Module Milestone.
Record t := mk { title : string; number : N }.
End Milestone.

Module Contributor.
Record t := mk { login : option string; contributions : Z }.
End Contributor.

Module Author.
Record t := mk { username : string; link : string }.
End Author.

Module PRInfo.
Record t := mk {
  title : string;
  author : Author.t;
  number : Z;
  link : string;
  created_at : option string
}.
End PRInfo.

Module PRCategory.
Record t := mk { category : string; prs : list PRInfo.t }.
End PRCategory.

(** ** Numbers

    Numbers with the two infinities and NaN, as far as the counts and the
    comparator of the changelog need them.  The finite ones are integers:
    the program only counts and subtracts small integers. *)
Inductive num : Type :=
| Fin (z : Z)
| PosInf
| NegInf
| NaN.

Definition num_sub (a b : num) : num :=
  match a, b with
  | Fin x, Fin y => Fin (x - y)
  | NaN, _ | _, NaN => NaN
  | PosInf, PosInf | NegInf, NegInf => NaN
  | PosInf, _ => PosInf
  | NegInf, _ => NegInf
  | Fin _, PosInf => NegInf
  | Fin _, NegInf => PosInf
  end.

(** [a + 1] *)
Definition num_succ (a : num) : num :=
  match a with
  | Fin z => Fin (z + 1)
  | PosInf => PosInf
  | NegInf => NegInf
  | NaN => NaN
  end.

(** [a === b] on two numbers: NaN equals nothing. *)
Definition num_eqb (a b : num) : bool :=
  match a, b with
  | Fin x, Fin y => x =? y
  | PosInf, PosInf => true
  | NegInf, NegInf => true
  | _, _ => false
  end.

(** ** Plain objects used as dictionaries

    The program keeps its counts and its first-time contributors in
    object literals [{}].  Such an object has [Object.prototype] as its
    prototype: reading a property that it does not own gives what the
    prototype has under that name, a function for the methods
    ([constructor], [toString], ...) and the prototype itself for
    [__proto__]; only for the other names it gives [undefined].  Writing
    creates an own property, except under the name [__proto__], which is
    a setter of the prototype: it sets nothing when it is given a value
    that is not an object. *)

Module Proto.

(** The names of the properties of [Object.prototype]. *)
Definition names : list string :=
  ["constructor"; "__defineGetter__"; "__defineSetter__"; "hasOwnProperty";
   "__lookupGetter__"; "__lookupSetter__"; "isPrototypeOf";
   "propertyIsEnumerable"; "toString"; "valueOf"; "__proto__";
   "toLocaleString"].

Definition inherits (k : string) : bool := existsb (String.eqb k) names.

End Proto.

(** What [o[k]] gives: the object's own value, what [Object.prototype] has
    under the name (a function, or an object for [__proto__]), or
    [undefined]. *)
Inductive property (V : Type) : Type :=
| Own (v : V)
| Inherited (name : string)
| Undefined.

Arguments Own {V} v.
Arguments Inherited {V} name.
Arguments Undefined {V}.

(** [o[k]], for the own property [own] of [o] under [k], if there is one. *)
Definition read {V : Type} (own : option V) (k : string) : property V :=
  match own with
  | Some v => Own v
  | None => if Proto.inherits k then Inherited k else Undefined
  end.

(** [o[k] = v] for a value [v] that is not an object. *)
Definition assign {V : Type} (o : gmap string V) (k : string) (v : V)
    : gmap string V :=
  match o !! k with
  | Some _ => <[k := v]> o
  | None => if String.eqb k "__proto__" then o else <[k := v]> o
  end.

(** [!v] for what a dictionary of numbers gives: functions and objects are
    truthy. *)
Definition falsy (v : property num) : bool :=
  match v with
  | Own (Fin z) => z =? 0
  | Own NaN => true
  | Own PosInf | Own NegInf => false
  | Inherited _ => false
  | Undefined => true
  end.

(** The new value of [v++]: a function, an object that is no number, and
    [undefined] all read as NaN. *)
Definition incremented (v : property num) : num :=
  match v with
  | Own n => num_succ n
  | Inherited _ => NaN
  | Undefined => NaN
  end.

(** [v ?? 0] *)
Definition or_zero (v : property num) : property num :=
  match v with
  | Undefined => Own (Fin 0)
  | _ => v
  end.

(** [a === b]: two numbers that are equal, or the same function or object
    of the prototype. *)
Definition strict_equal (a b : property num) : bool :=
  match a, b with
  | Own x, Own y => num_eqb x y
  | Inherited n, Inherited m => String.eqb n m
  | Undefined, Undefined => true
  | _, _ => false
  end.

(** [a > 0]: a function or an object reads as NaN. *)
Definition greater_than_zero (a : property num) : bool :=
  match a with
  | Own (Fin z) => 0 <? z
  | Own PosInf => true
  | _ => false
  end.

(** Objects whose properties are read as numbers: what [o[k]] gives. *)
Class Dictionary (O : Type) := get_property : O -> string -> property num.

#[export] Instance count_dictionary : Dictionary (gmap string Z) :=
  fun o k => read (Fin <$> o !! k) k.

#[export] Instance num_dictionary : Dictionary (gmap string num) :=
  fun o k => read (o !! k) k.

(** ** Counting the pull requests of a milestone *)

(** One iteration of the loop of [getMilestonePRs]. *)
Definition count_issue (result : gmap string num) (issue : Issue.t)
    : gmap string num :=
  match Issue.pull_request issue with
  | None => result
  | Some _ =>
      match User.login <$> Issue.user issue with
      | None => result
      | Some author =>
          if Js.truthy author then
            let result0 :=
              if falsy (get_property result author)
              then assign result author (Fin 0)
              else result in
            assign result0 author (incremented (get_property result0 author))
          else result
      end
  end.

Definition getMilestonePRs (prs : list Issue.t) : gmap string num :=
  foldl count_issue ∅ prs.

(** ** First-time contributors *)

Definition isNewContributor {A B : Type} `{Dictionary A} `{Dictionary B}
    (username : string) (contributorsMap : A) (milestoneCommits : B) : bool :=
  let totalCommits := or_zero (get_property contributorsMap username) in
  let milestoneCount := or_zero (get_property milestoneCommits username) in
  strict_equal totalCommits milestoneCount && greater_than_zero totalCommits.

(** ** Regular expressions

    The regular expressions of the program use literal characters, the
    classes [\s], [\d] and [[\s\S]], the anchor [^], alternation, one
    capturing group, and the greedy quantifiers [*] and [+] applied to a
    class.  The matcher below is the backtracking matcher of the language
    definition restricted to these forms: a continuation receives the state
    after the pattern and may fail, which makes the pattern try its next
    choice. *)

Module Re.

Inductive regex : Type :=
| Eps
| Chr (c : ascii)
| Cls (p : ascii -> bool)
| Bol
| Cat (r1 r2 : regex)
| Alt (r1 r2 : regex)
| Star (p : ascii -> bool)
| Grp (r : regex).

(** The characters of [w], one after the other. *)
Fixpoint lit (w : string) : regex :=
  match w with
  | EmptyString => Eps
  | String c w' => Cat (Chr c) (lit w')
  end.

(** [p+] for a class [p]. *)
Definition Plus (p : ascii -> bool) : regex := Cat (Cls p) (Star p).

(** Matcher state: the index reached in the input, the input from there,
    and the text of capture group 1. *)
Record mstate := mkst { pos : nat; rest : string; cap1 : option string }.

Definition cont := mstate -> option mstate.

(** Greedy [p*]: takes the longest run first and gives characters back
    while the continuation fails. *)
Fixpoint star (p : ascii -> bool) (i : nat) (s : string) (g : option string)
    (k : cont) : option mstate :=
  match s with
  | String a s' =>
      if p a then
        match star p (S i) s' g k with
        | Some r => Some r
        | None => k (mkst i s g)
        end
      else k (mkst i s g)
  | EmptyString => k (mkst i s g)
  end.

Fixpoint run (ignoreCase : bool) (r : regex) (st : mstate) (k : cont)
    : option mstate :=
  match r with
  | Eps => k st
  | Chr c =>
      match rest st with
      | String a s' =>
          if Ascii.eqb (Js.canonicalize ignoreCase a) (Js.canonicalize ignoreCase c)
          then k (mkst (S (pos st)) s' (cap1 st)) else None
      | EmptyString => None
      end
  | Cls p =>
      match rest st with
      | String a s' =>
          if p a then k (mkst (S (pos st)) s' (cap1 st)) else None
      | EmptyString => None
      end
  | Bol => if Nat.eqb (pos st) 0 then k st else None
  | Cat r1 r2 => run ignoreCase r1 st (fun st1 => run ignoreCase r2 st1 k)
  | Alt r1 r2 =>
      match run ignoreCase r1 st k with
      | Some r => Some r
      | None => run ignoreCase r2 st k
      end
  | Star p => star p (pos st) (rest st) (cap1 st) k
  | Grp r1 =>
      run ignoreCase r1 st (fun st1 =>
        k (mkst (pos st1) (rest st1)
                (Some (Js.take (pos st1 - pos st) (rest st)))))
  end.

(** The match array: [index], element 0 (the matched text) and element 1
    (capture group 1, if it took part). *)
Record result := mkres { index : nat; m0 : string; m1 : option string }.

(** A match attempt that starts at index [i], where the input is [s]. *)
Definition exec_at (ignoreCase : bool) (r : regex) (i : nat) (s : string)
    : option result :=
  match run ignoreCase r (mkst i s None) Some with
  | Some st => Some (mkres i (Js.take (pos st - i) s) (cap1 st))
  | None => None
  end.

(** Attempts at [i], [i+1], ... up to the end of the input. *)
Fixpoint search (ignoreCase : bool) (r : regex) (i : nat) (s : string)
    : option result :=
  match exec_at ignoreCase r i s with
  | Some m => Some m
  | None =>
      match s with
      | String _ s' => search ignoreCase r (S i) s'
      | EmptyString => None
      end
  end.

(** [s.match(re)] for a regular expression without the [g] flag. *)
Definition String_match (s : string) (ignoreCase : bool) (r : regex)
    : option result :=
  search ignoreCase r 0%nat s.

(** [s.replace(re, '')] for a regular expression without the [g] flag. *)
Definition String_remove (s : string) (ignoreCase : bool) (r : regex) : string :=
  match String_match s ignoreCase r with
  | Some m =>
      Js.take (index m) s +:+ Js.drop (index m + String.length (m0 m)) s
  | None => s
  end.

(** The characters of [w] are next in [s], under [Canonicalize]. *)
Fixpoint looking_at (ignoreCase : bool) (w s : string) : bool :=
  match w with
  | EmptyString => true
  | String c w' =>
      match s with
      | EmptyString => false
      | String a s' =>
          Ascii.eqb (Js.canonicalize ignoreCase a) (Js.canonicalize ignoreCase c)
          && looking_at ignoreCase w' s'
      end
  end.

(** The length of the longest run of class [p] at the start of [s]. *)
Fixpoint span (p : ascii -> bool) (s : string) : nat :=
  match s with
  | String a s' => if p a then S (span p s') else O
  | EmptyString => O
  end.

End Re.

(** [chore|feat|docs|fix|refactor|test|ci] *)
Definition prefix_alternatives : Re.regex :=
  Re.Alt (Re.lit "chore")
  (Re.Alt (Re.lit "feat")
  (Re.Alt (Re.lit "docs")
  (Re.Alt (Re.lit "fix")
  (Re.Alt (Re.lit "refactor")
  (Re.Alt (Re.lit "test") (Re.lit "ci")))))).

(** [/^\s*(chore|feat|docs|fix|refactor|test|ci)/i] *)
Definition title_re : Re.regex :=
  Re.Cat Re.Bol
    (Re.Cat (Re.Star Js.is_space) (Re.Grp prefix_alternatives)).

(** [/\(test/i] *)
Definition test_scope_re : Re.regex := Re.lit "(test".

(** [\s#\d+] *)
Definition reference_tail : Re.regex :=
  Re.Cat (Re.Cls Js.is_space) (Re.Cat (Re.Chr "#") (Re.Plus Js.is_digit)).

(** [/(Closes|Fixes)\s#\d+/i] *)
Definition closes_re : Re.regex :=
  Re.Cat (Re.Grp (Re.Alt (Re.lit "Closes") (Re.lit "Fixes"))) reference_tail.

(** [/### Screenshot \/ video of UI[\s\S]*/] *)
Definition screenshot_re : Re.regex :=
  Re.Cat (Re.lit "### Screenshot / video of UI") (Re.Star Js.any_char).

(** ** Effects

    A computation issues requests and console output, recorded in order,
    and ends with a value, with a thrown error, or (for the pagination
    loop, which the source writes as [while (true)]) without an end within
    the given number of iterations. *)

Inductive outcome (A : Type) : Type :=
| Ok (a : A)
| Throw (e : string)
| OutOfFuel.

Arguments Ok {A} a.
Arguments Throw {A} e.
Arguments OutOfFuel {A}.

(** Values of the runtime as far as the response of the language-model
    service is inspected. *)
#[warnings="-register-all"]
Inductive jsval : Type :=
| JUndefined
| JNull
| JBool (b : bool)
| JNum (z : Z)
| JStr (s : string)
| JArr (l : list jsval)
| JObj (fields : list (string * jsval)).

Module Response.
Record t := mk {
  ok : bool;
  status : Z;
  json : outcome jsval
}.
End Response.

Inductive event : Type :=
| ListMilestones (owner repo : string)
| ListForRepo (owner repo milestone state : string) (per_page page : N)
| ListContributors (owner repo : string) (per_page : N)
| IssuesGet (owner repo : string) (issue_number : option string)
| Fetch (url : string) (useOllama : bool) (model : option string)
    (content : string)
| ConsoleError (msg : string)
| ReadFile (path : string)
| WriteFile (path data : string)
| ConsoleLog (msg : string).

(** What [generateMD] hands to the template. *)
Module View.
Record t := mk {
  firstTimeContributors : list PRInfo.t;
  changelog : list PRCategory.t;
  highlighted : jsval;
  version : string;
  username : string
}.
End View.

(** What the outside world answers.  An answer depends on the request
    only. *)
Module Env.
Record t := mk {
  listMilestones : string -> string -> outcome (list Milestone.t);
  listForRepo :
    string -> string -> string -> string -> N -> N -> outcome (list Issue.t);
  listContributors : string -> string -> N -> outcome (list Contributor.t);
  (** [response?.data] of [octokit.issues.get] *)
  issues_get : string -> string -> option string -> outcome (option Issue.t);
  fetch : string -> bool -> option string -> string -> outcome Response.t;
  (** [JSON.parse], applied to any value *)
  JSON_parse : jsval -> outcome jsval;
  (** the time value of [new Date(s)], [None] for an invalid date *)
  Date_parse : string -> option Z;
  (** [new Date().toISOString()] *)
  Date_now_toISOString : string;
  (** [fs.promises.readFile(path, 'utf8')] *)
  readFile : string -> outcome string;
  (** [mustache.render(template, view)] *)
  mustache_render : string -> View.t -> outcome string;
  (** [fs.promises.writeFile(path, data, { flag: 'w+' })] *)
  writeFile : string -> string -> outcome unit
}.
End Env.

Definition M (A : Type) : Type := list event -> outcome A * list event.

Definition ret {A : Type} (a : A) : M A := fun tr => (Ok a, tr).

Definition throw {A : Type} (e : string) : M A := fun tr => (Throw e, tr).

Definition bind {A B : Type} (m : M A) (f : A -> M B) : M B :=
  fun tr =>
    match m tr with
    | (Ok a, tr') => f a tr'
    | (Throw e, tr') => (Throw e, tr')
    | (OutOfFuel, tr') => (OutOfFuel, tr')
    end.

Notation "'await' x <~ m ;; k" := (bind m (fun x => k))
  (at level 10, x name, m at level 99, k at level 200).

(** An awaited request: it is recorded, then its answer is the result. *)
Definition request {A : Type} (ev : event) (answer : outcome A) : M A :=
  fun tr => (answer, tr ++ [ev]).

(** A value that is already there (or an error raised on the spot). *)
Definition lift {A : Type} (o : outcome A) : M A := fun tr => (o, tr).

(** [try { m } catch (e) { h e }], also [promise.catch(h)]. *)
Definition try_catch {A : Type} (m : M A) (h : string -> M A) : M A :=
  fun tr =>
    match m tr with
    | (Throw e, tr') => h e tr'
    | r => r
    end.

Definition console_error (msg : string) : M unit :=
  fun tr => (Ok tt, tr ++ [ConsoleError msg]).

Definition console_log (msg : string) : M unit :=
  fun tr => (Ok tt, tr ++ [ConsoleLog msg]).

(** ** Objects whose [Object.values] is read

    Own string-keyed properties in the order of their creation.  The
    runtime lists the keys that are array indices (the decimal numeral,
    without a leading zero, of a number up to [2^32 - 2]) first, by
    ascending index. *)

Module Obj.

Fixpoint digits_value (s : string) (acc : N) : option N :=
  match s with
  | EmptyString => Some acc
  | String c s' =>
      if Js.is_digit c
      then digits_value s' (acc * 10 + (Js.code c - 48))%N
      else None
  end.

Definition array_index (k : string) : option N :=
  match k with
  | EmptyString => None
  | String c rest =>
      if Ascii.eqb c "0" && negb (String.eqb rest "") then None
      else
        match digits_value k 0 with
        | Some n => if (n <=? 4294967294)%N then Some n else None
        | None => None
        end
  end.

Definition is_index (k : string) : bool :=
  match array_index k with
  | Some _ => true
  | None => false
  end.

Section Obj.
Context {V : Type}.

Fixpoint get (o : list (string * V)) (k : string) : option V :=
  match o with
  | [] => None
  | (k', v) :: o' => if String.eqb k' k then Some v else get o' k
  end.

Fixpoint set (o : list (string * V)) (k : string) (v : V) : list (string * V) :=
  match o with
  | [] => [(k, v)]
  | (k', v') :: o' =>
      if String.eqb k' k then (k', v) :: o' else (k', v') :: set o' k v
  end.

(** The entries under keys that are array indices, with the index, and
    the entries under the other keys. *)
Definition indexed (o : list (string * V)) : list (N * V) :=
  omap (fun e => (fun i => (i, e.2)) <$> array_index e.1) o.

Definition unindexed (o : list (string * V)) : list (string * V) :=
  List.filter (fun e => negb (is_index e.1)) o.

Fixpoint insert_by_index (x : N * V) (l : list (N * V)) : list (N * V) :=
  match l with
  | [] => [x]
  | y :: l' =>
      if (x.1 <? y.1)%N then x :: y :: l' else y :: insert_by_index x l'
  end.

Definition by_index (l : list (N * V)) : list (N * V) :=
  foldr insert_by_index [] l.

(** [Object.values(o)]: first the values under the array indices, by
    ascending index, then the others in the order of their creation. *)
Definition values (o : list (string * V)) : list V :=
  map snd (by_index (indexed o)) ++ map snd (unindexed o).

End Obj.
End Obj.

(** ** The preparator *)

Module Config.
Record t := mk {
  organization : string;
  repo : string;
  milestone : string;
  username : string;
  model : option string;
  port : string;
  endpoint : string;
  useOllama : bool
}.
End Config.

(** *** generateMD: the order of the changelog *)

(** [Array.prototype.indexOf] *)
Fixpoint indexOf_from (l : list string) (x : string) (i : Z) : Z :=
  match l with
  | [] => -1
  | y :: l' => if String.eqb y x then i else indexOf_from l' x (i + 1)
  end.

Definition indexOf (l : list string) (x : string) : Z := indexOf_from l x 0.

Definition priorityOrder : list string := ["feat"; "fix"; "chore"].

Definition priority (c : PRCategory.t) : num :=
  if indexOf priorityOrder (PRCategory.category c) =? -1 then PosInf
  else Fin (indexOf priorityOrder (PRCategory.category c)).

(** The comparator passed to [toSorted]: [priorityA - priorityB]. *)
Definition compareFn (a b : PRCategory.t) : num :=
  num_sub (priority a) (priority b).

(** [Array.prototype.toSorted]: a comparator result that is NaN counts as
    zero, and the sort is stable.  An element moves behind another only
    when the comparator says it is greater. *)
Definition is_greater {A : Type} (cmp : A -> A -> num) (x y : A) : bool :=
  match cmp x y with
  | Fin z => 0 <? z
  | PosInf => true
  | NegInf => false
  | NaN => false
  end.

Fixpoint insert_stable {A : Type} (cmp : A -> A -> num) (x : A) (l : list A)
    : list A :=
  match l with
  | [] => [x]
  | y :: l' =>
      if is_greater cmp x y then y :: insert_stable cmp x l'
      else x :: y :: l'
  end.

Fixpoint toSorted {A : Type} (cmp : A -> A -> num) (l : list A) : list A :=
  match l with
  | [] => []
  | x :: l' => insert_stable cmp x (toSorted cmp l')
  end.

Definition sortedChangelog (changelog : list PRCategory.t) : list PRCategory.t :=
  toSorted compareFn changelog.

(** [this.milestone.slice(0, -2)] *)
Definition version (c : Config.t) : string :=
  Js.take (String.length (Config.milestone c) - 2) (Config.milestone c).

(** *** getPRsByMilestone *)

(** The filter applied to the collected issues: pull requests whose author
    is not a bot. *)
Definition is_user_pr (issue : Issue.t) : bool :=
  match Issue.pull_request issue, Issue.user issue with
  | Some _, Some u =>
      negb (String.eqb (User.type u) "Bot")
      && negb (String.eqb (User.login u) "podman-desktop-bot")
      && negb (String.eqb (User.login u) "step-security-bot")
  | _, _ => false
  end.

(** The loop [while (true)]: one request per iteration, for the pages
    [page], [page + 1], ..., until a page comes back empty. *)
Fixpoint paginate (E : Env.t) (fuel : nat) (owner repo milestone : string)
    (page : N) (prs : list Issue.t) : M (list Issue.t) :=
  match fuel with
  | O => lift OutOfFuel
  | S fuel' =>
      await issues <~
        request (ListForRepo owner repo milestone "closed" 100 page)
                (Env.listForRepo E owner repo milestone "closed" 100 page);;
      match issues with
      | [] => ret prs
      | _ :: _ => paginate E fuel' owner repo milestone (page + 1) (prs ++ issues)
      end
  end.

Definition not_found_message (milestoneTitle : string)
    (milestones : list Milestone.t) : string :=
  "Milestone '" +:+ milestoneTitle +:+ "' was not found in: ["
  +:+ Js.join "," (map Milestone.title milestones) +:+ "]".

Definition getPRsByMilestone (E : Env.t) (fuel : nat)
    (owner repo milestoneTitle : string) : M (list Issue.t) :=
  await milestones <~
    request (ListMilestones owner repo) (Env.listMilestones E owner repo);;
  match List.find (fun m => String.eqb (Milestone.title m) milestoneTitle)
                  milestones with
  | None => throw (not_found_message milestoneTitle milestones)
  | Some milestone =>
      await prs <~
        paginate E fuel owner repo (pretty (Milestone.number milestone)) 1 [];;
      ret (List.filter is_user_pr prs)
  end.

(** *** getFirstTimeContributors *)

(** The reducer that builds [contributorsMap]. *)
Definition add_contributor (acc : gmap string Z) (contributor : Contributor.t)
    : gmap string Z :=
  match Contributor.login contributor with
  | Some l =>
      if Js.truthy l then assign acc l (Contributor.contributions contributor)
      else acc
  | None => acc
  end.

Definition contributorsMap_of (contributors : list Contributor.t)
    : gmap string Z :=
  foldl add_contributor ∅ contributors.

(** [new Date(s)] for a string or [undefined]. *)
Definition Date_new (E : Env.t) (s : option string) : option Z :=
  match s with
  | Some x => Env.Date_parse E x
  | None => None
  end.

(** [a > b] on two dates: false as soon as one of them is invalid. *)
Definition date_gt (a b : option Z) : bool :=
  match a, b with
  | Some x, Some y => y <? x
  | _, _ => false
  end.

Definition newPRInfo_of (pr : Issue.t) (u : User.t) : PRInfo.t :=
  PRInfo.mk (Issue.title pr)
            (Author.mk (User.login u) (User.html_url u))
            (Issue.number pr)
            (Issue.html_url pr)
            (Some (Issue.created_at pr)).

(** One iteration of the loop over [prs]. *)
Definition first_time_step (E : Env.t)
    (contributorsMap : gmap string Z) (usersMilestonePRs : gmap string num)
    (firstTimeContributorsMap : list (string * PRInfo.t)) (pr : Issue.t)
    : list (string * PRInfo.t) :=
  match Issue.user pr with
  | None => firstTimeContributorsMap
  | Some u =>
      let username := User.login u in
      if negb (isNewContributor username contributorsMap usersMilestonePRs)
      then firstTimeContributorsMap
      else
        let newPRInfo := newPRInfo_of pr u in
        match read (Obj.get firstTimeContributorsMap username) username with
        | Own old =>
            if date_gt (Date_new E (PRInfo.created_at newPRInfo))
                       (Date_new E (PRInfo.created_at old))
            then Obj.set firstTimeContributorsMap username newPRInfo
            else firstTimeContributorsMap
        | Inherited _ =>
            (* what the prototype holds is truthy and has no [created_at] *)
            if date_gt (Date_new E (PRInfo.created_at newPRInfo))
                       (Date_new E None)
            then Obj.set firstTimeContributorsMap username newPRInfo
            else firstTimeContributorsMap
        | Undefined => Obj.set firstTimeContributorsMap username newPRInfo
        end
  end.

(** The loop, with the two count maps given. *)
Definition first_time_loop (E : Env.t)
    (contributorsMap : gmap string Z) (usersMilestonePRs : gmap string num)
    (prs : list Issue.t) : list PRInfo.t :=
  Obj.values (foldl (first_time_step E contributorsMap usersMilestonePRs) [] prs).

Definition getFirstTimeContributors (E : Env.t) (c : Config.t)
    (prs : list Issue.t) : M (list PRInfo.t) :=
  await contributors <~
    request (ListContributors (Config.organization c) (Config.repo c) 100)
            (Env.listContributors E (Config.organization c) (Config.repo c) 100);;
  let contributorsMap := contributorsMap_of contributors in
  let usersMilestonePRs := getMilestonePRs prs in
  ret (first_time_loop E contributorsMap usersMilestonePRs prs).

(** *** fetchDataFromService *)

Fixpoint field (name : string) (fields : list (string * jsval)) : jsval :=
  match fields with
  | [] => JUndefined
  | (k, v) :: fields' => if String.eqb k name then v else field name fields'
  end.

(** [v.name] for the property names read by the program ([response],
    [choices], [message], [content], [prs]), none of which a string, a
    number, a boolean or an array has. *)
Definition get_prop (v : jsval) (name : string) : outcome jsval :=
  match v with
  | JUndefined | JNull =>
      Throw ("TypeError: Cannot read properties of undefined (reading '"
             +:+ name +:+ "')")
  | JObj fields => Ok (field name fields)
  | _ => Ok JUndefined
  end.

(** [v[0]] *)
Definition get_first (v : jsval) : outcome jsval :=
  match v with
  | JUndefined | JNull =>
      Throw "TypeError: Cannot read properties of undefined (reading '0')"
  | JArr l => Ok (List.hd JUndefined l)
  | JStr (String ch _) => Ok (JStr (String ch EmptyString))
  | JObj fields => Ok (field "0" fields)
  | _ => Ok JUndefined
  end.

Definition newline : string := String (ascii_of_nat 10) EmptyString.

Definition service_url (c : Config.t) : string :=
  "http://localhost:" +:+ Config.port c +:+ Config.endpoint c.

(** The body of the [try] block: where the highlights sit in the answer of
    the service. *)
Definition read_highlights (E : Env.t) (c : Config.t) (response : Response.t)
    : M jsval :=
  await data <~ lift (Response.json response);;
  if Config.useOllama c then
    await r <~ lift (get_prop data "response");;
    await parsed <~ lift (Env.JSON_parse E r);;
    lift (get_prop parsed "prs")
  else
    await choices <~ lift (get_prop data "choices");;
    await choice <~ lift (get_first choices);;
    await message <~ lift (get_prop choice "message");;
    await text <~ lift (get_prop message "content");;
    await parsed <~ lift (Env.JSON_parse E text);;
    lift (get_prop parsed "prs").

(** The request carries the prompt (a fixed preamble followed by
    [content]) and the schema; the event records [content] only.  The
    result is what the promise resolves to; the cast to [HighlightedPR[]]
    does nothing at run time. *)
Definition fetchDataFromService (E : Env.t) (c : Config.t) (content : string)
    : M jsval :=
  try_catch
    (await response <~
       request (Fetch (service_url c) (Config.useOllama c) (Config.model c) content)
               (Env.fetch E (service_url c) (Config.useOllama c) (Config.model c)
                          content);;
     if negb (Response.ok response) then
       await _u <~ console_error
         ("HTTP error! Status: " +:+ pretty (Response.status response));;
       ret (JArr [])
     else
       try_catch (read_highlights E c response)
         (fun e =>
            await _u <~ console_error
              ("Got error " +:+ e +:+ "." +:+ newline +:+
               "Generated data from AI was not valid JSON format, generating release notes without highlights.");;
            ret (JArr [])))
    (fun error =>
       await _u <~ console_error
         ("Got error " +:+ error +:+ "." +:+ newline +:+
          "There was a problem when generating highlited PRs. Generating release notes without highlights.");;
       ret (JArr [])).

(** *** includeDataFromIssue *)

(** A string operand of [+]; a body that is [null] reads "null". *)
Definition str_of (b : option string) : string := default "null" b.

(** [pr.body?.match(/(Closes|Fixes)\s#\d+/i)] *)
Definition issueMatch_of (pr : Issue.t) : option Re.result :=
  match Issue.body pr with
  | Some b => Re.String_match b true closes_re
  | None => None
  end.

Definition includeDataFromIssue (E : Env.t) (owner repo : string)
    (pr : Issue.t) : M Issue.t :=
  match issueMatch_of pr with
  | None => ret pr
  | Some issueMatch =>
      let issueNumber := Js.split (Re.m0 issueMatch) "#" !! 1%nat in
      await response <~
        request (IssuesGet owner repo issueNumber)
                (Env.issues_get E owner repo issueNumber);;
      match response with
      | Some data =>
          ret (Issue.with_body pr
                 (Some (str_of (Issue.body data) +:+ str_of (Issue.body pr))))
      | None => ret pr
      end
  end.

(** *** generate *)

(** The category a pull request is filed under, or [None] when the loop
    skips it.  (Capture group 1 takes part in every match of [title_re].) *)
Definition categorize (pr : Issue.t) : option string :=
  match Re.String_match (Issue.title pr) true title_re with
  | None => None
  | Some m =>
      match Issue.user pr, Re.m1 m with
      | Some _, Some prefix =>
          let category := Js.toLowerCase prefix in
          match Re.String_match (Issue.title pr) true test_scope_re with
          | Some _ => Some "test"
          | None => Some category
          end
      | _, _ => None
      end
  end.

Definition prInfo_of (pr : Issue.t) : PRInfo.t :=
  PRInfo.mk (Issue.title pr)
            (Author.mk (default "" (User.login <$> Issue.user pr))
                       (default "" (User.html_url <$> Issue.user pr)))
            (Issue.number pr)
            (Issue.html_url pr)
            None.

(** [if (!map[category]) map[category] = { category, prs: [] }].  A
    category is one of the seven prefixes, none of which [Object.prototype]
    has a property for: the value read is the own one. *)
Definition ensure_category (categorizedPRsMap : list (string * PRCategory.t))
    (category : string) : list (string * PRCategory.t) :=
  match Obj.get categorizedPRsMap category with
  | Some _ => categorizedPRsMap
  | None => Obj.set categorizedPRsMap category (PRCategory.mk category [])
  end.

(** [map[category].prs.push(prInfo)] *)
Definition push_pr (categorizedPRsMap : list (string * PRCategory.t))
    (category : string) (prInfo : PRInfo.t) : M (list (string * PRCategory.t)) :=
  match Obj.get categorizedPRsMap category with
  | Some cat =>
      ret (Obj.set categorizedPRsMap category
             (PRCategory.mk (PRCategory.category cat)
                            (PRCategory.prs cat ++ [prInfo])))
  | None => throw "TypeError: Cannot read properties of undefined (reading 'prs')"
  end.

(** The loop over [prs]: the categories so far go in, the categories and
    the (possibly enriched) pull requests come out. *)
Fixpoint categorize_loop (E : Env.t) (c : Config.t) (prs : list Issue.t)
    (categorizedPRsMap : list (string * PRCategory.t))
    : M (list (string * PRCategory.t) * list Issue.t) :=
  match prs with
  | [] => ret (categorizedPRsMap, [])
  | pr :: prs' =>
      match categorize pr with
      | None =>
          await r <~ categorize_loop E c prs' categorizedPRsMap;;
          ret (r.1, pr :: r.2)
      | Some category =>
          let prInfo := prInfo_of pr in
          let map1 := ensure_category categorizedPRsMap category in
          await pr' <~
            includeDataFromIssue E (Config.organization c) (Config.repo c) pr;;
          await map2 <~ push_pr map1 category prInfo;;
          await r <~ categorize_loop E c prs' map2;;
          ret (r.1, pr' :: r.2)
      end
  end.

(** [pr.body ? pr.body.replace(/### Screenshot .../, '') : ''] *)
Definition strip_screenshot (pr : Issue.t) : Issue.t :=
  Issue.with_body pr
    (Some (match Issue.body pr with
           | Some b =>
               if Js.truthy b then Re.String_remove b false screenshot_re
               else ""
           | None => ""
           end)).

(** [c ? true : null] *)
Definition true_or_null (c : bool) : option bool :=
  if c then Some true else None.

(** [a ?? b] *)
Definition coalesce {A : Type} (a : option A) (b : A) : A :=
  match a with
  | Some v => v
  | None => b
  end.

(** The predicate of [prs.filter(...)] that selects the pull requests for
    the highlights, as a truth value. *)
Definition is_feature (issue : Issue.t) : bool :=
  match Issue.pull_request issue with
  | Some _ =>
      coalesce (true_or_null (Js.startsWith (Issue.title issue) "feat"))
               (Js.startsWith (Issue.title issue) "chore")
  | None => false
  end.

Definition features_of (prs : list Issue.t) : list Issue.t :=
  List.filter is_feature (map strip_screenshot prs).

Definition content_of (features : list Issue.t) : string :=
  Js.join ""
    (imap (fun index pr =>
             "PR" +:+ pretty (index + 1)%nat +:+ ": " +:+ Issue.title pr
             +:+ " - " +:+ str_of (Issue.body pr) +:+ newline +:+ "}")
          features).

Definition generateMD_view (c : Config.t) (changelog : list PRCategory.t)
    (firstTimeContributors : list PRInfo.t) (highlighted : jsval) : View.t :=
  View.mk firstTimeContributors (sortedChangelog changelog) highlighted
          (version c) (Config.username c).

Definition template_path : string := "./release-notes/release-notes.mustache".

(** [date.toISOString().split('T')[0]] for [date = new Date()] *)
Definition formattedDate (E : Env.t) : string :=
  default "" (Js.split (Env.Date_now_toISOString E) "T" !! 0%nat).

(** [`${formattedDate}-release-${version}.md`] *)
Definition filename (E : Env.t) (c : Config.t) : string :=
  formattedDate E +:+ "-release-" +:+ version c +:+ ".md".

Definition generateMD (E : Env.t) (c : Config.t) (changelog : list PRCategory.t)
    (firstTimeContributors : list PRInfo.t) (highlighted : jsval) : M unit :=
  await releaseNotesTemplate <~
    request (ReadFile template_path) (Env.readFile E template_path);;
  await renderedMarkdown <~
    lift (Env.mustache_render E releaseNotesTemplate
            (generateMD_view c changelog firstTimeContributors highlighted));;
  await _ <~
    request (WriteFile (filename E c) renderedMarkdown)
            (Env.writeFile E (filename E c) renderedMarkdown);;
  console_log (filename E c +:+ " was created!").

Definition generate (E : Env.t) (c : Config.t) (fuel : nat) : M unit :=
  await prs <~
    getPRsByMilestone E fuel (Config.organization c) (Config.repo c)
                      (Config.milestone c);;
  await firstTimeContributorPRs <~ getFirstTimeContributors E c prs;;
  await r <~ categorize_loop E c prs [];;
  let changelog := Obj.values r.1 in
  let features := features_of r.2 in
  await result <~ fetchDataFromService E c (content_of features);;
  generateMD E c changelog firstTimeContributorPRs result.

(** ** Dates

    The time value (milliseconds since the epoch) of a date-time in the
    form the API sends for [created_at], [YYYY-MM-DDTHH:MM:SSZ].  It is
    used as the date parser of the sample environment; any other string is
    an invalid date there. *)

Module IsoDate.

Fixpoint digits_value (s : string) (acc : Z) : option Z :=
  match s with
  | EmptyString => Some acc
  | String c s' =>
      if Js.is_digit c
      then digits_value s' (10 * acc + (Z.of_N (Js.code c) - 48))
      else None
  end.

(** The number written at offset [from] with [len] digits. *)
Definition number_at (s : string) (from len : nat) : option Z :=
  let t := Js.take len (Js.drop from s) in
  if Nat.eqb (String.length t) len then digits_value t 0 else None.

Definition char_at (s : string) (i : nat) (c : ascii) : bool :=
  match Js.drop i s with
  | String a _ => Ascii.eqb a c
  | EmptyString => false
  end.

(** Days from 1970-01-01 to the given day of the Gregorian calendar. *)
Definition days_from_civil (y m d : Z) : Z :=
  let y' := if m <=? 2 then y - 1 else y in
  let era := y' / 400 in
  let yoe := y' - era * 400 in
  let mp := if 2 <? m then m - 3 else m + 9 in
  let doy := (153 * mp + 2) / 5 + d - 1 in
  let doe := yoe * 365 + yoe / 4 - yoe / 100 + doy in
  era * 146097 + doe - 719468.

Definition parse (s : string) : option Z :=
  if Nat.eqb (String.length s) 20
     && char_at s 4 "-" && char_at s 7 "-" && char_at s 10 "T"
     && char_at s 13 ":" && char_at s 16 ":" && char_at s 19 "Z"
  then
    match number_at s 0 4, number_at s 5 2, number_at s 8 2,
          number_at s 11 2, number_at s 14 2, number_at s 17 2 with
    | Some y, Some mo, Some d, Some h, Some mi, Some se =>
        if (1 <=? mo) && (mo <=? 12) && (1 <=? d) && (d <=? 31)
           && (h <=? 23) && (mi <=? 59) && (se <=? 59)
        then Some ((((days_from_civil y mo d * 24 + h) * 60 + mi) * 60 + se)
                   * 1000)
        else None
    | _, _, _, _, _, _ => None
    end
  else None.

End IsoDate.

(** ** Notions used to state the properties *)

(** An entry that carries a pull-request marker and whose author is
    defined: the user is there and the login is a non-empty string. *)
Definition has_author (issue : Issue.t) : bool :=
  match Issue.pull_request issue, Issue.user issue with
  | Some _, Some u => Js.truthy (User.login u)
  | _, _ => false
  end.

Definition authored_by (username : string) (issue : Issue.t) : bool :=
  match Issue.pull_request issue, Issue.user issue with
  | Some _, Some u => Js.truthy (User.login u) && String.eqb (User.login u) username
  | _, _ => false
  end.

(** [a + b] *)
Definition num_add (a b : num) : num :=
  match a, b with
  | Fin x, Fin y => Fin (x + y)
  | NaN, _ | _, NaN => NaN
  | PosInf, NegInf | NegInf, PosInf => NaN
  | PosInf, _ | _, PosInf => PosInf
  | NegInf, _ | _, NegInf => NegInf
  end.

(** The sum of the counts of a count map. *)
Definition sum_counts (m : gmap string num) : num :=
  map_fold (fun _ v acc => num_add v acc) (Fin 0) m.

(** The author of the entry, if there is one, has a login that is not the
    name of a property of [Object.prototype]. *)
Definition plain_login (issue : Issue.t) : bool :=
  match Issue.user issue with
  | Some u => negb (Proto.inherits (User.login u))
  | None => true
  end.

(** What the program stores for a username of which it has counted [n]
    entries: nothing under [__proto__]; under a name that the prototype
    has, NaN after the first entry, and one less than the number of
    entries from then on; the number of entries otherwise. *)
Definition stored_count (username : string) (n : nat) : option num :=
  if String.eqb username "__proto__" then None
  else if Proto.inherits username then
    match n with
    | O => None
    | S O => Some NaN
    | S (S k) => Some (Fin (Z.of_nat (S k)))
    end
  else
    match n with
    | O => None
    | S k => Some (Fin (Z.of_nat (S k)))
    end.

(** The count a username must have: nothing when there is no entry of it. *)
Definition expected_count (username : string) (prs : list Issue.t) : option Z :=
  match length (List.filter (authored_by username) prs) with
  | O => None
  | S n => Some (Z.of_nat (S n))
  end.

(** A category of the given name. *)
Definition named (name : string) (c : PRCategory.t) : bool :=
  String.eqb (PRCategory.category c) name.

(** A category that is none of "feat", "fix" and "chore". *)
Definition unranked (c : PRCategory.t) : bool :=
  negb (named "feat" c) && negb (named "fix" c) && negb (named "chore" c).

(** The order the rendering is said to have: the categories named "feat",
    then those named "fix", then those named "chore", then all others,
    each group in the order of the input. *)
Definition rendering_order (changelog : list PRCategory.t) : list PRCategory.t :=
  List.filter (named "feat") changelog
  ++ List.filter (named "fix") changelog
  ++ List.filter (named "chore") changelog
  ++ List.filter unranked changelog.

(** The place of a category in the order: 0, 1, 2 for the three names of
    [priorityOrder], 3 for every other name. *)
Definition bucket (c : PRCategory.t) : nat :=
  if named "feat" c then 0
  else if named "fix" c then 1
  else if named "chore" c then 2
  else 3.

(** The categories at place [k]. *)
Definition in_bucket (k : nat) (c : PRCategory.t) : bool :=
  (bucket c =? k)%nat.

(** The selection for the highlights as the plain disjunction: a
    pull-request marker, and a title that starts with "feat" or with
    "chore". *)
Definition feat_or_chore (issue : Issue.t) : bool :=
  match Issue.pull_request issue with
  | Some _ =>
      Js.startsWith (Issue.title issue) "feat"
      || Js.startsWith (Issue.title issue) "chore"
  | None => false
  end.

(** The prefixes of the categorizer, in the order of the pattern. *)
Definition prefixes : list string :=
  ["chore"; "feat"; "docs"; "fix"; "refactor"; "test"; "ci"].

(** The title without its leading white space. *)
Fixpoint skip_spaces (s : string) : string :=
  match s with
  | String a s' => if Js.is_space a then skip_spaces s' else s
  | EmptyString => EmptyString
  end.

(** [s] begins with the lower-case word [w], letter case ignored. *)
Definition begins_ci (s w : string) : bool :=
  Js.startsWith (Js.toLowerCase s) w.

(** [s] contains the lower-case word [w], letter case ignored. *)
Fixpoint contains_ci (s w : string) : bool :=
  begins_ci s w
  || match s with
     | String _ s' => contains_ci s' w
     | EmptyString => false
     end.

(** [p] is the word [kw] written with at least one letter in upper
    case. *)
Definition case_variant (kw p : string) : Prop :=
  Js.toLowerCase p = kw /\ p <> kw.

(** The pull requests filed under [category] in the object of the
    categories. *)
Definition filed_under (o : list (string * PRCategory.t)) (category : string)
    : list PRInfo.t :=
  match Obj.get o category with
  | Some cat => PRCategory.prs cat
  | None => []
  end.

(** [categorize] gives exactly this category. *)
Definition in_category (category : string) (pr : Issue.t) : bool :=
  match categorize pr with
  | Some c => String.eqb c category
  | None => false
  end.

(** What a reference needs after its keyword: one white-space character,
    "#", and at least one digit.  The result is the whole run of digits. *)
Definition number_after (s : string) : option string :=
  match s with
  | String sp (String hash digits) =>
      if Js.is_space sp && Ascii.eqb hash "#"
         && (0 <? Re.span Js.is_digit digits)%nat
      then Some (Js.take (Re.span Js.is_digit digits) digits)
      else None
  | _ => None
  end.

(** The issue number of a reference "Closes #n" or "Fixes #n" (letter
    case ignored) that starts at the beginning of [s]. *)
Definition reference_here (s : string) : option string :=
  if begins_ci s "closes" then number_after (Js.drop 6 s)
  else if begins_ci s "fixes" then number_after (Js.drop 5 s)
  else None.

(** The issue number of the first reference in [s], from the left. *)
Fixpoint first_reference (s : string) : option string :=
  match reference_here s with
  | Some d => Some d
  | None =>
      match s with
      | String _ s' => first_reference s'
      | EmptyString => None
      end
  end.

(** [sub] occurs in [s]. *)
Definition occurs_in (sub s : string) : Prop :=
  exists before after, s = before +:+ sub +:+ after.

(** The requests of the pagination loop for the pages [start],
    [start + 1], ..., [start + n - 1]. *)
Definition page_requests (owner repo milestone : string) (start : N) (n : nat)
    : list event :=
  map (fun i => ListForRepo owner repo milestone "closed" 100 (start + N.of_nat i))
      (seq 0 n).

(** The request sent to the highlights service, and its answer. *)
Definition fetch_event (c : Config.t) (content : string) : event :=
  Fetch (service_url c) (Config.useOllama c) (Config.model c) content.

Definition service_answer (E : Env.t) (c : Config.t) (content : string)
    : outcome Response.t :=
  Env.fetch E (service_url c) (Config.useOllama c) (Config.model c) content.

(** The entries of the result that belong to [username]. *)
Definition entries_of (username : string) (l : list PRInfo.t) : list PRInfo.t :=
  List.filter
    (fun info => String.eqb (Author.username (PRInfo.author info)) username) l.

(** The association list is a map from each username to an entry of that
    username. *)
Definition keyed_by_username (o : list (string * PRInfo.t)) : Prop :=
  NoDup (map fst o)
  /\ Forall (fun e => Author.username (PRInfo.author (snd e)) = fst e) o.

(** What holds after the loop has gone through [prs], when every creation
    date is valid: the entries are keyed by username; each entry comes from
    a qualifying pull request of that user; and each user with a qualifying
    pull request, whose login is not the name of a property of
    [Object.prototype], has an entry, whose date is not before the date of
    any qualifying pull request of that user. *)
Definition loop_invariant (E : Env.t) (cm : gmap string Z)
    (mm : gmap string num) (prs : list Issue.t) (o : list (string * PRInfo.t))
    : Prop :=
  keyed_by_username o
  /\ (forall u info, Obj.get o u = Some info ->
        exists pr usr, In pr prs /\ Issue.user pr = Some usr
          /\ User.login usr = u /\ info = newPRInfo_of pr usr)
  /\ (forall pr usr, In pr prs -> Issue.user pr = Some usr ->
        isNewContributor (User.login usr) cm mm = true ->
        Proto.inherits (User.login usr) = false ->
        exists info t, Obj.get o (User.login usr) = Some info
          /\ Date_new E (PRInfo.created_at info) = Some t
          /\ forall t', Env.Date_parse E (Issue.created_at pr) = Some t' ->
               t' <= t).

(** ** Sample data

    The issues are built as the test suite builds them
    ([createMockIssue]). *)

Module Samples.

Definition user (login : string) (html_url : string) : User.t :=
  User.mk login html_url "User".

Definition mockIssue (id : Z) (title : string) (userLogin userHtmlUrl : string)
    (htmlUrl createdAt : string) (body : string) : Issue.t :=
  Issue.mk title (Some (user userLogin userHtmlUrl)) id htmlUrl createdAt
           (Some body)
           (Some (PullRequestRef.mk
                    ("https://api.github.com/repos/owner/repo/pulls/" +:+ pretty id)
                    htmlUrl)).

Definition quote : string := String (ascii_of_nat 34) EmptyString.

(** [quoted w] is [w] between double quotes. *)
Definition quoted (w : string) : string := quote +:+ w +:+ quote.

(** The text of an object whose [prs] holds one highlight. *)
Definition highlights_json : string :=
  "{" +:+ quoted "prs" +:+ ":[{" +:+ quoted "title" +:+ ":" +:+ quoted "HL1"
  +:+ "," +:+ quoted "shortDesc" +:+ ":" +:+ quoted "s"
  +:+ "," +:+ quoted "longDesc" +:+ ":" +:+ quoted "l" +:+ "}]}".

Definition hlPRs : list jsval :=
  [JObj [("title", JStr "HL1"); ("shortDesc", JStr "s"); ("longDesc", JStr "l")]].

(** [JSON.parse] on the few texts the samples use. *)
Definition JSON_parse (v : jsval) : outcome jsval :=
  match v with
  | JStr s =>
      if String.eqb s "{}" then Ok (JObj [])
      else if String.eqb s "[]" then Ok (JArr [])
      else if String.eqb s highlights_json then Ok (JObj [("prs", JArr hlPRs)])
      else Throw "SyntaxError: Unexpected token"
  | JNull => Ok JNull
  | _ => Throw "SyntaxError: Unexpected token"
  end.

(** An answer of the chat-completion kind whose message text is [text]. *)
Definition chat_answer (text : string) : Response.t :=
  Response.mk true 200
    (Ok (JObj [("choices",
                JArr [JObj [("message", JObj [("content", JStr text)])]])])).

(** An answer of the Ollama kind whose [response] text is [text]. *)
Definition ollama_answer (text : string) : Response.t :=
  Response.mk true 200 (Ok (JObj [("response", JStr text)])).

Definition linkedIssue : Issue.t :=
  mockIssue 123 "Linked" "userY" "urlY" "htmlY" "2023-03-01T00:00:00Z"
            "Issue body.".

Definition pr_closes : Issue.t :=
  mockIssue 401 "feat: X" "userX" "urlX" "htmlX" "2023-04-01T00:00:00Z"
            "Closes #123. PR body.".

Definition pr_fixes : Issue.t :=
  mockIssue 401 "feat: X" "userX" "urlX" "htmlX" "2023-04-01T00:00:00Z"
            "Fixes #123. PR body.".

Definition pr_plain : Issue.t :=
  mockIssue 401 "feat: X" "userX" "urlX" "htmlX" "2023-04-01T00:00:00Z"
            "ABCD PR body.".

Definition pr_two_references : Issue.t :=
  mockIssue 402 "fix: Y" "userX" "urlX" "htmlX" "2023-04-02T00:00:00Z"
            "This fixes #123 and closes #77.".

Definition prNew1 : Issue.t :=
  mockIssue 201 "feat: First PR" "newUser" "urlNew" "htmlNew"
            "2023-02-01T10:00:00Z" "Body for PR 201".

Definition prNew2 : Issue.t :=
  mockIssue 202 "fix: Older PR" "newUser" "urlNew" "htmlNew"
            "2023-02-01T09:00:00Z" "Body for PR 202".

(** The template, and a stand-in for the template engine: it puts the
    version and the number of categories after the template. *)
Definition template : string := "# Release notes ".

Definition render (template : string) (view : View.t) : outcome string :=
  Ok (template +:+ View.version view +:+ " ("
      +:+ pretty (length (View.changelog view)) +:+ ")").

(** An environment: one milestone "1.0.0", the two pull requests of
    [newUser] on the first page, issue 123, a service whose answer is
    given, the template in its place, and a disk that can be written. *)
Definition env (service : outcome Response.t) : Env.t :=
  Env.mk
    (fun _ _ => Ok [Milestone.mk "1.0.0" 1])
    (fun _ _ _ _ _ page => if (page =? 1)%N then Ok [prNew2; prNew1] else Ok [])
    (fun _ _ _ => Ok [Contributor.mk (Some "newUser") 2])
    (fun _ _ n =>
       match n with
       | Some d =>
           if String.eqb d "123" then Ok (Some linkedIssue)
           else Throw "HttpError: Not Found"
       | None => Throw "HttpError: Not Found"
       end)
    (fun _ _ _ _ => service)
    JSON_parse
    IsoDate.parse
    "2025-06-30T08:15:00.000Z"
    (fun path =>
       if String.eqb path template_path then Ok template
       else Throw "ENOENT: no such file or directory")
    render
    (fun _ _ => Ok tt).

Definition config (useOllama : bool) : Config.t :=
  Config.mk "test-org" "test-repo" "1.0.0" "test-user" (Some "test-model")
            "12345" "/api/test" useOllama.

Definition pr_Feat : Issue.t :=
  mockIssue 501 "Feat: x" "userA" "urlA" "htmlA" "2023-05-01T00:00:00Z" "body".

Definition pr_Feat_test : Issue.t :=
  mockIssue 502 "Feat(test): x" "userA" "urlA" "htmlA" "2023-05-01T00:00:00Z"
            "body".

End Samples.

(** ** Further notions *)

(** A contributor record of the given login. *)
Definition has_login (username : string) (contributor : Contributor.t) : bool :=
  match Contributor.login contributor with
  | Some l => String.eqb l username
  | None => false
  end.

(** The lifetime count of a username according to the list of
    contributors: that of the last record with this login, none for the
    empty login. *)
Definition lifetime_count (username : string) (contributors : list Contributor.t)
    : option Z :=
  if Js.truthy username
  then Contributor.contributions
         <$> List.find (has_login username) (rev contributors)
  else None.

(** Some entry of the list has an author of this login. *)
Definition has_pr_by (username : string) (prs : list Issue.t) : Prop :=
  exists pr usr, In pr prs /\ Issue.user pr = Some usr
    /\ User.login usr = username.

(** The number of counted pull requests of a username. *)
Definition milestone_count (username : string) (prs : list Issue.t) : nat :=
  length (List.filter (authored_by username) prs).

(** Who has an entry while the loop runs: the users with a pull request
    so far who pass the test on the counts and whose login is not the name
    of a property of [Object.prototype].  No date is looked at for that. *)
Definition keys_invariant (cm : gmap string Z) (mm : gmap string num)
    (prs : list Issue.t) (o : list (string * PRInfo.t)) : Prop :=
  keyed_by_username o
  /\ forall u, is_Some (Obj.get o u)
       <-> has_pr_by u prs /\ isNewContributor u cm mm = true
           /\ Proto.inherits u = false.

(** The categories in the order in which they are first met. *)
Definition see (seen : list string) (category : string) : list string :=
  if existsb (String.eqb category) seen then seen else seen ++ [category].

Definition first_seen (categories : list string) : list string :=
  fold_left see categories [].

(** The categories given to the pull requests of the list, one after the
    other; a pull request that is skipped gives none. *)
Fixpoint assigned (prs : list Issue.t) : list string :=
  match prs with
  | [] => []
  | pr :: prs' =>
      match categorize pr with
      | Some category => category :: assigned prs'
      | None => assigned prs'
      end
  end.

(** [p'] is [p] but for its body, and its body is the body of [p] with
    some text in front (none when [p] has no body). *)
Definition enriched (p p' : Issue.t) : Prop :=
  Issue.title p' = Issue.title p
  /\ Issue.user p' = Issue.user p
  /\ Issue.number p' = Issue.number p
  /\ Issue.html_url p' = Issue.html_url p
  /\ Issue.created_at p' = Issue.created_at p
  /\ Issue.pull_request p' = Issue.pull_request p
  /\ exists front,
       Issue.body p' = (fun b => front +:+ b) <$> Issue.body p.

(** The entries of the object of the categories are well formed: each is
    kept under its own name and holds at least one pull request. *)
Definition well_formed_categories (o : list (string * PRCategory.t)) : Prop :=
  Forall (fun e => PRCategory.category (snd e) = fst e
                   /\ PRCategory.prs (snd e) <> []) o.

(** The issues that the loop of [generate] asks for: the first reference
    of the body of each pull request that is given a category, in the
    order of the milestone. *)
Definition referenced (prs : list Issue.t) : list string :=
  omap (fun pr => match categorize pr with
                  | Some _ => Issue.body pr ≫= first_reference
                  | None => None
                  end) prs.

Definition issue_requests (owner repo : string) (ds : list string)
    : list event :=
  map (fun d => IssuesGet owner repo (Some d)) ds.

(** The heading from which on [generate] leaves the body out. *)
Definition screenshot_heading : string := "### Screenshot / video of UI".

(** [s.indexOf(w)], with [None] for [-1]. *)
Fixpoint index_of_substring (w s : string) : option nat :=
  if Js.startsWith s w then Some 0%nat
  else match s with
       | EmptyString => None
       | String _ s' => S <$> index_of_substring w s'
       end.

(** The part of [s] before the first occurrence of [w]; all of [s] when
    [w] does not occur in it. *)
Definition before_first (w s : string) : string :=
  match index_of_substring w s with
  | Some i => Js.take i s
  | None => s
  end.

(** [body ? body : ''] *)
Definition body_or_empty (pr : Issue.t) : string :=
  default "" (Issue.body pr).

(** ** The command line

    The script that reads the options and starts the generator exists in
    two forms: one walks over [process.argv] itself, the other reads the
    object that [minimist] makes of it.  Both end either with lines on the
    console or with [new ReleaseNotesPreparator(...)] followed by
    [generate()], recorded here as one step [Launch] with the arguments of
    the constructor. *)

Module Cli.

(** The variables of [run], alias the fields of [Partial<Config>]; a value
    is a string or [undefined], or whatever [minimist] has read. *)
Module Settings.
Record t := mk {
  token : jsval;
  organization : jsval;
  repo : jsval;
  milestone : jsval;
  username : jsval;
  model : jsval;
  port : jsval;
  endpoint : jsval;
  useOllama : bool
}.

Definition set_token (x : jsval) (c : t) : t :=
  mk x (organization c) (repo c) (milestone c) (username c) (model c)
     (port c) (endpoint c) (useOllama c).
Definition set_organization (x : jsval) (c : t) : t :=
  mk (token c) x (repo c) (milestone c) (username c) (model c)
     (port c) (endpoint c) (useOllama c).
Definition set_repo (x : jsval) (c : t) : t :=
  mk (token c) (organization c) x (milestone c) (username c) (model c)
     (port c) (endpoint c) (useOllama c).
Definition set_milestone (x : jsval) (c : t) : t :=
  mk (token c) (organization c) (repo c) x (username c) (model c)
     (port c) (endpoint c) (useOllama c).
Definition set_username (x : jsval) (c : t) : t :=
  mk (token c) (organization c) (repo c) (milestone c) x (model c)
     (port c) (endpoint c) (useOllama c).
Definition set_model (x : jsval) (c : t) : t :=
  mk (token c) (organization c) (repo c) (milestone c) (username c) x
     (port c) (endpoint c) (useOllama c).
Definition set_port (x : jsval) (c : t) : t :=
  mk (token c) (organization c) (repo c) (milestone c) (username c) (model c)
     x (endpoint c) (useOllama c).
Definition set_endpoint (x : jsval) (c : t) : t :=
  mk (token c) (organization c) (repo c) (milestone c) (username c) (model c)
     (port c) x (useOllama c).
Definition set_useOllama (b : bool) (c : t) : t :=
  mk (token c) (organization c) (repo c) (milestone c) (username c) (model c)
     (port c) (endpoint c) b.
End Settings.

(** [process.env], as far as it is read. *)
Module ProcessEnv.
Record t := mk {
  GITHUB_TOKEN : option string;
  GITHUB_USERNAME : option string
}.
End ProcessEnv.

Inductive output : Type :=
| Log (msg : string)
| Warn (msg : string)
| Error (msg : string)
| Launch (settings : Settings.t).

(** [ToBoolean] *)
Definition toBoolean (v : jsval) : bool :=
  match v with
  | JUndefined | JNull => false
  | JBool b => b
  | JNum z => negb (z =? 0)
  | JStr s => Js.truthy s
  | JArr _ | JObj _ => true
  end.

(** [v ?? d] *)
Definition nullish_or (v d : jsval) : jsval :=
  match v with
  | JUndefined | JNull => d
  | _ => v
  end.

(** A variable of the environment, or an element of [args]: a string, or
    [undefined] when there is none. *)
Definition string_or_undefined (o : option string) : jsval :=
  match o with
  | Some s => JStr s
  | None => JUndefined
  end.

Definition dq : string := String (ascii_of_nat 34) EmptyString.

Definition showHelp : list output :=
  [Log "Parameters:";
   Log "--token - GitHub token or export GITHUB_TOKEN env variable";
   Log ("--org - GitHub organization (default is " +:+ dq +:+ "podman-desktop"
        +:+ dq +:+ ")");
   Log ("--repo - GitHub repository (default is " +:+ dq +:+ "podman-desktop"
        +:+ dq +:+ ")");
   Log "--username - GitHub username or export GITHUB_USERNAME env variable";
   Log "--milestone - GitHub milestone for which we want to generate release notes e.g. 1.18.0";
   Log "--ollama - script will try to use ollama when model is provided";
   Log ("--model - name of ollama model for generating highlited PRs e.g. gemma3:27b (before running this script run "
        +:+ dq +:+ "ollama run gemma3:27b" +:+ dq +:+ ")");
   Log "--port - port on which is service running";
   Log ("--endpoint - endpoint of a running service, default is " +:+ dq
        +:+ "/v1/chat/completions" +:+ dq +:+ " for AI Lab and " +:+ dq
        +:+ "/api/generate" +:+ dq +:+ " for Ollama")].

Definition ollama_without_model : string :=
  "When using --ollama, you need to specify --model argument".
Definition no_token : string :=
  "No token found. Use either GITHUB_TOKEN or pass it as an argument".
Definition no_username : string :=
  "No username found. Use either GITHUB_USERNAME or pass it as an argument".

(** The values of the variables before any option is read. *)
Definition initial (env : ProcessEnv.t) : Settings.t :=
  Settings.mk (string_or_undefined (ProcessEnv.GITHUB_TOKEN env))
              (JStr "podman-desktop") (JStr "podman-desktop") (JStr "")
              (string_or_undefined (ProcessEnv.GITHUB_USERNAME env))
              JUndefined JUndefined JUndefined false.

(** [port ??= ...; endpoint ??= ...] in the two branches on [useOllama]. *)
Definition setupDefaults (c : Settings.t) : Settings.t :=
  if Settings.useOllama c then
    Settings.set_endpoint (nullish_or (Settings.endpoint c) (JStr "/api/generate"))
      (Settings.set_port (nullish_or (Settings.port c) (JStr "11434")) c)
  else
    Settings.set_endpoint
      (nullish_or (Settings.endpoint c) (JStr "/v1/chat/completions"))
      (Settings.set_port (nullish_or (Settings.port c) (JStr "45621")) c).

(** *** The form that walks over [process.argv] *)

Module Argv.

(** The [case] labels that read the next argument, [x = args[++i]], with
    the variable that is assigned. *)
Definition assignment (arg : string)
    : option (jsval -> Settings.t -> Settings.t) :=
  if String.eqb arg "--token" then Some Settings.set_token
  else if String.eqb arg "--org" then Some Settings.set_organization
  else if String.eqb arg "--repo" then Some Settings.set_repo
  else if String.eqb arg "--username" then Some Settings.set_username
  else if String.eqb arg "--milestone" then Some Settings.set_milestone
  else if String.eqb arg "--model" then Some Settings.set_model
  else if String.eqb arg "--port" then Some Settings.set_port
  else if String.eqb arg "--endpoint" then Some Settings.set_endpoint
  else None.

(** The [for] loop over the arguments: the variables at its end, and what
    it has written to the console. *)
Fixpoint loop (args : list string) (c : Settings.t)
    : Settings.t * list output :=
  match args with
  | [] => (c, [])
  | arg :: rest =>
      match assignment arg with
      | Some assign =>
          match rest with
          | value :: rest' => loop rest' (assign (JStr value) c)
          | [] => (assign JUndefined c, [])
          end
      | None =>
          if String.eqb arg "--ollama" then
            loop rest (Settings.set_useOllama true c)
          else if String.eqb arg "--help" || String.eqb arg "-h" then
            let r := loop rest c in (r.1, showHelp ++ r.2)
          else
            let r := loop rest c in
            (r.1, Warn ("Unknown option: " +:+ arg) :: r.2)
      end
  end.

(** What follows the loop. *)
Definition finish (c : Settings.t) : list output :=
  if Settings.useOllama c && negb (toBoolean (Settings.model c)) then
    [Error ollama_without_model]
  else
    let c := setupDefaults c in
    if negb (toBoolean (Settings.token c)) then [Log no_token]
    else if negb (toBoolean (Settings.username c)) then [Log no_username]
    else [Launch c].

(** [run], for the arguments [process.argv.slice(2)]. *)
Definition run (env : ProcessEnv.t) (args : list string) : list output :=
  match args with
  | [] => showHelp
  | _ :: _ =>
      let r := loop args (initial env) in
      r.2 ++ finish r.1
  end.

End Argv.

(** *** The form that reads the object made by [minimist] *)

Module Minimist.

(** [if (parsedArgs[name]) config.x = parsedArgs.name] *)
Definition take_arg (parsedArgs : list (string * jsval)) (name : string)
    (assign : jsval -> Settings.t -> Settings.t) (c : Settings.t) : Settings.t :=
  if toBoolean (field name parsedArgs) then assign (field name parsedArgs) c
  else c.

Definition parseArguments (env : ProcessEnv.t)
    (parsedArgs : list (string * jsval)) : Settings.t :=
  let config := initial env in
  let config := take_arg parsedArgs "token" Settings.set_token config in
  let config := take_arg parsedArgs "org" Settings.set_organization config in
  let config := take_arg parsedArgs "repo" Settings.set_repo config in
  let config := take_arg parsedArgs "model" Settings.set_model config in
  let config := take_arg parsedArgs "milestone" Settings.set_milestone config in
  let config := take_arg parsedArgs "port" Settings.set_port config in
  let config := take_arg parsedArgs "endpoint" Settings.set_endpoint config in
  let config := take_arg parsedArgs "username" Settings.set_username config in
  take_arg parsedArgs "ollama" (fun _ => Settings.set_useOllama true) config.

(** The message, or [None] for [null]. *)
Definition validateConfig (config : Settings.t) : option string :=
  if Settings.useOllama config && negb (toBoolean (Settings.model config)) then
    Some ollama_without_model
  else if negb (toBoolean (Settings.token config)) then Some no_token
  else if negb (toBoolean (Settings.username config)) then Some no_username
  else None.

(** [run], for the value that [minimist] returns: an object, or
    [undefined]. *)
Definition run (env : ProcessEnv.t)
    (parsedArgs : option (list (string * jsval))) : list output :=
  match parsedArgs with
  | None => showHelp
  | Some parsedArgs =>
      if toBoolean (field "help" parsedArgs) then showHelp
      else
        let partialConfig := parseArguments env parsedArgs in
        match validateConfig partialConfig with
        | Some validationError =>
            if Js.truthy validationError then [Log validationError]
            else [Launch (setupDefaults partialConfig)]
        | None => [Launch (setupDefaults partialConfig)]
        end
  end.

End Minimist.

(** *** Notions used to state the properties of the command line *)

(** The options that take a value. *)
Inductive valued : Type :=
| OToken | OOrg | ORepo | OUsername | OMilestone | OModel | OPort | OEndpoint.

Definition flag (o : valued) : string :=
  match o with
  | OToken => "--token"
  | OOrg => "--org"
  | ORepo => "--repo"
  | OUsername => "--username"
  | OMilestone => "--milestone"
  | OModel => "--model"
  | OPort => "--port"
  | OEndpoint => "--endpoint"
  end.

Definition variable (o : valued) : Settings.t -> jsval :=
  match o with
  | OToken => Settings.token
  | OOrg => Settings.organization
  | ORepo => Settings.repo
  | OUsername => Settings.username
  | OMilestone => Settings.milestone
  | OModel => Settings.model
  | OPort => Settings.port
  | OEndpoint => Settings.endpoint
  end.

Definition valued_eqb (a b : valued) : bool :=
  match a, b with
  | OToken, OToken | OOrg, OOrg | ORepo, ORepo | OUsername, OUsername
  | OMilestone, OMilestone | OModel, OModel | OPort, OPort
  | OEndpoint, OEndpoint => true
  | _, _ => false
  end.

(** A command line made of options with their values. *)
Definition command_line (pairs : list (valued * string)) : list string :=
  flat_map (fun p => [flag p.1; p.2]) pairs.

(** The value given last to an option, if it was given at all. *)
Definition last_value (o : valued) (pairs : list (valued * string))
    : option string :=
  snd <$> List.find (fun p => valued_eqb p.1 o) (rev pairs).

(** A value that [process.argv] or [process.env] can give: a string or
    [undefined]. *)
Definition string_or_none (v : jsval) : Prop :=
  v = JUndefined \/ exists s, v = JStr s.

Definition from_strings (c : Settings.t) : Prop :=
  forall o : valued, string_or_none (variable o c).

Definition is_launch (o : output) : bool :=
  match o with
  | Launch _ => true
  | _ => false
  end.

End Cli.

(** ** Further sample data *)

Module MoreSamples.

(** A pull request opened by a bot account, and an issue that is no pull
    request. *)
Definition botPR : Issue.t :=
  Issue.mk "chore: bump deps" (Some (User.mk "dependabot[bot]" "urlBot" "Bot"))
           301 "htmlBot" "2023-02-02T00:00:00Z" (Some "Bumps deps.")
           (Some (PullRequestRef.mk "pulls/301" "htmlBot")).

Definition plainIssue : Issue.t :=
  Issue.mk "feat: wish" (Some (Samples.user "userZ" "urlZ")) 302 "htmlZ"
           "2023-02-03T00:00:00Z" (Some "Please add.") None.

(** The same repository as in [Samples.env], with the closed issues given
    page by page: [pages p] is the answer for page [p]. *)
Definition env_with_pages (pages : N -> outcome (list Issue.t)) : Env.t :=
  Env.mk
    (fun _ _ => Ok [Milestone.mk "1.0.0" 1])
    (fun _ _ _ _ _ page => pages page)
    (fun _ _ _ => Ok [Contributor.mk (Some "newUser") 2])
    (Env.issues_get (Samples.env (Throw "offline")))
    (fun _ _ _ _ => Throw "offline")
    Samples.JSON_parse
    IsoDate.parse
    (Env.Date_now_toISOString (Samples.env (Throw "offline")))
    (Env.readFile (Samples.env (Throw "offline")))
    (Env.mustache_render (Samples.env (Throw "offline")))
    (Env.writeFile (Samples.env (Throw "offline"))).

(** One page with a bot's pull request and a plain issue among the pull
    requests of [newUser]. *)
Definition mixed_pages (page : N) : outcome (list Issue.t) :=
  if (page =? 1)%N
  then Ok [Samples.prNew2; botPR; plainIssue; Samples.prNew1]
  else Ok [].

(** A repository that never answers with an empty page. *)
Definition endless_pages (page : N) : outcome (list Issue.t) :=
  Ok [Samples.prNew1].

(** A repository whose second page cannot be read. *)
Definition broken_pages (page : N) : outcome (list Issue.t) :=
  if (page =? 1)%N then Ok [Samples.prNew2]
  else Throw "HttpError: Server Error".

(** A run for a milestone that the repository has not. *)
Definition config_missing : Config.t :=
  Config.mk "test-org" "test-repo" "2.0.0" "test-user" (Some "test-model")
            "12345" "/api/test" false.

(** A pull request that refers to an issue the repository has not. *)
Definition pr_dangling : Issue.t :=
  Samples.mockIssue 403 "fix: Z" "userX" "urlX" "htmlX" "2023-04-03T00:00:00Z"
                    "Closes #77".

(** An issue without a body, and a repository in which issue 123 is that
    issue. *)
Definition emptyIssue : Issue.t :=
  Issue.mk "Linked" (Some (Samples.user "userY" "urlY")) 123 "htmlY"
           "2023-03-01T00:00:00Z" None None.

Definition env_with_issue (answer : outcome (option Issue.t)) : Env.t :=
  Env.mk
    (Env.listMilestones (Samples.env (Throw "offline")))
    (Env.listForRepo (Samples.env (Throw "offline")))
    (Env.listContributors (Samples.env (Throw "offline")))
    (fun _ _ _ => answer)
    (fun _ _ _ _ => Throw "offline")
    Samples.JSON_parse
    IsoDate.parse
    (Env.Date_now_toISOString (Samples.env (Throw "offline")))
    (Env.readFile (Samples.env (Throw "offline")))
    (Env.mustache_render (Samples.env (Throw "offline")))
    (Env.writeFile (Samples.env (Throw "offline"))).

(** Pull requests of a user whose login is the name of a method that every
    object has, and of users with a numeric login and with a plain one. *)
Definition pr_constructor : Issue.t :=
  Samples.mockIssue 601 "feat: C" "constructor" "urlC" "htmlC"
                    "2023-06-01T00:00:00Z" "Body for PR 601".

Definition pr_constructor2 : Issue.t :=
  Samples.mockIssue 602 "fix: C" "constructor" "urlC" "htmlC"
                    "2023-06-02T00:00:00Z" "Body for PR 602".

Definition pr_zed : Issue.t :=
  Samples.mockIssue 603 "feat: Z" "zed" "urlZed" "htmlZed"
                    "2023-06-03T00:00:00Z" "Body for PR 603".

Definition pr_42 : Issue.t :=
  Samples.mockIssue 604 "feat: N" "42" "url42" "html42"
                    "2023-06-04T00:00:00Z" "Body for PR 604".

(** The repository of [Samples.env] with the given contributors. *)
Definition env_with_contributors (contributors : list Contributor.t) : Env.t :=
  Env.mk
    (Env.listMilestones (Samples.env (Throw "offline")))
    (Env.listForRepo (Samples.env (Throw "offline")))
    (fun _ _ _ => Ok contributors)
    (Env.issues_get (Samples.env (Throw "offline")))
    (fun _ _ _ _ => Throw "offline")
    Samples.JSON_parse
    IsoDate.parse
    (Env.Date_now_toISOString (Samples.env (Throw "offline")))
    (Env.readFile (Samples.env (Throw "offline")))
    (Env.mustache_render (Samples.env (Throw "offline")))
    (Env.writeFile (Samples.env (Throw "offline"))).

(** A repository with the given milestones. *)
Definition env_with_milestones (milestones : list Milestone.t) : Env.t :=
  Env.mk
    (fun _ _ => Ok milestones)
    (Env.listForRepo (Samples.env (Throw "offline")))
    (Env.listContributors (Samples.env (Throw "offline")))
    (Env.issues_get (Samples.env (Throw "offline")))
    (fun _ _ _ _ => Throw "offline")
    Samples.JSON_parse
    IsoDate.parse
    (Env.Date_now_toISOString (Samples.env (Throw "offline")))
    (Env.readFile (Samples.env (Throw "offline")))
    (Env.mustache_render (Samples.env (Throw "offline")))
    (Env.writeFile (Samples.env (Throw "offline"))).

Definition three_milestones : list Milestone.t :=
  [Milestone.mk "1.0.0" 1; Milestone.mk "1.1.0" 2; Milestone.mk "2.0.0" 3].

(** A milestone whose only pull request refers to an issue the repository
    has not. *)
Definition dangling_pages (page : N) : outcome (list Issue.t) :=
  if (page =? 1)%N then Ok [pr_dangling] else Ok [].

End MoreSamples.

(** * Properties *)

(** ** Counting *)

Lemma num_add_swap (a b c : num) :
  num_add a (num_add b c) = num_add b (num_add a c).
Proof. destruct a, b, c; simpl; try done; f_equal; lia. Qed.

Lemma sum_counts_insert_fresh (m : gmap string num) (k : string) (v : num) :
  m !! k = None -> sum_counts (<[k := v]> m) = num_add v (sum_counts m).
Proof.
  intros Hk. unfold sum_counts.
  rewrite (map_fold_insert_L (fun _ v acc => num_add v acc) (Fin 0) k v m);
    auto.
  intros. apply num_add_swap.
Qed.

(** Replacing a finite count by the next one adds one to the sum. *)
Lemma sum_counts_next (m : gmap string num) (k : string) (z : Z) :
  m !! k = Some (Fin z) ->
  sum_counts (<[k := Fin (z + 1)]> m) = num_add (Fin 1) (sum_counts m).
Proof.
  intros Hk.
  rewrite <- (insert_delete_id m k (Fin z) Hk) at 2.
  rewrite <- (insert_delete_eq m k (Fin (z + 1))).
  rewrite !sum_counts_insert_fresh by apply lookup_delete_eq.
  destruct (sum_counts (delete k m)); simpl; try done. f_equal. lia.
Qed.

Lemma inherits_proto : Proto.inherits "__proto__" = true.
Proof. reflexivity. Qed.

(** The twelve names, and some names that the prototype has not. *)
Example inherits_names :
  map Proto.inherits
    ["constructor"; "__defineGetter__"; "__defineSetter__"; "hasOwnProperty";
     "__lookupGetter__"; "__lookupSetter__"; "isPrototypeOf";
     "propertyIsEnumerable"; "toString"; "valueOf"; "__proto__";
     "toLocaleString"]
  = [true; true; true; true; true; true; true; true; true; true; true; true]
  /\ map Proto.inherits
       ["newUser"; "Constructor"; "tostring"; "prototype"; "length"; "name";
        "proto"; ""]
     = [false; false; false; false; false; false; false; false]
  /\ length Proto.names = 12%nat.
Proof. repeat split. Qed.

(** Which keys are array indices. *)
Example array_index_keys :
  map Obj.array_index
    ["0"; "7"; "42"; "4294967294"; "4294967295"; "042"; "00"; "-1"; "1e3";
     "4 2"; ""; "zed"; "42a"]
  = [Some 0%N; Some 7%N; Some 42%N; Some 4294967294%N; None; None; None; None;
     None; None; None; None; None].
Proof. reflexivity. Qed.

Lemma assign_lookup {V : Type} (o : gmap string V) (k k' : string) (v : V) :
  assign o k v !! k'
  = if decide (k = k')
    then match o !! k with
         | Some _ => Some v
         | None => if String.eqb k "__proto__" then None else Some v
         end
    else o !! k'.
Proof.
  unfold assign. destruct (decide (k = k')) as [<-|Hne].
  - destruct (o !! k) eqn:Ho; [by rewrite lookup_insert_eq|].
    destruct (String.eqb k "__proto__"); [done|by rewrite lookup_insert_eq].
  - destruct (o !! k); [by rewrite lookup_insert_ne|].
    destruct (String.eqb k "__proto__"); [done|by rewrite lookup_insert_ne].
Qed.

(** Under a name that the prototype has not, writing is inserting. *)
Lemma assign_plain {V : Type} (o : gmap string V) (k : string) (v : V) :
  Proto.inherits k = false -> assign o k v = <[k := v]> o.
Proof.
  intros Hk. unfold assign. destruct (o !! k); [done|].
  destruct (String.eqb_spec k "__proto__") as [->|_]; [|done].
  by rewrite inherits_proto in Hk.
Qed.

(** An iteration changes the count of the author only. *)
Lemma count_issue_other (m : gmap string num) (issue : Issue.t) (k : string) :
  (forall u, Issue.user issue = Some u -> User.login u <> k) ->
  count_issue m issue !! k = m !! k.
Proof.
  intros Hk. unfold count_issue.
  destruct (Issue.pull_request issue); [|done].
  destruct (Issue.user issue) as [u|]; [|done]. simpl.
  specialize (Hk u eq_refl).
  destruct (Js.truthy (User.login u)); [|done].
  rewrite assign_lookup. destruct (decide (User.login u = k)); [done|].
  destruct (falsy _); [|done].
  rewrite assign_lookup. by destruct (decide (User.login u = k)).
Qed.

(** The effect of one iteration on the count of the author of a counted
    entry. *)
Lemma count_step_lookup (m : gmap string num) (a : string) (n : nat) :
  m !! a = stored_count a n ->
  assign (if falsy (read (m !! a) a) then assign m a (Fin 0) else m) a
    (incremented
       (read ((if falsy (read (m !! a) a) then assign m a (Fin 0) else m) !! a)
             a)) !! a
  = stored_count a (S n).
Proof.
  intros Hm. unfold stored_count in *.
  destruct (String.eqb_spec a "__proto__") as [->|Ha].
  - rewrite Hm. cbn [read]. rewrite inherits_proto. cbn [falsy].
    rewrite Hm. cbn [read]. rewrite inherits_proto. cbn [incremented].
    rewrite assign_lookup, Hm. by destruct (decide _).
  - assert (Hne : String.eqb a "__proto__" = false) by by apply String.eqb_neq.
    destruct (Proto.inherits a) eqn:Hi.
    + destruct n as [|[|n]]; rewrite Hm; cbn [read]; rewrite ?Hi; cbn [falsy].
      * rewrite Hm. cbn [read]. rewrite Hi. cbn [incremented].
        rewrite assign_lookup, Hm, Hne. by destruct (decide _).
      * rewrite !assign_lookup, Hm. by destruct (decide (a = a)).
      * replace (Z.of_nat (S n) =? 0) with false by (symmetry; apply Z.eqb_neq; lia).
        rewrite Hm. cbn [read incremented num_succ].
        rewrite assign_lookup, Hm. destruct (decide _); [|done].
        do 2 f_equal. lia.
    + destruct n as [|n]; rewrite Hm; cbn [read]; rewrite ?Hi; cbn [falsy].
      * rewrite !assign_lookup, Hm, Hne. by destruct (decide (a = a)).
      * replace (Z.of_nat (S n) =? 0) with false by (symmetry; apply Z.eqb_neq; lia).
        rewrite Hm. cbn [read incremented num_succ].
        rewrite assign_lookup, Hm. destruct (decide _); [|done].
        do 2 f_equal. lia.
Qed.

Lemma count_issue_counted (m : gmap string num) (issue : Issue.t)
    (p : PullRequestRef.t) (u : User.t) (n : nat) :
  Issue.pull_request issue = Some p -> Issue.user issue = Some u ->
  Js.truthy (User.login u) = true ->
  m !! User.login u = stored_count (User.login u) n ->
  count_issue m issue !! User.login u = stored_count (User.login u) (S n).
Proof.
  intros Hp Hu Ht Hm. unfold count_issue. rewrite Hp, Hu. simpl. rewrite Ht.
  by apply count_step_lookup.
Qed.

Lemma count_issue_skipped (m : gmap string num) (issue : Issue.t) :
  has_author issue = false -> count_issue m issue = m.
Proof.
  unfold has_author, count_issue.
  destruct (Issue.pull_request issue); [|done].
  destruct (Issue.user issue) as [u|]; simpl; [|done].
  intros ->. done.
Qed.

Lemma has_author_inv (issue : Issue.t) :
  has_author issue = true ->
  exists p u, Issue.pull_request issue = Some p /\ Issue.user issue = Some u
              /\ Js.truthy (User.login u) = true.
Proof.
  unfold has_author.
  destruct (Issue.pull_request issue) as [p|]; [|done].
  destruct (Issue.user issue) as [u|]; [|done].
  intros H. by exists p, u.
Qed.

Lemma getMilestonePRs_snoc (prs : list Issue.t) (issue : Issue.t) :
  getMilestonePRs (prs ++ [issue]) = count_issue (getMilestonePRs prs) issue.
Proof. unfold getMilestonePRs. by rewrite foldl_snoc. Qed.

Lemma filter_snoc {A : Type} (f : A -> bool) (l : list A) (x : A) :
  List.filter f (l ++ [x]) = List.filter f l ++ (if f x then [x] else []).
Proof. rewrite List.filter_app. simpl. by destruct (f x). Qed.

Lemma authored_by_has_author (username : string) (issue : Issue.t) :
  authored_by username issue = true -> has_author issue = true.
Proof.
  unfold authored_by, has_author.
  destruct (Issue.pull_request issue); [|done].
  destruct (Issue.user issue); [|done].
  by intros [? _]%andb_true_iff.
Qed.

(** What is stored for a username, for every list: the number of its
    counted entries, but for the names that the prototype has. *)
Lemma getMilestonePRs_stored (prs : list Issue.t) (username : string) :
  getMilestonePRs prs !! username
  = stored_count username (length (List.filter (authored_by username) prs)).
Proof.
  induction prs as [|issue prs IH] using rev_ind.
  - unfold getMilestonePRs, stored_count. simpl. rewrite lookup_empty.
    by destruct (String.eqb username "__proto__"), (Proto.inherits username).
  - rewrite getMilestonePRs_snoc, filter_snoc, length_app.
    destruct (has_author issue) eqn:Hc.
    + destruct (has_author_inv _ Hc) as (p & u & Hp & Hu & Ht).
      assert (authored_by username issue = String.eqb (User.login u) username)
        as -> by (unfold authored_by; rewrite Hp, Hu, Ht; done).
      destruct (String.eqb_spec (User.login u) username) as [<-|Hne].
      * simpl. rewrite Nat.add_1_r.
        by apply (count_issue_counted _ issue p u).
      * simpl. rewrite Nat.add_0_r, <- IH. apply count_issue_other.
        intros u' Hu'. congruence.
    + rewrite count_issue_skipped by done.
      destruct (authored_by username issue) eqn:Ha.
      * apply authored_by_has_author in Ha. congruence.
      * simpl. by rewrite Nat.add_0_r.
Qed.

Lemma getMilestonePRs_lookup (prs : list Issue.t) (username : string) :
  Forall (fun issue => plain_login issue = true) prs ->
  getMilestonePRs prs !! username = Fin <$> expected_count username prs.
Proof.
  intros Hplain. rewrite getMilestonePRs_stored. unfold expected_count.
  destruct (length (List.filter (authored_by username) prs)) as [|n] eqn:Hn.
  - unfold stored_count.
    by destruct (String.eqb username "__proto__"), (Proto.inherits username).
  - assert (Hi : Proto.inherits username = false).
    { destruct (List.filter (authored_by username) prs) as [|issue l] eqn:Hf;
        [done|].
      assert (Hin : In issue (List.filter (authored_by username) prs))
        by (rewrite Hf; by left).
      apply List.filter_In in Hin as [Hin Ha].
      rewrite List.Forall_forall in Hplain. specialize (Hplain issue Hin).
      unfold authored_by in Ha. unfold plain_login in Hplain.
      destruct (Issue.pull_request issue); [|done].
      destruct (Issue.user issue) as [u|]; [|done].
      apply andb_true_iff in Ha as [_ Ha]. apply String.eqb_eq in Ha.
      subst username. by apply negb_true_iff in Hplain. }
    unfold stored_count. rewrite Hi.
    destruct (String.eqb_spec username "__proto__") as [->|_]; [|done].
    by rewrite inherits_proto in Hi.
Qed.

Lemma getMilestonePRs_sum (prs : list Issue.t) :
  Forall (fun issue => plain_login issue = true) prs ->
  sum_counts (getMilestonePRs prs)
  = Fin (Z.of_nat (length (List.filter has_author prs))).
Proof.
  induction prs as [|issue prs IH] using rev_ind; intros Hplain.
  - unfold getMilestonePRs, sum_counts. simpl. by rewrite map_fold_empty.
  - apply Forall_app in Hplain as [Hprs Hissue].
    apply Forall_cons in Hissue as [Hissue _].
    specialize (IH Hprs).
    rewrite getMilestonePRs_snoc, filter_snoc, length_app.
    destruct (has_author issue) eqn:Hc.
    + destruct (has_author_inv _ Hc) as (p & u & Hp & Hu & Ht).
      assert (Hi : Proto.inherits (User.login u) = false).
      { unfold plain_login in Hissue. rewrite Hu in Hissue.
        by apply negb_true_iff in Hissue. }
      pose proof (getMilestonePRs_lookup prs (User.login u) Hprs) as Hl.
      unfold count_issue. rewrite Hp, Hu. simpl. rewrite Ht.
      unfold get_property, num_dictionary.
      rewrite !assign_plain by done. unfold expected_count in Hl.
      destruct (length (List.filter (authored_by (User.login u)) prs)) as [|n].
      * simpl in Hl. rewrite Hl. unfold read. rewrite Hi. simpl.
        rewrite lookup_insert_eq. simpl. rewrite insert_insert_eq.
        rewrite sum_counts_insert_fresh by done. rewrite IH. simpl.
        f_equal. lia.
      * simpl in Hl. rewrite Hl. unfold read. simpl.
        rewrite Hl. simpl.
        replace (Z.pos (Pos.of_succ_nat n) + 1) with (Z.of_nat (S n) + 1)
          by lia.
        rewrite (sum_counts_next _ _ (Z.of_nat (S n))) by done.
        rewrite IH. simpl. f_equal. lia.
    + rewrite count_issue_skipped by done. rewrite IH. simpl.
      by rewrite Nat.add_0_r.
Qed.

(** C8. On lists in which no author has a login that is the name of a
    property of [Object.prototype], the counts returned by
    [getMilestonePRs] sum to the number of entries that carry a
    pull-request marker and have a defined author; each username is mapped
    to the number of such entries it authored, and a username without such
    an entry has no count at all (so no count is zero).  On every list, what
    is stored for a username is given by [stored_count]: under the login
    [constructor], one pull request is counted as NaN, not as 1, and two
    pull requests are counted as 1. *)
Theorem getMilestonePRs_counts :
  (forall prs : list Issue.t,
     Forall (fun issue => plain_login issue = true) prs ->
     sum_counts (getMilestonePRs prs)
     = Fin (Z.of_nat (length (List.filter has_author prs)))
     /\ (forall username : string,
           getMilestonePRs prs !! username
           = Fin <$> expected_count username prs)
     /\ (forall username : string,
           getMilestonePRs prs !! username <> Some (Fin 0)))
  /\ (forall (prs : list Issue.t) (username : string),
        getMilestonePRs prs !! username
        = stored_count username
            (length (List.filter (authored_by username) prs)))
  /\ getMilestonePRs [MoreSamples.pr_constructor] !! "constructor" = Some NaN
  /\ expected_count "constructor" [MoreSamples.pr_constructor] = Some 1
  /\ sum_counts (getMilestonePRs [MoreSamples.pr_constructor]) = NaN
  /\ length (List.filter has_author [MoreSamples.pr_constructor]) = 1%nat
  /\ getMilestonePRs [MoreSamples.pr_constructor; MoreSamples.pr_constructor2]
       !! "constructor" = Some (Fin 1)
  /\ expected_count "constructor"
       [MoreSamples.pr_constructor; MoreSamples.pr_constructor2] = Some 2.
Proof.
  split.
  { intros prs Hplain. split; [by apply getMilestonePRs_sum|].
    split; [intros; by apply getMilestonePRs_lookup|].
    intros username. rewrite getMilestonePRs_lookup by done.
    unfold expected_count.
    destruct (length (List.filter (authored_by username) prs)); [done|].
    intros H. injection H as H. lia. }
  split; [apply getMilestonePRs_stored|].
  repeat split; vm_compute; reflexivity.
Qed.

(** ** First-time contributors: the test on the counts *)

(** C2. [isNewContributor] answers true exactly when the milestone count
    of the username equals its lifetime count and both are greater than
    zero, a missing entry counting as zero; so it answers false for a
    username that is missing from either map. *)
Theorem isNewContributor_iff :
  forall (username : string) (contributorsMap milestoneCommits : gmap string Z),
    (isNewContributor username contributorsMap milestoneCommits = true
     <-> (default 0 (milestoneCommits !! username)
          = default 0 (contributorsMap !! username)
          /\ 0 < default 0 (contributorsMap !! username)
          /\ 0 < default 0 (milestoneCommits !! username)))
    /\ isNewContributor username (delete username contributorsMap)
         milestoneCommits = false
    /\ isNewContributor username contributorsMap
         (delete username milestoneCommits) = false.
Proof.
  intros username cm mm.
  assert (Hiff : forall (a b : option Z),
            strict_equal (or_zero (read (Fin <$> a) username))
                         (or_zero (read (Fin <$> b) username))
            && greater_than_zero (or_zero (read (Fin <$> a) username)) = true
            <-> default 0 b = default 0 a
                /\ 0 < default 0 a /\ 0 < default 0 b).
  { intros [a|] [b|]; unfold read; destruct (Proto.inherits username); simpl;
      rewrite ?andb_true_iff, ?Z.eqb_eq, ?Z.ltb_lt, ?andb_false_r;
      try lia; split; try lia; try done; intros [? ?]; try done; lia. }
  unfold isNewContributor, get_property, count_dictionary.
  split; [apply Hiff|].
  split.
  - rewrite lookup_delete_eq. apply not_true_is_false. rewrite Hiff. simpl. lia.
  - rewrite lookup_delete_eq. apply not_true_is_false. rewrite Hiff. simpl. lia.
Qed.

(** ** The order of the rendered changelog *)

Section StableInsertion.
Context {A : Type} (cmp : A -> A -> num).

Lemma insert_stable_front (x : A) (l : list A) :
  Forall (fun y => is_greater cmp x y = false) l ->
  insert_stable cmp x l = x :: l.
Proof.
  intros H. destruct H as [|y l Hy _]; [done|]. simpl. by rewrite Hy.
Qed.

Lemma insert_stable_skip (x : A) (l1 l2 : list A) :
  Forall (fun y => is_greater cmp x y = true) l1 ->
  insert_stable cmp x (l1 ++ l2) = l1 ++ insert_stable cmp x l2.
Proof.
  induction 1 as [|y l1 Hy _ IH]; [done|].
  simpl. rewrite Hy. by rewrite IH.
Qed.

End StableInsertion.

Lemma priority_bucket (c : PRCategory.t) :
  priority c = match bucket c with
               | 0%nat => Fin 0
               | 1%nat => Fin 1
               | 2%nat => Fin 2
               | _ => PosInf
               end.
Proof.
  unfold priority, bucket, named, indexOf, priorityOrder. cbn [indexOf_from].
  rewrite !(String.eqb_sym _ (PRCategory.category c)).
  destruct (String.eqb (PRCategory.category c) "feat"); [done|].
  destruct (String.eqb (PRCategory.category c) "fix"); [done|].
  destruct (String.eqb (PRCategory.category c) "chore"); done.
Qed.

Lemma bucket_bound (c : PRCategory.t) : (bucket c <= 3)%nat.
Proof.
  unfold bucket. repeat (case (named _ c); [lia|]). lia.
Qed.

Lemma is_greater_bucket (x y : PRCategory.t) :
  is_greater compareFn x y = (bucket y <? bucket x)%nat.
Proof.
  unfold is_greater, compareFn. rewrite !priority_bucket.
  pose proof (bucket_bound x). pose proof (bucket_bound y).
  destruct (bucket x) as [|[|[|[|?]]]]; destruct (bucket y) as [|[|[|[|?]]]];
    try lia; reflexivity.
Qed.

Lemma in_bucket_named (c : PRCategory.t) :
  in_bucket 0 c = named "feat" c
  /\ in_bucket 1 c = named "fix" c
  /\ in_bucket 2 c = named "chore" c
  /\ in_bucket 3 c = unranked c.
Proof.
  unfold in_bucket, bucket, unranked, named.
  destruct (String.eqb_spec (PRCategory.category c) "feat") as [H|_];
    [rewrite H; by repeat split|].
  destruct (String.eqb_spec (PRCategory.category c) "fix") as [H|_];
    [rewrite H; by repeat split|].
  destruct (String.eqb (PRCategory.category c) "chore"); by repeat split.
Qed.

Lemma filter_ext_bool {A : Type} (f g : A -> bool) (l : list A) :
  (forall x, f x = g x) -> List.filter f l = List.filter g l.
Proof. intros H. apply List.filter_ext. exact H. Qed.

Lemma Forall_filter_bucket (P : PRCategory.t -> Prop) (k : nat)
    (l : list PRCategory.t) :
  (forall c, bucket c = k -> P c) -> Forall P (List.filter (in_bucket k) l).
Proof.
  intros H. apply Forall_forall. intros c Hc.
  apply list_elem_of_In, List.filter_In in Hc as [_ Hc].
  apply H. by apply Nat.eqb_eq.
Qed.

Lemma toSorted_buckets (l : list PRCategory.t) :
  toSorted compareFn l
  = List.filter (in_bucket 0) l ++ List.filter (in_bucket 1) l
    ++ List.filter (in_bucket 2) l ++ List.filter (in_bucket 3) l.
Proof.
  induction l as [|x l IH]; [done|].
  cbn [toSorted List.filter]. rewrite IH. clear IH.
  assert (Hlow : forall k, (k < bucket x)%nat ->
            Forall (fun y => is_greater compareFn x y = true)
                   (List.filter (in_bucket k) l)).
  { intros k Hk. apply Forall_filter_bucket. intros c Hc.
    rewrite is_greater_bucket. apply Nat.ltb_lt. lia. }
  assert (Hhigh : forall k, (bucket x <= k)%nat ->
            Forall (fun y => is_greater compareFn x y = false)
                   (List.filter (in_bucket k) l)).
  { intros k Hk. apply Forall_filter_bucket. intros c Hc.
    rewrite is_greater_bucket. apply Nat.ltb_ge. lia. }
  pose proof (bucket_bound x) as Hb.
  assert (Hk : forall k, in_bucket k x = (bucket x =? k)%nat) by reflexivity.
  rewrite !Hk. clear Hk.
  destruct (bucket x) as [|[|[|[|?]]]] eqn:Hx; try lia; simpl.
  - apply insert_stable_front. repeat apply Forall_app_2; apply Hhigh; lia.
  - rewrite insert_stable_skip by (apply Hlow; lia). f_equal.
    apply insert_stable_front. repeat apply Forall_app_2; apply Hhigh; lia.
  - rewrite insert_stable_skip by (apply Hlow; lia). f_equal.
    rewrite insert_stable_skip by (apply Hlow; lia). f_equal.
    apply insert_stable_front. repeat apply Forall_app_2; apply Hhigh; lia.
  - rewrite insert_stable_skip by (apply Hlow; lia). f_equal.
    rewrite insert_stable_skip by (apply Hlow; lia). f_equal.
    rewrite insert_stable_skip by (apply Hlow; lia). f_equal.
    apply insert_stable_front. apply Hhigh; lia.
Qed.

(** C7. The sort of [generateMD] puts the categories named "feat" first,
    then "fix", then "chore", and after them every other category, each
    group in the relative order it has in the input changelog. *)
Theorem sortedChangelog_order :
  forall changelog : list PRCategory.t,
    sortedChangelog changelog = rendering_order changelog.
Proof.
  intros l. unfold sortedChangelog, rendering_order.
  rewrite toSorted_buckets.
  rewrite (filter_ext_bool (in_bucket 0) (named "feat")),
    (filter_ext_bool (in_bucket 1) (named "fix")),
    (filter_ext_bool (in_bucket 2) (named "chore")),
    (filter_ext_bool (in_bucket 3) unranked);
    [reflexivity|intros c; apply in_bucket_named..].
Qed.

(** ** The selection for the highlights *)

(** C9. The predicate that selects the pull requests for the highlights
    (a conditional that gives true or null, coalesced with the test for
    "chore") is the plain disjunction: an issue is selected exactly when it
    has a pull-request marker and its title starts with "feat" or with
    "chore". *)
Theorem is_feature_feat_or_chore :
  forall issue : Issue.t,
    is_feature issue = feat_or_chore issue
    /\ (is_feature issue = true
        <-> (Issue.pull_request issue <> None
             /\ (Js.startsWith (Issue.title issue) "feat" = true
                 \/ Js.startsWith (Issue.title issue) "chore" = true))).
Proof.
  intros issue. unfold is_feature, feat_or_chore, true_or_null, coalesce.
  destruct (Issue.pull_request issue) as [p|].
  - destruct (Js.startsWith (Issue.title issue) "feat");
      destruct (Js.startsWith (Issue.title issue) "chore"); simpl;
      (split; [reflexivity|split; [intros H; split; [discriminate|auto]|]]);
      try reflexivity; intros [_ [H|H]]; discriminate.
  - split; [reflexivity|]. split; [discriminate|]. intros [H _]. by destruct H.
Qed.

(** ** The matcher *)

Module ReFacts.
Import Re.

Lemma run_lit (ignoreCase : bool) (w : string) :
  forall (st : mstate) (k : cont),
    run ignoreCase (lit w) st k
    = if looking_at ignoreCase w (rest st)
      then k (mkst (pos st + String.length w)
                   (Js.drop (String.length w) (rest st)) (cap1 st))
      else None.
Proof.
  induction w as [|c w IH]; intros [i s g] k; simpl.
  - by rewrite Nat.add_0_r.
  - destruct s as [|a s]; [done|].
    destruct (Ascii.eqb _ _); [|done]. simpl.
    rewrite IH. simpl. by rewrite Nat.add_succ_r.
Qed.

Lemma run_Cat (ignoreCase : bool) (r1 r2 : regex) (st : mstate) (k : cont) :
  run ignoreCase (Cat r1 r2) st k
  = run ignoreCase r1 st (fun st1 => run ignoreCase r2 st1 k).
Proof. reflexivity. Qed.

Lemma run_Bol_start (ignoreCase : bool) (s : string) (g : option string)
    (k : cont) :
  run ignoreCase Bol (mkst 0 s g) k = k (mkst 0 s g).
Proof. reflexivity. Qed.

Lemma run_Star (ignoreCase : bool) (p : ascii -> bool) (st : mstate) (k : cont) :
  run ignoreCase (Star p) st k = star p (pos st) (rest st) (cap1 st) k.
Proof. reflexivity. Qed.

(** When the continuation accepts every state, [p*] takes the whole run. *)
Lemma star_total (p : ascii -> bool) (k : cont) :
  (forall st, k st <> None) ->
  forall (s : string) (i : nat) (g : option string),
    star p i s g k = k (mkst (i + span p s) (Js.drop (span p s) s) g).
Proof.
  intros Hk. induction s as [|a s IH]; intros i g; simpl.
  - by rewrite Nat.add_0_r.
  - destruct (p a); simpl.
    + rewrite IH. rewrite Nat.add_succ_r.
      destruct (k _) eqn:Hr; [done|]. by apply Hk in Hr.
    + by rewrite Nat.add_0_r.
Qed.

(** When the continuation rejects every state whose input starts with a
    character of the class, giving characters back is of no use: the result
    is that of the whole run. *)
Lemma star_all (p : ascii -> bool) (k : cont) :
  (forall i a s g, p a = true -> k (mkst i (String a s) g) = None) ->
  forall (s : string) (i : nat) (g : option string),
    star p i s g k = k (mkst (i + span p s) (Js.drop (span p s) s) g).
Proof.
  intros Hk. induction s as [|a s IH]; intros i g; simpl.
  - by rewrite Nat.add_0_r.
  - destruct (p a) eqn:Hp; simpl.
    + rewrite IH. rewrite Nat.add_succ_r.
      destruct (k _) eqn:Hr; [done|]. by rewrite Hk.
    + by rewrite Nat.add_0_r.
Qed.

(** A pattern that starts with [^] matches at index 0 or not at all. *)
Lemma search_anchored (ignoreCase : bool) (r : regex) (s : string) :
  String_match s ignoreCase (Cat Bol r) = exec_at ignoreCase (Cat Bol r) 0 s.
Proof.
  unfold String_match.
  assert (H : forall s i, search ignoreCase (Cat Bol r) (S i) s = None).
  { clear s. induction s as [|a s IH]; intros i; simpl; unfold exec_at; simpl; auto. }
  destruct s as [|a s]; simpl.
  - by destruct (exec_at _ _ _ _).
  - destruct (exec_at _ _ _ _); [done|]. apply H.
Qed.

(** *** Characters *)

Lemma forall_ascii (f : ascii -> bool) :
  forallb f Js.all_ascii = true -> forall a, f a = true.
Proof.
  intros H a. rewrite forallb_forall in H. apply H.
  rewrite <- (ascii_nat_embedding a). unfold Js.all_ascii.
  apply in_map, in_seq. pose proof (nat_ascii_bounded a). lia.
Qed.

(** Against an ASCII pattern character, comparing under [Canonicalize]
    is comparing the lower-case forms. *)
Lemma canonicalize_lower (a c : ascii) :
  (Js.code c <? 128)%N = true ->
  Ascii.eqb (Js.canonicalize true a) (Js.canonicalize true c)
  = Ascii.eqb (Js.lower_char a) (Js.lower_char c).
Proof.
  intros Hc.
  pose (f := fun c a =>
    implb (Js.code c <? 128)%N
      (Bool.eqb (Ascii.eqb (Js.canonicalize true a) (Js.canonicalize true c))
                (Ascii.eqb (Js.lower_char a) (Js.lower_char c)))).
  assert (H : forall c a, f c a = true).
  { intros c'. apply forall_ascii. revert c'. apply forall_ascii.
    vm_compute. reflexivity. }
  specialize (H c a). unfold f in H. rewrite Hc in H. simpl in H.
  by apply Bool.eqb_prop.
Qed.

Lemma canonicalize_exact (c : ascii) : Js.canonicalize false c = c.
Proof. reflexivity. Qed.

(** White space is not changed by lower-casing and is no ASCII letter. *)
Lemma space_lower (a : ascii) :
  Js.is_space a = true ->
  Js.is_ascii_lower (Js.lower_char a) = false /\ Js.lower_char a = a
  /\ Js.is_digit a = false /\ a <> "#"%char /\ a <> "("%char.
Proof.
  pose (f := fun a =>
    implb (Js.is_space a)
      (negb (Js.is_ascii_lower (Js.lower_char a))
       && Ascii.eqb (Js.lower_char a) a
       && negb (Js.is_digit a)
       && negb (Ascii.eqb a "#") && negb (Ascii.eqb a "("))).
  assert (H : forall a, f a = true).
  { apply forall_ascii. vm_compute. reflexivity. }
  intros Hs. specialize (H a). unfold f in H. rewrite Hs in H. simpl in H.
  apply andb_true_iff in H as [H H5]. apply andb_true_iff in H as [H H4].
  apply andb_true_iff in H as [H H3]. apply andb_true_iff in H as [H1 H2].
  apply negb_true_iff in H1, H3, H4, H5.
  apply Ascii.eqb_eq in H2. apply Ascii.eqb_neq in H4, H5. done.
Qed.

Lemma toLowerCase_length (s : string) :
  String.length (Js.toLowerCase s) = String.length s.
Proof. induction s; simpl; congruence. Qed.

Lemma toLowerCase_take (n : nat) (s : string) :
  Js.toLowerCase (Js.take n s) = Js.take n (Js.toLowerCase s).
Proof.
  revert s. induction n as [|n IH]; intros [|a s]; simpl; try done.
  by rewrite IH.
Qed.

Lemma startsWith_take (s w : string) :
  Js.startsWith s w = true -> Js.take (String.length w) s = w.
Proof.
  revert s. induction w as [|c w IH]; intros [|a s]; simpl; try done.
  intros [Ha Hs]%andb_true_iff. apply Ascii.eqb_eq in Ha. subst a.
  by rewrite IH.
Qed.

Lemma looking_at_ci (w : string) :
  Js.ascii_word w = true ->
  forall s, looking_at true w s
            = Js.startsWith (Js.toLowerCase s) (Js.toLowerCase w).
Proof.
  induction w as [|c w IH]; simpl; [done|].
  intros [Hc Hw]%andb_true_iff [|a s]; simpl; [done|].
  by rewrite canonicalize_lower, IH.
Qed.

Lemma looking_at_exact (w s : string) :
  looking_at false w s = Js.startsWith s w.
Proof.
  revert s. induction w as [|c w IH]; intros [|a s]; simpl; try done.
  by rewrite IH.
Qed.

Lemma drop_span_spaces (s : string) :
  Js.drop (span Js.is_space s) s = skip_spaces s.
Proof.
  induction s as [|a s IH]; simpl; [done|].
  destruct (Js.is_space a); simpl; done.
Qed.

End ReFacts.

(** ** The categorizer *)

Module TitleFacts.
Import Re ReFacts.

(** The capturing group of [title_re], at any state: the first prefix of
    the pattern that the input begins with. *)
Lemma run_prefix_group (st : mstate) :
  run true (Grp prefix_alternatives) st Some
  = match List.find (begins_ci (rest st)) prefixes with
    | Some kw =>
        Some (mkst (pos st + String.length kw)
                   (Js.drop (String.length kw) (rest st))
                   (Some (Js.take (String.length kw) (rest st))))
    | None => None
    end.
Proof.
  unfold prefix_alternatives, prefixes. cbn [run List.find].
  rewrite !run_lit. rewrite !looking_at_ci by reflexivity.
  unfold begins_ci. cbn [pos rest cap1].
  repeat match goal with
  | |- context [Js.toLowerCase (String ?c ?w)] =>
      let v := eval vm_compute in (Js.toLowerCase (String c w)) in
      change (Js.toLowerCase (String c w)) with v
  end.
  repeat match goal with
  | |- context [Js.startsWith (Js.toLowerCase (rest st)) ?w] =>
      destruct (Js.startsWith (Js.toLowerCase (rest st)) w);
      [by rewrite Nat.add_sub'|]
  end.
  done.
Qed.

Lemma begins_ci_space (a : ascii) (s kw : string) :
  Js.is_space a = true -> In kw prefixes -> begins_ci (String a s) kw = false.
Proof.
  intros Ha Hkw. destruct (space_lower a Ha) as (Hl & _).
  unfold begins_ci. simpl.
  assert (H : forall c w, Js.is_ascii_lower c = true ->
            Js.startsWith (String (Js.lower_char a) (Js.toLowerCase s))
                          (String c w) = false).
  { intros c w Hc. simpl. destruct (Ascii.eqb_spec (Js.lower_char a) c) as [E|]; [|done].
    rewrite E in Hl. congruence. }
  unfold prefixes in Hkw. simpl in Hkw.
  repeat (destruct Hkw as [<-|Hkw]; [by apply H|]). done.
Qed.

Lemma find_prefix_space (a : ascii) (s : string) :
  Js.is_space a = true -> List.find (begins_ci (String a s)) prefixes = None.
Proof.
  intros Ha. destruct (List.find _ _) as [kw|] eqn:Hf; [|done].
  apply List.find_some in Hf as [Hin Hb].
  by rewrite begins_ci_space in Hb.
Qed.

(** What [title.match(title_re)] gives. *)
Lemma title_match (s : string) :
  String_match s true title_re
  = match List.find (begins_ci (skip_spaces s)) prefixes with
    | Some kw =>
        Some (mkres 0 (Js.take (span Js.is_space s + String.length kw) s)
                    (Some (Js.take (String.length kw) (skip_spaces s))))
    | None => None
    end.
Proof.
  unfold title_re. rewrite search_anchored. unfold exec_at.
  rewrite run_Cat, run_Bol_start, run_Cat, run_Star. cbn [pos rest cap1].
  rewrite star_all.
  - rewrite run_prefix_group. cbn [pos rest cap1]. rewrite drop_span_spaces.
    destruct (List.find _ _); [|done]. cbn [pos cap1].
    by rewrite Nat.sub_0_r.
  - intros i a s' g Ha. rewrite run_prefix_group. cbn [rest].
    by rewrite find_prefix_space.
Qed.

(** [title.match(/\(test/i)] finds something exactly when the title
    contains "(test", letter case ignored. *)
Lemma search_lit_ci (w s : string) (i : nat) :
  Js.ascii_word w = true ->
  is_Some (search true (lit w) i s) <-> contains_ci s (Js.toLowerCase w) = true.
Proof.
  intros Hw. revert i. induction s as [|a s IH]; intros i.
  - simpl. unfold exec_at. rewrite run_lit, looking_at_ci by done.
    cbn [rest]. unfold begins_ci. rewrite orb_false_r.
    destruct (Js.startsWith _ _); [split; eauto|].
    split; [by intros [? ?]|done].
  - cbn [search contains_ci]. unfold exec_at at 1.
    rewrite run_lit, looking_at_ci by done. cbn [rest]. unfold begins_ci at 1.
    destruct (Js.startsWith _ _); [split; eauto|].
    rewrite orb_false_l. apply IH.
Qed.

Lemma test_scope_match (s : string) :
  match String_match s true test_scope_re with
  | Some _ => true
  | None => false
  end = contains_ci s "(test".
Proof.
  pose proof (search_lit_ci "(test" s 0 eq_refl) as H.
  unfold String_match, test_scope_re.
  change (Js.toLowerCase "(test") with "(test" in H.
  destruct (search true (lit "(test") 0 s) eqn:Hs.
  - symmetry. apply H. eauto.
  - destruct (contains_ci s "(test") eqn:Hc; [|done].
    destruct H as [_ H]. destruct (H eq_refl) as [? ?]. done.
Qed.

Lemma prefix_lower (s kw : string) :
  begins_ci s kw = true ->
  Js.toLowerCase (Js.take (String.length kw) s) = kw.
Proof.
  intros H. rewrite toLowerCase_take. by apply startsWith_take.
Qed.

(** The category as a function of the author and the title. *)
Lemma categorize_eq (pr : Issue.t) :
  categorize pr
  = match Issue.user pr, List.find (begins_ci (skip_spaces (Issue.title pr))) prefixes with
    | Some _, Some kw =>
        Some (if contains_ci (Issue.title pr) "(test" then "test" else kw)
    | _, _ => None
    end.
Proof.
  unfold categorize. rewrite title_match.
  destruct (List.find _ _) as [kw|] eqn:Hf; [|by destruct (Issue.user pr)].
  cbn [m1]. destruct (Issue.user pr); [|done].
  rewrite <- test_scope_match.
  apply List.find_some in Hf as [_ Hb]. rewrite (prefix_lower _ _ Hb).
  by destruct (String_match _ _ _).
Qed.

End TitleFacts.

(** C4. A pull request is given a category exactly when it has an author
    and its title, after leading white space, begins with one of the
    prefixes chore, feat, docs, fix, refactor, test, ci, letter case
    ignored; otherwise it is left out of the changelog.  The category is
    "test" whenever the title contains "(test" (letter case ignored), and
    the matched prefix in lower case otherwise; the title
    "chore(tests): fix flaky suite" is filed under "test". *)
Theorem categorize_by_prefix :
  forall pr : Issue.t,
    ((exists category, categorize pr = Some category)
     <-> (Issue.user pr <> None
          /\ exists kw, In kw prefixes
               /\ begins_ci (skip_spaces (Issue.title pr)) kw = true))
    /\ (forall category, categorize pr = Some category ->
          if contains_ci (Issue.title pr) "(test" then category = "test"
          else In category prefixes
               /\ begins_ci (skip_spaces (Issue.title pr)) category = true)
    /\ (forall (u : User.t) (n : Z) (link created : string)
               (b : option string) (p : option PullRequestRef.t),
          categorize (Issue.mk "chore(tests): fix flaky suite" (Some u) n link
                               created b p) = Some "test").
Proof.
  intros pr. rewrite TitleFacts.categorize_eq.
  split; [|split].
  - split.
    + intros [c Hc]. destruct (Issue.user pr); [|done].
      destruct (List.find _ _) as [kw|] eqn:Hf; [|done].
      apply List.find_some in Hf. split; [done|]. by exists kw.
    + intros [Hu (kw & Hin & Hb)]. destruct (Issue.user pr); [|done].
      destruct (List.find _ _) as [kw'|] eqn:Hf; [eauto|].
      eapply List.find_none in Hf; [|exact Hin]. simpl in Hf. congruence.
  - intros c Hc. destruct (Issue.user pr); [|done].
    destruct (List.find _ _) as [kw|] eqn:Hf; [|done].
    apply List.find_some in Hf.
    destruct (contains_ci (Issue.title pr) "(test"); congruence.
  - intros. rewrite TitleFacts.categorize_eq. reflexivity.
Qed.

(** ** Letter case in the categorizer and in the selection *)

Module CaseFacts.
Import Re ReFacts.

Lemma toLowerCase_app (a b : string) :
  Js.toLowerCase (a +:+ b) = Js.toLowerCase a +:+ Js.toLowerCase b.
Proof. induction a as [|c a IH]; simpl; [done|]. by rewrite IH. Qed.

Lemma startsWith_app (w r : string) : Js.startsWith (w +:+ r) w = true.
Proof.
  induction w as [|c w IH]; simpl; [done|]. by rewrite Ascii.eqb_refl, IH.
Qed.

Lemma startsWith_lower (s w : string) :
  Js.startsWith s w = true ->
  Js.startsWith (Js.toLowerCase s) (Js.toLowerCase w) = true.
Proof.
  revert s. induction w as [|c w IH]; intros [|a s]; simpl; try done.
  intros [Ha Hs]%andb_true_iff. apply Ascii.eqb_eq in Ha. subst a.
  by rewrite Ascii.eqb_refl, IH.
Qed.

Lemma take_app_length (p r : string) : Js.take (String.length p) (p +:+ r) = p.
Proof. induction p as [|c p IH]; simpl; [by destruct r|]. by rewrite IH. Qed.

(** A title that begins with a variant does not begin with the word
    itself. *)
Lemma variant_not_exact (kw p r : string) :
  case_variant kw p -> Js.startsWith (p +:+ r) kw = false.
Proof.
  intros [Hl Hne]. destruct (Js.startsWith (p +:+ r) kw) eqn:Hs; [|done].
  apply startsWith_take in Hs.
  rewrite <- Hl, toLowerCase_length, take_app_length in Hs.
  rewrite Hl in Hs. done.
Qed.

Lemma variant_begins (kw p r : string) :
  Js.toLowerCase p = kw -> begins_ci (p +:+ r) kw = true.
Proof.
  intros <-. unfold begins_ci. rewrite toLowerCase_app. apply startsWith_app.
Qed.

(** A title that begins with a letter has no leading white space. *)
Lemma skip_spaces_letter (a : ascii) (s : string) :
  Js.is_ascii_lower (Js.lower_char a) = true ->
  skip_spaces (String a s) = String a s.
Proof.
  intros Ha. simpl. destruct (Js.is_space a) eqn:Hs; [|done].
  apply space_lower in Hs as [Hs _]. congruence.
Qed.

Lemma variant_no_space (kw p r : string) :
  kw = "feat" \/ kw = "chore" -> Js.toLowerCase p = kw ->
  skip_spaces (p +:+ r) = p +:+ r.
Proof.
  intros Hkw Hl. destruct p as [|a p].
  - simpl in Hl. destruct Hkw; congruence.
  - simpl. apply skip_spaces_letter.
    simpl in Hl. destruct Hkw; subst kw; injection Hl as -> _; reflexivity.
Qed.

(** The prefix found in a title that begins with a variant of "feat" or
    "chore". *)
Lemma variant_prefix (kw p r : string) :
  kw = "feat" \/ kw = "chore" -> Js.toLowerCase p = kw ->
  List.find (begins_ci (p +:+ r)) prefixes = Some kw.
Proof.
  intros Hkw Hl. unfold prefixes, begins_ci. rewrite toLowerCase_app, Hl.
  destruct Hkw; subst kw; reflexivity.
Qed.

(** Such a title begins neither with "feat" nor with "chore". *)
Lemma variant_not_selected (kw p r : string) :
  kw = "feat" \/ kw = "chore" -> case_variant kw p ->
  Js.startsWith (p +:+ r) "feat" = false
  /\ Js.startsWith (p +:+ r) "chore" = false.
Proof.
  intros Hkw Hv.
  assert (Hother : forall w, Js.startsWith (kw +:+ Js.toLowerCase r) w = false ->
            Js.toLowerCase w = w -> Js.startsWith (p +:+ r) w = false).
  { intros w Hw Hlw. destruct (Js.startsWith (p +:+ r) w) eqn:Hs; [|done].
    apply startsWith_lower in Hs.
    rewrite toLowerCase_app, (proj1 Hv), Hlw in Hs. congruence. }
  destruct Hkw; subst kw; split;
    try (by apply variant_not_exact); by apply Hother.
Qed.

End CaseFacts.

(** C10, as the code has it.  A pull request with an author whose title
    begins with an upper- or mixed-case variant of "feat" or "chore" is
    put in the changelog, under "test" when its title contains "(test"
    (letter case ignored) and under the lower-case prefix otherwise, and
    it is not selected for the highlights, before or after its body is
    trimmed. *)
Theorem case_disagreement :
  forall (pr : Issue.t) (kw p r : string),
    Issue.user pr <> None ->
    kw = "feat" \/ kw = "chore" ->
    case_variant kw p ->
    Issue.title pr = p +:+ r ->
    categorize pr
    = Some (if contains_ci (Issue.title pr) "(test" then "test" else kw)
    /\ is_feature pr = false
    /\ is_feature (strip_screenshot pr) = false.
Proof.
  intros pr kw p r Hu Hkw Hv Ht.
  destruct (CaseFacts.variant_not_selected kw p r Hkw Hv) as [Hf Hc].
  split; [|split].
  - rewrite TitleFacts.categorize_eq. destruct (Issue.user pr); [|done].
    rewrite Ht, (CaseFacts.variant_no_space kw p r Hkw (proj1 Hv)).
    by rewrite (CaseFacts.variant_prefix kw p r Hkw (proj1 Hv)).
  - unfold is_feature. rewrite Ht, Hf, Hc. by destruct (Issue.pull_request pr).
  - unfold is_feature.
    change (Issue.title (strip_screenshot pr)) with (Issue.title pr).
    change (Issue.pull_request (strip_screenshot pr))
      with (Issue.pull_request pr).
    rewrite Ht, Hf, Hc. by destruct (Issue.pull_request pr).
Qed.

(** The title "Feat: x": filed under "feat", not selected. *)
Lemma case_disagreement_witness :
  (Issue.user Samples.pr_Feat <> None
   /\ case_variant "feat" "Feat"
   /\ Issue.title Samples.pr_Feat = "Feat" +:+ ": x")
  /\ categorize Samples.pr_Feat = Some "feat"
  /\ is_feature Samples.pr_Feat = false
  /\ is_feature (strip_screenshot Samples.pr_Feat) = false.
Proof.
  assert (H : Issue.user Samples.pr_Feat <> None
              /\ case_variant "feat" "Feat"
              /\ Issue.title Samples.pr_Feat = "Feat" +:+ ": x").
  { split; [discriminate|]. split; [|reflexivity].
    split; [reflexivity|discriminate]. }
  split; [exact H|].
  destruct H as (Hu & Hv & Ht).
  exact (case_disagreement Samples.pr_Feat "feat" "Feat" ": x" Hu
           (or_introl eq_refl) Hv Ht).
Defined.

(** C10 as stated does not hold: the title "Feat(test): x" begins with a
    variant of "feat", yet the pull request is filed under "test", not under
    "feat". *)
Lemma case_disagreement_counterexample :
  Issue.user Samples.pr_Feat_test <> None
  /\ case_variant "feat" "Feat"
  /\ Issue.title Samples.pr_Feat_test = "Feat" +:+ "(test): x"
  /\ categorize Samples.pr_Feat_test = Some "test"
  /\ ~ (categorize Samples.pr_Feat_test = Some "feat"
        /\ is_feature Samples.pr_Feat_test = false).
Proof.
  split; [discriminate|]. split; [split; [reflexivity|discriminate]|].
  split; [reflexivity|]. split; [reflexivity|].
  intros [H _]. vm_compute in H. discriminate.
Qed.

(** ** References to issues *)

Module ReferenceFacts.
Import Re ReFacts.

Lemma hash_canonical (a : ascii) :
  Ascii.eqb (Js.canonicalize true a) (Js.canonicalize true "#")
  = Ascii.eqb a "#"
  /\ (Js.lower_char a = "#"%char -> a = "#"%char)
  /\ (Js.is_digit a = true -> a <> "#"%char).
Proof.
  pose (f := fun a =>
    Bool.eqb (Ascii.eqb (Js.canonicalize true a) (Js.canonicalize true "#"))
             (Ascii.eqb a "#")
    && implb (Ascii.eqb (Js.lower_char a) "#") (Ascii.eqb a "#")
    && implb (Js.is_digit a) (negb (Ascii.eqb a "#"))).
  assert (H : forall a, f a = true).
  { apply forall_ascii. vm_compute. reflexivity. }
  specialize (H a). unfold f in H.
  apply andb_true_iff in H as [H H3]. apply andb_true_iff in H as [H1 H2].
  apply Bool.eqb_prop in H1. split; [done|]. split.
  - intros Hl. rewrite Hl in H2. simpl in H2. by apply Ascii.eqb_eq.
  - intros Hd. rewrite Hd in H3. simpl in H3.
    apply negb_true_iff in H3. by apply Ascii.eqb_neq.
Qed.

(** The state after [\s#\d+]. *)
Lemma run_tail (st : mstate) :
  run true reference_tail st Some
  = match rest st with
    | String sp (String hash digits) =>
        if Js.is_space sp && Ascii.eqb hash "#"
           && (0 <? span Js.is_digit digits)%nat
        then Some (mkst (pos st + 2 + span Js.is_digit digits)
                        (Js.drop (span Js.is_digit digits) digits) (cap1 st))
        else None
    | _ => None
    end.
Proof.
  destruct st as [i s g]. unfold reference_tail, Plus. cbn [run pos rest cap1].
  destruct s as [|sp [|hash digits]]; [done|by destruct (Js.is_space sp)|].
  destruct (Js.is_space sp); [|done]. cbn [andb].
  rewrite (proj1 (hash_canonical hash)).
  destruct (Ascii.eqb hash "#"); [|done]. cbn [andb].
  destruct digits as [|d digits]; [done|]. cbn [span].
  destruct (Js.is_digit d); [|done].
  rewrite star_total by done. cbn [Nat.ltb Nat.leb Js.drop].
  do 2 f_equal. lia.
Qed.

Lemma number_after_some (s d : string) :
  number_after s = Some d ->
  exists sp digits, s = String sp (String "#" digits) /\ Js.is_space sp = true
    /\ d = Js.take (span Js.is_digit digits) digits.
Proof.
  unfold number_after. destruct s as [|sp [|hash digits]]; try done.
  destruct (Js.is_space sp) eqn:Hsp; [|done].
  destruct (Ascii.eqb_spec hash "#") as [->|]; [|done].
  destruct (0 <? _)%nat; [|done]. intros [= <-]. by exists sp, digits.
Qed.

(** One alternative of the group, followed by the tail. *)
Lemma run_keyword (w : string) (st : mstate) :
  Js.ascii_word w = true ->
  run true (lit w) st
    (fun st1 => run true reference_tail
       (mkst (pos st1) (rest st1) (Some (Js.take (pos st1 - pos st) (rest st))))
       Some)
  = if begins_ci (rest st) (Js.toLowerCase w)
    then match number_after (Js.drop (String.length w) (rest st)) with
         | Some d =>
             Some (mkst (pos st + String.length w + 2 + String.length d)
                        (Js.drop (String.length d)
                           (Js.drop 2 (Js.drop (String.length w) (rest st))))
                        (Some (Js.take (String.length w) (rest st))))
         | None => None
         end
    else None.
Proof.
  intros Hw. rewrite run_lit, looking_at_ci by done. unfold begins_ci.
  destruct (Js.startsWith _ _); [|done].
  rewrite run_tail. cbn [pos rest cap1]. rewrite Nat.add_sub'.
  unfold number_after.
  destruct (Js.drop (String.length w) (rest st)) as [|sp [|hash digits]];
    try done.
  destruct (_ && _ && _); [|done]. cbn [Js.drop].
  assert (Hlen : forall t, String.length (Js.take (span Js.is_digit t) t)
                           = span Js.is_digit t).
  { induction t as [|c t IH]; simpl; [done|].
    destruct (Js.is_digit c); simpl; congruence. }
  by rewrite Hlen.
Qed.

Lemma append_cons (x : ascii) (a b : string) :
  String x a +:+ b = String x (a +:+ b).
Proof. reflexivity. Qed.

Lemma append_assoc (a b c : string) : (a +:+ b) +:+ c = a +:+ (b +:+ c).
Proof. induction a as [|x a IH]; [done|]. by rewrite !append_cons, IH. Qed.

Lemma take_add (n m : nat) (s : string) :
  Js.take (n + m) s = Js.take n s +:+ Js.take m (Js.drop n s).
Proof.
  revert s. induction n as [|n IH]; intros s; simpl.
  - by destruct m, s.
  - destruct s as [|c s]; simpl; [by destruct m|]. by rewrite IH.
Qed.

Lemma take_take_span (p : ascii -> bool) (t : string) :
  Js.take (String.length (Js.take (span p t) t)) t = Js.take (span p t) t.
Proof.
  induction t as [|c t IH]; simpl; [done|].
  destruct (p c); simpl; [by rewrite IH|done].
Qed.

Lemma split_no_sep (sep : ascii) (s : string) :
  Js.has_char sep s = false -> Js.split s sep = [s].
Proof.
  induction s as [|c s IH]; simpl; [done|].
  intros [Hc Hs]%orb_false_iff. rewrite Hc, IH by done. done.
Qed.

Lemma split_at_sep (sep : ascii) (a b : string) :
  Js.has_char sep a = false ->
  Js.has_char sep b = false ->
  Js.split (a +:+ String sep b) sep = [a; b].
Proof.
  intros Ha Hb. induction a as [|c a IH]; simpl.
  - by rewrite Ascii.eqb_refl, split_no_sep.
  - simpl in Ha. apply orb_false_iff in Ha as [Hc Ha].
    rewrite Hc, IH by done. done.
Qed.

Lemma has_hash_lower (s : string) :
  Js.has_char "#" s = true -> Js.has_char "#" (Js.toLowerCase s) = true.
Proof.
  induction s as [|c s IH]; simpl; [done|].
  intros [Hc|Hs]%orb_true_iff; apply orb_true_iff.
  - left. apply Ascii.eqb_eq in Hc. by subst c.
  - right. by apply IH.
Qed.

Lemma digits_no_hash (t : string) :
  Js.has_char "#" (Js.take (span Js.is_digit t) t) = false.
Proof.
  induction t as [|c t IH]; simpl; [done|].
  destruct (Js.is_digit c) eqn:Hc; simpl; [|done].
  rewrite IH, orb_false_r. apply Ascii.eqb_neq.
  by apply hash_canonical.
Qed.

Lemma has_char_app (c : ascii) (a b : string) :
  Js.has_char c (a +:+ b) = Js.has_char c a || Js.has_char c b.
Proof. induction a as [|x a IH]; simpl; [done|]. by rewrite IH, orb_assoc. Qed.

(** The matched text of a reference, split at "#": the number is the
    second piece. *)
Lemma split_reference (w s d : string) :
  Js.has_char "#" w = false ->
  begins_ci s w = true ->
  number_after (Js.drop (String.length w) s) = Some d ->
  Js.split (Js.take (String.length w + 2 + String.length d) s) "#" !! 1%nat
  = Some d.
Proof.
  intros Hw Hb Hn.
  destruct (number_after_some _ _ Hn) as (sp & digits & Hs & Hsp & Hd).
  rewrite <- Nat.add_assoc, take_add, Hs. cbn [Nat.add Js.take].
  rewrite Hd, take_take_span.
  assert (Hk : Js.has_char "#" (Js.take (String.length w) s) = false).
  { destruct (Js.has_char "#" (Js.take (String.length w) s)) eqn:Hh; [|done].
    apply has_hash_lower in Hh.
    rewrite (TitleFacts.prefix_lower s w Hb) in Hh. congruence. }
  change (Js.take (String.length w) s +:+ String sp (String "#" ?t))
    with (Js.take (String.length w) s +:+ (String sp "" +:+ String "#" t)).
  rewrite <- append_assoc.
  rewrite split_at_sep; [done| |apply digits_no_hash].
  rewrite has_char_app, Hk. simpl. rewrite orb_false_r.
  apply Ascii.eqb_neq. by apply space_lower.
Qed.

Lemma begins_closes_not_fixes (s : string) :
  begins_ci s "closes" = true -> begins_ci s "fixes" = false.
Proof.
  unfold begins_ci. destruct (Js.toLowerCase s) as [|a t]; [done|]. simpl.
  destruct (Ascii.eqb_spec a "c") as [->|]; done.
Qed.

(** One attempt of [closes_re]: it succeeds exactly where a reference
    starts, and the second piece of the matched text is its number. *)
Lemma exec_closes (i : nat) (s : string) :
  match exec_at true closes_re i s with
  | Some m => Js.split (m0 m) "#" !! 1%nat
  | None => None
  end = reference_here s
  /\ (exec_at true closes_re i s = None <-> reference_here s = None).
Proof.
  unfold exec_at, closes_re. rewrite run_Cat. cbn [run].
  rewrite !run_keyword by reflexivity. cbn [pos rest cap1].
  change (Js.toLowerCase "Closes") with "closes".
  change (Js.toLowerCase "Fixes") with "fixes".
  change (String.length "Closes") with 6%nat.
  change (String.length "Fixes") with 5%nat.
  unfold reference_here.
  destruct (begins_ci s "closes") eqn:Hc.
  - rewrite (begins_closes_not_fixes s Hc).
    destruct (number_after (Js.drop 6 s)) as [d|] eqn:Hn; [|done].
    cbn [pos m0]. split; [|done].
    replace (i + 6 + 2 + String.length d - i)%nat
      with (String.length "closes" + 2 + String.length d)%nat by (simpl; lia).
    by apply split_reference.
  - destruct (begins_ci s "fixes") eqn:Hf; [|done].
    destruct (number_after (Js.drop 5 s)) as [d|] eqn:Hn; [|done].
    cbn [pos m0]. split; [|done].
    replace (i + 5 + 2 + String.length d - i)%nat
      with (String.length "fixes" + 2 + String.length d)%nat by (simpl; lia).
    by apply split_reference.
Qed.

(** The number the code extracts is that of the first reference. *)
Lemma search_first_reference (s : string) (i : nat) :
  match search true closes_re i s with
  | Some m => Js.split (m0 m) "#" !! 1%nat
  | None => None
  end = first_reference s
  /\ (search true closes_re i s = None <-> first_reference s = None).
Proof.
  revert i. induction s as [|a s IH]; intros i.
  - cbn [search first_reference]. destruct (exec_closes i "") as [H1 H2].
    destruct (exec_at true closes_re i "") as [m|].
    + rewrite <- H1. split; [by destruct (_ !! _)|].
      split; [done|]. intros H. rewrite H1 in H.
      destruct (reference_here ""); [done|]. by apply H2 in H.
    + rewrite (proj1 H2 eq_refl). done.
  - cbn [search first_reference]. destruct (exec_closes i (String a s)) as [H1 H2].
    destruct (exec_at true closes_re i (String a s)) as [m|].
    + rewrite <- H1.
      destruct (Js.split (m0 m) "#" !! 1%nat) eqn:Hd; [done|].
      symmetry in H1. by apply H2 in H1.
    + rewrite (proj1 H2 eq_refl). apply IH.
Qed.

(** [includeDataFromIssue] in terms of the first reference of the body. *)
Lemma includeDataFromIssue_eq (E : Env.t) (owner repo : string) (pr : Issue.t)
    (tr : list event) :
  includeDataFromIssue E owner repo pr tr
  = match Issue.body pr ≫= first_reference with
    | None => (Ok pr, tr)
    | Some d =>
        (match Env.issues_get E owner repo (Some d) with
         | Ok (Some data) =>
             Ok (Issue.with_body pr
                   (Some (str_of (Issue.body data) +:+ str_of (Issue.body pr))))
         | Ok None => Ok pr
         | Throw e => Throw e
         | OutOfFuel => OutOfFuel
         end, tr ++ [IssuesGet owner repo (Some d)])
    end.
Proof.
  unfold includeDataFromIssue, issueMatch_of.
  destruct (Issue.body pr) as [b|]; [|done]. simpl.
  unfold String_match. destruct (search_first_reference b 0) as [H1 H2].
  destruct (search true closes_re 0 b) as [m|].
  - rewrite <- H1.
    destruct (Js.split (m0 m) "#" !! 1%nat) as [d|] eqn:Hd.
    + unfold bind, request, ret.
      destruct (Env.issues_get E owner repo (Some d)) as [[data|]|e|]; done.
    + symmetry in H1. by apply H2 in H1.
  - by rewrite (proj1 H2 eq_refl).
Qed.

End ReferenceFacts.

(** C3. When the body of a pull request contains a reference
    "Closes #n" or "Fixes #n" (letter case ignored), [includeDataFromIssue]
    fetches the issue of the first such reference and gives back the pull
    request with the body of that issue put in front of its own body,
    nothing in between (the body of the issue as [+] reads it: its text,
    or "null" when the issue has none).  When the body is absent or
    contains no reference, the pull request comes back as it is and nothing
    is fetched.  No field other than the body changes. *)
Theorem includeDataFromIssue_prepends :
  forall (E : Env.t) (owner repo : string) (pr : Issue.t) (tr : list event),
    (forall (b d : string) (data : Issue.t),
        Issue.body pr = Some b ->
        first_reference b = Some d ->
        Env.issues_get E owner repo (Some d) = Ok (Some data) ->
        includeDataFromIssue E owner repo pr tr
        = (Ok (Issue.with_body pr (Some (str_of (Issue.body data) +:+ b))),
           tr ++ [IssuesGet owner repo (Some d)])
        /\ forall ib, Issue.body data = Some ib ->
             str_of (Issue.body data) +:+ b = ib +:+ b)
    /\ ((forall b, Issue.body pr = Some b -> first_reference b = None) ->
        includeDataFromIssue E owner repo pr tr = (Ok pr, tr))
    /\ (forall b' : option string,
          Issue.body (Issue.with_body pr b') = b'
          /\ Issue.title (Issue.with_body pr b') = Issue.title pr
          /\ Issue.user (Issue.with_body pr b') = Issue.user pr
          /\ Issue.number (Issue.with_body pr b') = Issue.number pr
          /\ Issue.html_url (Issue.with_body pr b') = Issue.html_url pr
          /\ Issue.created_at (Issue.with_body pr b') = Issue.created_at pr
          /\ Issue.pull_request (Issue.with_body pr b')
             = Issue.pull_request pr).
Proof.
  intros E owner repo pr tr.
  rewrite ReferenceFacts.includeDataFromIssue_eq.
  split; [|split].
  - intros b d data Hb Hd Hg. rewrite Hb. simpl. rewrite Hd, Hg.
    split; [done|]. by intros ib ->.
  - intros H. destruct (Issue.body pr) as [b|]; [|done].
    simpl. by rewrite (H b eq_refl).
  - intros b'. by repeat split.
Qed.

(** A body with two references: the issue of the first one is fetched. *)
Lemma includeDataFromIssue_prepends_witness :
  (Issue.body Samples.pr_two_references = Some "This fixes #123 and closes #77."
   /\ first_reference "This fixes #123 and closes #77." = Some "123"
   /\ Env.issues_get (Samples.env (Throw "offline")) "test-org" "test-repo"
        (Some "123") = Ok (Some Samples.linkedIssue))
  /\ includeDataFromIssue (Samples.env (Throw "offline")) "test-org" "test-repo"
       Samples.pr_two_references []
     = (Ok (Issue.with_body Samples.pr_two_references
              (Some ("Issue body." +:+ "This fixes #123 and closes #77."))),
        [] ++ [IssuesGet "test-org" "test-repo" (Some "123")]).
Proof.
  assert (H : Issue.body Samples.pr_two_references
              = Some "This fixes #123 and closes #77."
              /\ first_reference "This fixes #123 and closes #77." = Some "123"
              /\ Env.issues_get (Samples.env (Throw "offline")) "test-org"
                   "test-repo" (Some "123") = Ok (Some Samples.linkedIssue)).
  { repeat split; reflexivity. }
  split; [exact H|].
  destruct H as (Hb & Hd & Hg).
  exact (proj1 (proj1 (includeDataFromIssue_prepends
                         (Samples.env (Throw "offline"))
                         "test-org" "test-repo" Samples.pr_two_references [])
                      _ _ _ Hb Hd Hg)).
Defined.

(** The three cases of the test suite, run on the code. *)
Example includeDataFromIssue_closes :
  includeDataFromIssue (Samples.env (Throw "offline")) "test-org" "test-repo"
    Samples.pr_closes []
  = (Ok (Issue.with_body Samples.pr_closes
           (Some "Issue body.Closes #123. PR body.")),
     [IssuesGet "test-org" "test-repo" (Some "123")]).
Proof. reflexivity. Qed.

Example includeDataFromIssue_fixes :
  includeDataFromIssue (Samples.env (Throw "offline")) "test-org" "test-repo"
    Samples.pr_fixes []
  = (Ok (Issue.with_body Samples.pr_fixes
           (Some "Issue body.Fixes #123. PR body.")),
     [IssuesGet "test-org" "test-repo" (Some "123")]).
Proof. reflexivity. Qed.

Example includeDataFromIssue_plain :
  includeDataFromIssue (Samples.env (Throw "offline")) "test-org" "test-repo"
    Samples.pr_plain []
  = (Ok Samples.pr_plain, []).
Proof. reflexivity. Qed.

(** ** The pull requests of a milestone *)

Module MilestoneFacts.

Lemma page_requests_step (owner repo milestone : string) (start : N) (n : nat) :
  page_requests owner repo milestone start (S n)
  = ListForRepo owner repo milestone "closed" 100 start
    :: page_requests owner repo milestone (start + 1) n.
Proof.
  unfold page_requests. cbn [seq map]. rewrite N.add_0_r. f_equal.
  rewrite <- seq_shift, map_map. apply map_ext. intros i. f_equal. lia.
Qed.

(** The loop ends at the first empty page: it has then asked for every
    page up to that one, one hundred entries a page, and collected the
    pages before it in order. *)
Lemma paginate_pages (E : Env.t) (owner repo milestone : string) :
  forall (pages : list (list Issue.t)) (fuel : nat) (start : N)
         (acc : list Issue.t) (tr : list event),
    Forall (fun page => page <> []) pages ->
    (forall i page, pages !! i = Some page ->
       Env.listForRepo E owner repo milestone "closed" 100 (start + N.of_nat i)
       = Ok page) ->
    Env.listForRepo E owner repo milestone "closed" 100
      (start + N.of_nat (length pages)) = Ok [] ->
    (length pages < fuel)%nat ->
    paginate E fuel owner repo milestone start acc tr
    = (Ok (acc ++ concat pages),
       tr ++ page_requests owner repo milestone start (S (length pages))).
Proof.
  induction pages as [|page pages IH]; intros fuel start acc tr Hne Hp He Hf.
  - destruct fuel as [|fuel]; [simpl in Hf; lia|].
    simpl. unfold bind, request. simpl in He. rewrite N.add_0_r in *. rewrite He.
    unfold ret. rewrite page_requests_step. by rewrite app_nil_r.
  - destruct fuel as [|fuel]; [simpl in Hf; lia|].
    simpl. unfold bind, request.
    pose proof (Hp 0%nat page eq_refl) as H0. simpl in H0.
    rewrite N.add_0_r in H0. rewrite H0.
    apply Forall_cons in Hne as [Hpage Hne].
    destruct page as [|issue page]; [done|].
    rewrite (IH fuel (start + 1)%N).
    + f_equal; [by rewrite <- app_assoc|].
      rewrite <- app_assoc. f_equal.
      by rewrite (page_requests_step _ _ _ start).
    + done.
    + intros i pg Hi. rewrite <- (Hp (S i) pg Hi). f_equal. lia.
    + rewrite <- He. f_equal. simpl. lia.
    + simpl in Hf. lia.
Qed.

(** When no page is ever empty the loop does not end, however many
    iterations it is given. *)
Lemma paginate_no_end (E : Env.t) (owner repo milestone : string) :
  (forall page, exists issue issues,
     Env.listForRepo E owner repo milestone "closed" 100 page
     = Ok (issue :: issues)) ->
  forall (fuel : nat) (start : N) (acc : list Issue.t) (tr : list event),
    (paginate E fuel owner repo milestone start acc tr).1 = OutOfFuel.
Proof.
  intros Hp. induction fuel as [|fuel IH]; intros start acc tr; [done|].
  simpl. unfold bind, request.
  destruct (Hp start) as (issue & issues & ->). apply IH.
Qed.

Lemma find_title_none (title : string) (milestones : list Milestone.t) :
  (forall m, In m milestones -> Milestone.title m <> title) ->
  List.find (fun m => String.eqb (Milestone.title m) title) milestones = None.
Proof.
  intros H. destruct (List.find _ _) as [m|] eqn:Hf; [|done].
  apply List.find_some in Hf as [Hin Heq]. apply String.eqb_eq in Heq.
  by apply H in Hin.
Qed.

Lemma find_title_some (title : string) (milestones : list Milestone.t)
    (m0 : Milestone.t) :
  In m0 milestones -> Milestone.title m0 = title ->
  exists m, List.find (fun m => String.eqb (Milestone.title m) title) milestones
            = Some m
            /\ In m milestones /\ Milestone.title m = title.
Proof.
  intros Hin Ht. destruct (List.find _ _) as [m|] eqn:Hf.
  - exists m. apply List.find_some in Hf as [Hm Heq].
    apply String.eqb_eq in Heq. done.
  - eapply List.find_none in Hf; [|exact Hin]. simpl in Hf.
    apply String.eqb_neq in Hf. done.
Qed.

Lemma not_found_message_occurs (title : string) (milestones : list Milestone.t) :
  occurs_in title (not_found_message title milestones)
  /\ occurs_in (Js.join "," (map Milestone.title milestones))
               (not_found_message title milestones).
Proof.
  unfold not_found_message, occurs_in. split.
  - by exists "Milestone '",
      ("' was not found in: ["
       +:+ Js.join "," (map Milestone.title milestones) +:+ "]").
  - exists ("Milestone '" +:+ title +:+ "' was not found in: ["), "]".
    by rewrite !ReferenceFacts.append_assoc.
Qed.

(** What [join] puts into its result: every element, and every two
    neighbours with the separator between them. *)
Lemma occurs_in_inside (x y front back : string) :
  occurs_in x y -> occurs_in x (front +:+ y +:+ back).
Proof.
  intros (b & a & ->). exists (front +:+ b), (a +:+ back).
  by rewrite !ReferenceFacts.append_assoc.
Qed.

Lemma occurs_in_self (x : string) : occurs_in x x.
Proof.
  exists "", "". change ("" +:+ x +:+ "") with (x +:+ "").
  induction x as [|c x IH]; [done|].
  rewrite ReferenceFacts.append_cons. by rewrite <- IH.
Qed.

Lemma join_cons (sep x y : string) (l : list string) :
  Js.join sep (x :: y :: l) = x +:+ sep +:+ Js.join sep (y :: l).
Proof. reflexivity. Qed.

Lemma join_occurs (sep x : string) (l : list string) :
  In x l -> occurs_in x (Js.join sep l).
Proof.
  induction l as [|y l IH]; [done|]. intros [->|Hin].
  - destruct l as [|z l]; [apply occurs_in_self|].
    rewrite join_cons. by exists "", (sep +:+ Js.join sep (z :: l)).
  - destruct l as [|z l]; [done|]. rewrite join_cons.
    destruct (IH Hin) as (b & a & ->). exists (y +:+ sep +:+ b), a.
    by rewrite !ReferenceFacts.append_assoc.
Qed.

Lemma join_neighbours (sep a b : string) (front back : list string) :
  occurs_in (a +:+ sep +:+ b) (Js.join sep (front ++ a :: b :: back)).
Proof.
  induction front as [|y front IH].
  - simpl app. rewrite join_cons.
    destruct back as [|z back].
    + apply occurs_in_self.
    + rewrite join_cons. exists "", (sep +:+ Js.join sep (z :: back)).
      change ("" +:+ (a +:+ sep +:+ b) +:+ sep +:+ Js.join sep (z :: back))
        with ((a +:+ sep +:+ b) +:+ sep +:+ Js.join sep (z :: back)).
      by rewrite !ReferenceFacts.append_assoc.
  - destruct front as [|z front].
    + simpl app in *. rewrite join_cons.
      destruct IH as (b0 & a0 & ->). exists (y +:+ sep +:+ b0), a0.
      by rewrite !ReferenceFacts.append_assoc.
    + change ((y :: z :: front) ++ a :: b :: back)
        with (y :: z :: (front ++ a :: b :: back)).
      rewrite join_cons.
      change (z :: (front ++ a :: b :: back))
        with ((z :: front) ++ a :: b :: back).
      destruct IH as (b0 & a0 & ->). exists (y +:+ sep +:+ b0), a0.
      by rewrite !ReferenceFacts.append_assoc.
Qed.

Lemma not_found_message_titles (title : string) (milestones : list Milestone.t) :
  (forall m, In m milestones ->
     occurs_in (Milestone.title m) (not_found_message title milestones))
  /\ (forall front a b back, milestones = front ++ a :: b :: back ->
        occurs_in (Milestone.title a +:+ "," +:+ Milestone.title b)
                  (not_found_message title milestones)).
Proof.
  assert (Hin : forall x, occurs_in x (Js.join "," (map Milestone.title milestones)) ->
                  occurs_in x (not_found_message title milestones)).
  { intros x H. unfold not_found_message.
    apply (occurs_in_inside x _ ("Milestone '" +:+ title
                                  +:+ "' was not found in: [") "]") in H.
    by rewrite !ReferenceFacts.append_assoc in H. }
  split.
  - intros m Hm. apply Hin, join_occurs, in_map, Hm.
  - intros front a b back ->. apply Hin.
    rewrite map_app. cbn [map]. apply join_neighbours.
Qed.

End MilestoneFacts.

(** C6. With the list of milestones the repository answers:
    when no milestone has exactly the requested title, [getPRsByMilestone]
    throws, after that one request, an error whose message contains the
    requested title and the list of the titles there are (the title of
    every milestone, each two neighbours of the list with a comma between
    them); when one has, it
    does not throw there but asks for the closed issues of the first such
    milestone page by page, one hundred a page, until a page is empty, and
    returns the entries of the pages before, filtered. *)
Theorem getPRsByMilestone_lookup :
  forall (E : Env.t) (fuel : nat) (owner repo milestoneTitle : string)
         (milestones : list Milestone.t) (tr : list event),
    Env.listMilestones E owner repo = Ok milestones ->
    ((forall m, In m milestones -> Milestone.title m <> milestoneTitle) ->
       getPRsByMilestone E fuel owner repo milestoneTitle tr
       = (Throw (not_found_message milestoneTitle milestones),
          tr ++ [ListMilestones owner repo])
       /\ occurs_in milestoneTitle (not_found_message milestoneTitle milestones)
       /\ occurs_in (Js.join "," (map Milestone.title milestones))
                    (not_found_message milestoneTitle milestones)
       /\ (forall m, In m milestones ->
             occurs_in (Milestone.title m)
                       (not_found_message milestoneTitle milestones))
       /\ (forall front a b back, milestones = front ++ a :: b :: back ->
             occurs_in (Milestone.title a +:+ "," +:+ Milestone.title b)
                       (not_found_message milestoneTitle milestones)))
    /\ (forall m0, In m0 milestones -> Milestone.title m0 = milestoneTitle ->
          exists m, In m milestones /\ Milestone.title m = milestoneTitle
            /\ getPRsByMilestone E fuel owner repo milestoneTitle tr
               = (await prs <~
                    paginate E fuel owner repo (pretty (Milestone.number m)) 1 [];;
                  ret (List.filter is_user_pr prs))
                   (tr ++ [ListMilestones owner repo])
            /\ forall pages : list (list Issue.t),
                 Forall (fun page => page <> []) pages ->
                 (forall i page, pages !! i = Some page ->
                    Env.listForRepo E owner repo (pretty (Milestone.number m))
                      "closed" 100 (1 + N.of_nat i) = Ok page) ->
                 Env.listForRepo E owner repo (pretty (Milestone.number m))
                   "closed" 100 (1 + N.of_nat (length pages)) = Ok [] ->
                 (length pages < fuel)%nat ->
                 getPRsByMilestone E fuel owner repo milestoneTitle tr
                 = (Ok (List.filter is_user_pr (concat pages)),
                    (tr ++ [ListMilestones owner repo])
                    ++ page_requests owner repo (pretty (Milestone.number m))
                         1 (S (length pages)))).
Proof.
  intros E fuel owner repo title milestones tr Hl. split.
  - intros Hnone.
    split; [|split; [apply MilestoneFacts.not_found_message_occurs|];
             split; [apply MilestoneFacts.not_found_message_occurs|];
             apply MilestoneFacts.not_found_message_titles].
    unfold getPRsByMilestone, bind, request. rewrite Hl.
    by rewrite MilestoneFacts.find_title_none.
  - intros m0 Hin Ht.
    destruct (MilestoneFacts.find_title_some title milestones m0 Hin Ht)
      as (m & Hf & Hm & Hmt).
    exists m. split; [done|]. split; [done|]. split.
    { unfold getPRsByMilestone, bind at 1, request. by rewrite Hl, Hf. }
    intros pages Hne Hp He Hfuel.
    unfold getPRsByMilestone, bind at 1, request. rewrite Hl, Hf.
    unfold bind.
    rewrite (MilestoneFacts.paginate_pages E owner repo _ pages fuel 1 []
               _ Hne Hp He Hfuel).
    reflexivity.
Qed.

(** A title that none of the three milestones of the repository has: the
    message lists the three titles. *)
Lemma getPRsByMilestone_lookup_witness :
  Env.listMilestones (MoreSamples.env_with_milestones MoreSamples.three_milestones)
    "test-org" "test-repo"
  = Ok MoreSamples.three_milestones
  /\ (forall m, In m MoreSamples.three_milestones ->
        Milestone.title m <> "non-existent")
  /\ getPRsByMilestone
       (MoreSamples.env_with_milestones MoreSamples.three_milestones) 5
       "test-org" "test-repo" "non-existent" []
     = (Throw "Milestone 'non-existent' was not found in: [1.0.0,1.1.0,2.0.0]",
        [ListMilestones "test-org" "test-repo"])
  /\ (forall m, In m MoreSamples.three_milestones ->
        occurs_in (Milestone.title m)
          "Milestone 'non-existent' was not found in: [1.0.0,1.1.0,2.0.0]").
Proof.
  assert (H : forall m, In m MoreSamples.three_milestones ->
                Milestone.title m <> "non-existent").
  { intros m [<-|[<-|[<-|[]]]]; discriminate. }
  split; [reflexivity|]. split; [exact H|].
  pose proof (proj1 (getPRsByMilestone_lookup
                       (MoreSamples.env_with_milestones
                          MoreSamples.three_milestones)
                       5 "test-org" "test-repo" "non-existent"
                       MoreSamples.three_milestones [] eq_refl) H)
    as (Hrun & _ & _ & Hall & _).
  split; [exact Hrun|exact Hall].
Defined.

(** The first test of the suite for [getPRsByMilestone], run on the code:
    two requests for pages, the second one answered by an empty page. *)
Example getPRsByMilestone_found :
  getPRsByMilestone (Samples.env (Throw "offline")) 5 "test-org" "test-repo"
    "1.0.0" []
  = (Ok [Samples.prNew2; Samples.prNew1],
     [ListMilestones "test-org" "test-repo";
      ListForRepo "test-org" "test-repo" "1" "closed" 100 1;
      ListForRepo "test-org" "test-repo" "1" "closed" 100 2]).
Proof. reflexivity. Qed.

(** ** The highlights service *)

Module ServiceFacts.

(** The body of the [try] block issues no request and writes nothing. *)
Lemma read_highlights_trace (E : Env.t) (c : Config.t) (response : Response.t)
    (tr : list event) :
  (read_highlights E c response tr).2 = tr.
Proof.
  unfold read_highlights, bind, lift.
  destruct (Response.json response) as [data| |]; try done.
  destruct (Config.useOllama c).
  - destruct (get_prop data "response") as [r| |]; try done.
    destruct (Env.JSON_parse E r); done.
  - destruct (get_prop data "choices") as [x| |]; try done.
    destruct (get_first x) as [y| |]; try done.
    destruct (get_prop y "message") as [z| |]; try done.
    destruct (get_prop z "content") as [t| |]; try done.
    destruct (Env.JSON_parse E t); done.
Qed.

(** A status that is not a success: an empty list, no error. *)
Lemma http_error (E : Env.t) (c : Config.t) (content : string)
    (response : Response.t) (tr : list event) :
  service_answer E c content = Ok response ->
  Response.ok response = false ->
  fetchDataFromService E c content tr
  = (Ok (JArr []),
     (tr ++ [fetch_event c content])
     ++ [ConsoleError ("HTTP error! Status: " +:+ pretty (Response.status response))]).
Proof.
  intros Ha Hok. unfold fetchDataFromService, try_catch, bind, request.
  unfold service_answer in Ha. rewrite Ha, Hok. reflexivity.
Qed.

(** A failure of the network: an empty list, no error. *)
Lemma network_failure (E : Env.t) (c : Config.t) (content e : string)
    (tr : list event) :
  service_answer E c content = Throw e ->
  exists msg,
    fetchDataFromService E c content tr
    = (Ok (JArr []), (tr ++ [fetch_event c content]) ++ [ConsoleError msg]).
Proof.
  intros Ha. unfold fetchDataFromService, try_catch, bind, request.
  unfold service_answer in Ha. rewrite Ha. eexists. reflexivity.
Qed.

(** An error raised while the answer is read (a body that is not JSON, a
    text that [JSON.parse] rejects, a property read from [undefined] or
    [null]): an empty list, no error. *)
Lemma parse_failure (E : Env.t) (c : Config.t) (content e : string)
    (response : Response.t) (tr : list event) :
  service_answer E c content = Ok response ->
  Response.ok response = true ->
  (read_highlights E c response (tr ++ [fetch_event c content])).1 = Throw e ->
  exists msg,
    fetchDataFromService E c content tr
    = (Ok (JArr []), (tr ++ [fetch_event c content]) ++ [ConsoleError msg]).
Proof.
  intros Ha Hok Hr. unfold fetchDataFromService, try_catch, bind, request.
  unfold service_answer in Ha. rewrite Ha, Hok. simpl.
  pose proof (read_highlights_trace E c response
                (tr ++ [Fetch (service_url c) (Config.useOllama c)
                              (Config.model c) content])) as Ht.
  unfold fetch_event in Hr.
  destruct (read_highlights E c response _) as [o tr'].
  simpl in Hr, Ht. subst o tr'. eexists. reflexivity.
Qed.

(** A body that is not JSON: [response.json()] is rejected. *)
Lemma body_not_json (E : Env.t) (c : Config.t) (content e : string)
    (response : Response.t) (tr : list event) :
  service_answer E c content = Ok response ->
  Response.ok response = true ->
  Response.json response = Throw e ->
  exists msg,
    fetchDataFromService E c content tr
    = (Ok (JArr []), (tr ++ [fetch_event c content]) ++ [ConsoleError msg]).
Proof.
  intros Ha Hok Hj. apply (parse_failure E c content e response); try done.
  unfold read_highlights, bind, lift. by rewrite Hj.
Qed.

(** A text that [JSON.parse] rejects, from a service of the Ollama kind. *)
Lemma text_not_json (E : Env.t) (c : Config.t) (content e : string)
    (response : Response.t) (fields : list (string * jsval))
    (tr : list event) :
  Config.useOllama c = true ->
  service_answer E c content = Ok response ->
  Response.ok response = true ->
  Response.json response = Ok (JObj fields) ->
  Env.JSON_parse E (field "response" fields) = Throw e ->
  exists msg,
    fetchDataFromService E c content tr
    = (Ok (JArr []), (tr ++ [fetch_event c content]) ++ [ConsoleError msg]).
Proof.
  intros Hu Ha Hok Hj Hp. apply (parse_failure E c content e response); try done.
  unfold read_highlights, bind, lift. rewrite Hj, Hu. simpl. by rewrite Hp.
Qed.

(** When the answer is read without an error, the result is whatever the
    property [prs] of the parsed text is. *)
Lemma read_without_error (E : Env.t) (c : Config.t) (content : string)
    (response : Response.t) (v : jsval) (tr : list event) :
  service_answer E c content = Ok response ->
  Response.ok response = true ->
  (read_highlights E c response (tr ++ [fetch_event c content])).1 = Ok v ->
  fetchDataFromService E c content tr = (Ok v, tr ++ [fetch_event c content]).
Proof.
  intros Ha Hok Hr. unfold fetchDataFromService, try_catch, bind, request.
  unfold service_answer in Ha. rewrite Ha, Hok. simpl.
  pose proof (read_highlights_trace E c response
                (tr ++ [Fetch (service_url c) (Config.useOllama c)
                              (Config.model c) content])) as Ht.
  unfold fetch_event in Hr.
  destruct (read_highlights E c response _) as [o tr'].
  simpl in Hr, Ht. subst o tr'. reflexivity.
Qed.

(** The promise is never rejected. *)
Lemma never_throws (E : Env.t) (c : Config.t) (content : string)
    (tr : list event) :
  forall e, (fetchDataFromService E c content tr).1 <> Throw e.
Proof.
  intros e. unfold fetchDataFromService, try_catch, bind, request.
  destruct (Env.fetch E _ _ _ _) as [response| |]; try done.
  destruct (Response.ok response); simpl; [|done].
  destruct (read_highlights E c response _) as [[v| |] tr']; done.
Qed.

(** A well-formed answer of the Ollama kind: the array [prs]. *)
Lemma ollama_success (E : Env.t) (c : Config.t) (content text : string)
    (response : Response.t) (fields rest : list (string * jsval))
    (prs : list jsval) (tr : list event) :
  Config.useOllama c = true ->
  service_answer E c content = Ok response ->
  Response.ok response = true ->
  Response.json response = Ok (JObj fields) ->
  field "response" fields = JStr text ->
  Env.JSON_parse E (JStr text) = Ok (JObj rest) ->
  field "prs" rest = JArr prs ->
  fetchDataFromService E c content tr
  = (Ok (JArr prs), tr ++ [fetch_event c content]).
Proof.
  intros Hu Ha Hok Hj Hf Hp Hprs. apply (read_without_error E c content response); try done.
  unfold read_highlights, bind, lift. rewrite Hj, Hu. simpl.
  rewrite Hf, Hp. simpl. by rewrite Hprs.
Qed.

(** A well-formed answer of the chat-completion kind: the array [prs]. *)
Lemma chat_success (E : Env.t) (c : Config.t) (content text : string)
    (response : Response.t)
    (fields choice message rest : list (string * jsval))
    (choices prs : list jsval) (tr : list event) :
  Config.useOllama c = false ->
  service_answer E c content = Ok response ->
  Response.ok response = true ->
  Response.json response = Ok (JObj fields) ->
  field "choices" fields = JArr (JObj choice :: choices) ->
  field "message" choice = JObj message ->
  field "content" message = JStr text ->
  Env.JSON_parse E (JStr text) = Ok (JObj rest) ->
  field "prs" rest = JArr prs ->
  fetchDataFromService E c content tr
  = (Ok (JArr prs), tr ++ [fetch_event c content]).
Proof.
  intros Hu Ha Hok Hj Hc Hm Ht Hp Hprs.
  apply (read_without_error E c content response); try done.
  unfold read_highlights, bind, lift. rewrite Hj, Hu. simpl.
  rewrite Hc. simpl. rewrite Hm. simpl. rewrite Ht, Hp. simpl. by rewrite Hprs.
Qed.

End ServiceFacts.

(** C5, at an answer that has not the expected shape.  The service answers
    with status 200 and a text that is valid JSON but has no property
    [prs] (an empty object from the Ollama kind of service, an array, as
    the prompt asks for, from the chat-completion kind).  Nothing is
    thrown and nothing is logged; the result is [undefined], which is not
    the empty list. *)
Theorem fetchDataFromService_without_prs :
  fetchDataFromService (Samples.env (Ok (Samples.ollama_answer "{}")))
    (Samples.config true) "PR1: ..." []
  = (Ok JUndefined,
     [Fetch "http://localhost:12345/api/test" true (Some "test-model") "PR1: ..."])
  /\ fetchDataFromService (Samples.env (Ok (Samples.chat_answer "[]")))
       (Samples.config false) "PR1: ..." []
     = (Ok JUndefined,
        [Fetch "http://localhost:12345/api/test" false (Some "test-model")
               "PR1: ..."])
  /\ JUndefined <> JArr [].
Proof. split; [reflexivity|]. split; [reflexivity|discriminate]. Qed.

(** The test of the suite for the chat-completion kind, run on the code. *)
Example fetchDataFromService_chat :
  fetchDataFromService
    (Samples.env (Ok (Samples.chat_answer Samples.highlights_json)))
    (Samples.config false) "PR1: ..." []
  = (Ok (JArr Samples.hlPRs),
     [Fetch "http://localhost:12345/api/test" false (Some "test-model")
            "PR1: ..."]).
Proof. reflexivity. Qed.

(** ** First-time contributors: which pull request is kept *)

Module FirstTimeFacts.

(** Two qualifying pull requests of one user, with valid dates: whatever
    their order in the list, the one that is kept is the one created
    later (the first of the two when the dates are equal). *)
Lemma values_singleton {V : Type} (k : string) (v : V) :
  Obj.values [(k, v)] = [v].
Proof.
  unfold Obj.values, Obj.indexed, Obj.unindexed, Obj.is_index. simpl.
  by destruct (Obj.array_index k).
Qed.

Lemma first_time_pair (E : Env.t) (contributorsMap : gmap string Z)
    (usersMilestonePRs : gmap string num)
    (a b : Issue.t) (ua ub : User.t) (ta tb : Z) :
  Issue.user a = Some ua ->
  Issue.user b = Some ub ->
  User.login ub = User.login ua ->
  isNewContributor (User.login ua) contributorsMap usersMilestonePRs = true ->
  Proto.inherits (User.login ua) = false ->
  Env.Date_parse E (Issue.created_at a) = Some ta ->
  Env.Date_parse E (Issue.created_at b) = Some tb ->
  first_time_loop E contributorsMap usersMilestonePRs [a; b]
  = [if ta <? tb then newPRInfo_of b ub else newPRInfo_of a ua].
Proof.
  intros Ha Hb Hl Hn Hi Hta Htb.
  unfold first_time_loop. cbn [foldl]. unfold first_time_step at 2.
  rewrite Ha, Hn. cbn [negb Obj.get Obj.set read]. rewrite Hi.
  unfold first_time_step. rewrite Hb, Hl, Hn. cbn [negb Obj.get].
  cbn [newPRInfo_of Author.username PRInfo.author]. rewrite String.eqb_refl.
  cbn [read].
  change (PRInfo.created_at (newPRInfo_of b ub)) with (Some (Issue.created_at b)).
  change (PRInfo.created_at (newPRInfo_of a ua)) with (Some (Issue.created_at a)).
  cbn [Date_new]. rewrite Hta, Htb. cbn [date_gt].
  destruct (ta <? tb); cbn [Obj.set]; rewrite ?String.eqb_refl;
    apply values_singleton.
Qed.

Lemma get_None (o : list (string * PRInfo.t)) (k : string) :
  Obj.get o k = None <-> ~ In k (map fst o).
Proof.
  induction o as [|[k' v'] o IH]; simpl; [tauto|].
  destruct (String.eqb_spec k' k) as [->|Hne]; [split; [done|tauto]|].
  rewrite IH. tauto.
Qed.

Lemma get_set_eq {V : Type} (o : list (string * V)) (k : string) (v : V) :
  Obj.get (Obj.set o k v) k = Some v.
Proof.
  induction o as [|[k' v'] o IH]; simpl; [by rewrite String.eqb_refl|].
  destruct (String.eqb k' k) eqn:He; simpl; by rewrite He.
Qed.

Lemma get_set_ne {V : Type} (o : list (string * V)) (k k' : string) (v : V) :
  k <> k' -> Obj.get (Obj.set o k v) k' = Obj.get o k'.
Proof.
  intros Hne. induction o as [|[k0 v0] o IH]; simpl.
  - by apply String.eqb_neq in Hne as ->.
  - destruct (String.eqb_spec k0 k) as [->|Hk]; simpl.
    + by apply String.eqb_neq in Hne as ->.
    + by rewrite IH.
Qed.

Lemma keys_set (o : list (string * PRInfo.t)) (k : string) (v : PRInfo.t) :
  map fst (Obj.set o k v)
  = match Obj.get o k with
    | Some _ => map fst o
    | None => map fst o ++ [k]
    end.
Proof.
  induction o as [|[k' v'] o IH]; simpl; [done|].
  destruct (String.eqb_spec k' k) as [->|Hk]; simpl; [done|].
  rewrite IH. by destruct (Obj.get o k).
Qed.

Lemma keyed_set (o : list (string * PRInfo.t)) (k : string) (v : PRInfo.t) :
  Author.username (PRInfo.author v) = k ->
  keyed_by_username o -> keyed_by_username (Obj.set o k v).
Proof.
  intros Hv [Hnd Hall]. split.
  - rewrite keys_set. destruct (Obj.get o k) eqn:Hg; [done|].
    apply get_None in Hg. apply NoDup_app. split; [done|].
    split; [|apply NoDup_singleton].
    intros x Hx Hk. apply list_elem_of_In in Hx.
    apply list_elem_of_singleton in Hk. by subst x.
  - clear Hnd. induction Hall as [|[k' v'] o Hkv Hall IH]; simpl.
    + by repeat constructor.
    + destruct (String.eqb_spec k' k) as [->|Hk]; constructor; done.
Qed.

(** [Object.values] lists every value once; it lists them in the order
    of their creation when no key is an array index. *)
Lemma insert_by_index_perm {V : Type} (x : N * V) (l : list (N * V)) :
  Obj.insert_by_index x l ≡ₚ x :: l.
Proof.
  induction l as [|y l IH]; simpl; [done|].
  destruct (x.1 <? y.1)%N; [done|]. rewrite IH. apply Permutation_swap.
Qed.

Lemma by_index_perm {V : Type} (l : list (N * V)) : Obj.by_index l ≡ₚ l.
Proof.
  induction l as [|x l IH]; simpl; [done|].
  rewrite insert_by_index_perm. by rewrite IH.
Qed.

Lemma values_perm {V : Type} (o : list (string * V)) :
  Obj.values o ≡ₚ map snd o.
Proof.
  unfold Obj.values. rewrite by_index_perm.
  induction o as [|[k v] o IH]; [done|].
  unfold Obj.indexed, Obj.unindexed, Obj.is_index in *. simpl.
  destruct (Obj.array_index k); simpl.
  - by rewrite IH.
  - rewrite <- IH. by rewrite <- Permutation_middle.
Qed.

Lemma values_unindexed {V : Type} (o : list (string * V)) :
  Forall (fun e => Obj.is_index e.1 = false) o -> Obj.values o = map snd o.
Proof.
  intros H. unfold Obj.values.
  assert (Hi : Obj.indexed o = []).
  { induction H as [|[k v] o Hk _ IH]; [done|].
    unfold Obj.indexed, Obj.is_index in *. simpl in *.
    by destruct (Obj.array_index k). }
  assert (Hu : Obj.unindexed o = o).
  { induction H as [|[k v] o Hk _ IH]; [done|].
    unfold Obj.unindexed in *. simpl in *. rewrite Hk. simpl.
    f_equal. apply IH.
    unfold Obj.indexed, Obj.is_index in *. simpl in *.
    by destruct (Obj.array_index k). }
  by rewrite Hi, Hu.
Qed.

Lemma filter_perm {A : Type} (f : A -> bool) (l l' : list A) :
  l ≡ₚ l' -> List.filter f l ≡ₚ List.filter f l'.
Proof.
  induction 1 as [|x l l' _ IH|x y l|l l' l'' _ IH1 _ IH2]; simpl.
  - done.
  - destruct (f x); by rewrite IH.
  - destruct (f x), (f y); try done. apply Permutation_swap.
  - by rewrite IH1.
Qed.

Lemma entries_of_values (o : list (string * PRInfo.t)) (username : string) :
  keyed_by_username o ->
  entries_of username (Obj.values o)
  = match Obj.get o username with
    | Some info => [info]
    | None => []
    end.
Proof.
  intros Hk.
  assert (Hmap : entries_of username (map snd o)
                 = match Obj.get o username with
                   | Some info => [info]
                   | None => []
                   end).
  { destruct Hk as [Hnd Hall].
    induction Hall as [|[k v] o Hkv Hall IH]; [done|].
    simpl in Hkv, Hnd. apply NoDup_cons in Hnd as [Hk Hnd].
    unfold entries_of in *. simpl. rewrite Hkv.
    destruct (String.eqb_spec k username) as [->|Hne].
    - rewrite (IH Hnd).
      assert (Obj.get o username = None) as ->; [|done].
      apply get_None. intros Hin. apply Hk. by apply list_elem_of_In.
    - by apply IH. }
  pose proof (filter_perm
                (fun info => String.eqb (Author.username (PRInfo.author info))
                                        username)
                _ _ (values_perm o)) as Hp.
  fold (entries_of username (Obj.values o)) in Hp.
  fold (entries_of username (map snd o)) in Hp.
  rewrite Hmap in Hp. destruct (Obj.get o username).
  - by apply Permutation_singleton_r in Hp.
  - by apply Permutation_nil_r in Hp.
Qed.

Lemma loop_invariant_skip (E : Env.t) (cm : gmap string Z)
    (mm : gmap string num)
    (prs : list Issue.t) (pr : Issue.t) (o : list (string * PRInfo.t)) :
  (forall usr, Issue.user pr = Some usr ->
     isNewContributor (User.login usr) cm mm = false
     \/ Proto.inherits (User.login usr) = true) ->
  loop_invariant E cm mm prs o ->
  loop_invariant E cm mm (prs ++ [pr]) o.
Proof.
  intros Hskip (Hk & Hfrom & Hmax). split; [done|]. split.
  - intros u info Hg. destruct (Hfrom u info Hg) as (p & us & Hin & H).
    exists p, us. split; [apply in_or_app; by left|done].
  - intros p us [Hin|[<-|[]]]%in_app_or Hpu Hpn Hpi; [by eapply Hmax|].
    destruct (Hskip us Hpu) as [H|H]; congruence.
Qed.

Lemma loop_invariant_step (E : Env.t) (cm : gmap string Z)
    (mm : gmap string num)
    (prs : list Issue.t) (pr : Issue.t) (o : list (string * PRInfo.t)) :
  (forall p, In p (prs ++ [pr]) ->
     is_Some (Env.Date_parse E (Issue.created_at p))) ->
  loop_invariant E cm mm prs o ->
  loop_invariant E cm mm (prs ++ [pr]) (first_time_step E cm mm o pr).
Proof.
  intros Hdates Hinv. unfold first_time_step.
  destruct (Issue.user pr) as [usr|] eqn:Hu;
    [|apply loop_invariant_skip; [intros us Hus; congruence|done]].
  destruct (isNewContributor (User.login usr) cm mm) eqn:Hn; cbn [negb];
    [|apply loop_invariant_skip;
      [intros us Hus; left; congruence|done]].
  destruct (Hdates pr) as [tn Htn]; [apply in_or_app; right; by left|].
  set (u := User.login usr). set (new := newPRInfo_of pr usr).
  assert (Hnew : Date_new E (PRInfo.created_at new) = Some tn) by done.
  destruct Hinv as (Hk & Hfrom & Hmax).
  assert (Hfrom' : forall o', 
            (forall u0 info, Obj.get o' u0 = Some info ->
               info = new /\ u0 = u \/ Obj.get o u0 = Some info) ->
            forall u0 info, Obj.get o' u0 = Some info ->
              exists p us, In p (prs ++ [pr]) /\ Issue.user p = Some us
                /\ User.login us = u0 /\ info = newPRInfo_of p us).
  { intros o' Ho' u0 info Hg. destruct (Ho' u0 info Hg) as [[-> ->]|Hg'].
    - exists pr, usr. split; [apply in_or_app; right; by left|done].
    - destruct (Hfrom u0 info Hg') as (p & us & Hin & H).
      exists p, us. split; [apply in_or_app; by left|done]. }
  destruct (Obj.get o u) as [old|] eqn:Hold; cbn [read];
    [|destruct (Proto.inherits u) eqn:Hi].
  - destruct (Hfrom u old Hold) as (p0 & us0 & Hin0 & Hus0 & Hl0 & Hold0).
    destruct (Hdates p0) as [to Hto]; [apply in_or_app; by left|].
    assert (Holdd : Date_new E (PRInfo.created_at old) = Some to)
      by (by rewrite Hold0).
    rewrite Hnew, Holdd. cbn [date_gt].
    destruct (to <? tn) eqn:Hlt.
    + apply Z.ltb_lt in Hlt. split; [by apply keyed_set|]. split.
      * apply Hfrom'. intros u0 info Hg.
        destruct (decide (u = u0)) as [<-|Hne].
        -- rewrite get_set_eq in Hg. left. by injection Hg as <-.
        -- rewrite get_set_ne in Hg by done. by right.
      * intros p us Hin Hpu Hpn Hpi.
        destruct (decide (u = User.login us)) as [He|Hne].
        -- rewrite <- He, get_set_eq. exists new, tn. split; [done|]. split; [done|].
           intros t' Ht'. apply in_app_or in Hin as [Hin|[<-|[]]]; [|by simplify_eq].
           destruct (Hmax p us Hin Hpu Hpn Hpi) as (info & t & Hg & Hd & Hle).
           rewrite <- He, Hold in Hg. injection Hg as <-.
           rewrite Holdd in Hd. injection Hd as <-. specialize (Hle t' Ht'). lia.
        -- rewrite get_set_ne by done.
           apply in_app_or in Hin as [Hin|[<-|[]]]; [by eapply Hmax|].
           by simplify_eq.
    + apply Z.ltb_ge in Hlt. split; [done|]. split.
      * apply Hfrom'. intros u0 info Hg. by right.
      * intros p us Hin Hpu Hpn Hpi.
        apply in_app_or in Hin as [Hin|[<-|[]]]; [by eapply Hmax|].
        rewrite Hu in Hpu. injection Hpu as <-.
        exists old, to. split; [done|]. split; [done|].
        intros t' Ht'. rewrite Htn in Ht'. injection Ht' as <-. done.
  - assert (Hno : date_gt (Date_new E (PRInfo.created_at new)) (Date_new E None)
                 = false).
    { rewrite Hnew. reflexivity. }
    rewrite Hno. apply (loop_invariant_skip E cm mm prs pr o); [|done].
    intros us Hus. right. rewrite Hu in Hus. injection Hus as <-. exact Hi.
  - split; [by apply keyed_set|]. split.
    + apply Hfrom'. intros u0 info Hg.
      destruct (decide (u = u0)) as [<-|Hne].
      * rewrite get_set_eq in Hg. left. by injection Hg as <-.
      * rewrite get_set_ne in Hg by done. by right.
    + intros p us Hin Hpu Hpn Hpi.
      destruct (decide (u = User.login us)) as [He|Hne].
      * rewrite <- He, get_set_eq. exists new, tn. split; [done|]. split; [done|].
        intros t' Ht'. apply in_app_or in Hin as [Hin|[<-|[]]]; [|by simplify_eq].
        destruct (Hmax p us Hin Hpu Hpn Hpi) as (info & t & Hg & _).
        rewrite <- He, Hold in Hg. done.
      * rewrite get_set_ne by done.
        apply in_app_or in Hin as [Hin|[<-|[]]]; [by eapply Hmax|].
        by simplify_eq.
Qed.

Lemma loop_invariant_holds (E : Env.t) (cm : gmap string Z)
    (mm : gmap string num)
    (prs : list Issue.t) :
  (forall p, In p prs -> is_Some (Env.Date_parse E (Issue.created_at p))) ->
  loop_invariant E cm mm prs (foldl (first_time_step E cm mm) [] prs).
Proof.
  induction prs as [|pr prs IH] using rev_ind; intros Hdates.
  - split; [split; [constructor|constructor]|]. split; [done|]. by intros ? ? [].
  - rewrite foldl_snoc. apply loop_invariant_step; [done|].
    apply IH. intros p Hp. apply Hdates, in_or_app. by left.
Qed.

(** For every list with valid creation dates: a user with a qualifying
    pull request has exactly one entry in the result; it comes from one of
    the user's qualifying pull requests, and none of them was created
    later. *)
Lemma first_time_loop_latest (E : Env.t) (cm : gmap string Z)
    (mm : gmap string num)
    (prs : list Issue.t) (pr : Issue.t) (usr : User.t) :
  (forall p, In p prs -> is_Some (Env.Date_parse E (Issue.created_at p))) ->
  In pr prs -> Issue.user pr = Some usr ->
  isNewContributor (User.login usr) cm mm = true ->
  Proto.inherits (User.login usr) = false ->
  exists kept keptUser t,
    In kept prs /\ Issue.user kept = Some keptUser
    /\ User.login keptUser = User.login usr
    /\ entries_of (User.login usr) (first_time_loop E cm mm prs)
       = [newPRInfo_of kept keptUser]
    /\ Env.Date_parse E (Issue.created_at kept) = Some t
    /\ forall pr' usr' t',
         In pr' prs -> Issue.user pr' = Some usr' ->
         User.login usr' = User.login usr ->
         Env.Date_parse E (Issue.created_at pr') = Some t' -> t' <= t.
Proof.
  intros Hdates Hin Hu Hn Hi.
  destruct (loop_invariant_holds E cm mm prs Hdates) as (Hk & Hfrom & Hmax).
  destruct (Hmax pr usr Hin Hu Hn Hi) as (info & t & Hg & Hd & _).
  destruct (Hfrom _ _ Hg) as (kept & keptUser & Hkin & Hku & Hkl & ->).
  exists kept, keptUser, t. repeat (split; [done|]).
  split; [unfold first_time_loop; by rewrite entries_of_values, Hg|].
  split; [done|].
  intros pr' usr' t' Hin' Hu' Hl' Ht'.
  destruct (Hmax pr' usr' Hin' Hu') as (info' & t2 & Hg' & Hd' & Hle).
  { by rewrite Hl'. }
  { by rewrite Hl'. }
  rewrite Hl', Hg in Hg'. injection Hg' as <-.
  rewrite Hd in Hd'. injection Hd' as <-. by apply Hle.
Qed.

End FirstTimeFacts.

(** C1, on the input of the test suite.  [newUser] has two qualifying pull
    requests; number 202 was created at 09:00 and number 201 at 10:00 of
    the same day.  In either order of the list, exactly one entry is
    kept for [newUser], and it is the one of number 201, the later one,
    not the earliest. *)
Theorem getFirstTimeContributors_keeps_latest :
  let E := Samples.env (Throw "offline") in
  let kept :=
    PRInfo.mk "feat: First PR" (Author.mk "newUser" "urlNew") 201 "htmlNew"
              (Some "2023-02-01T10:00:00Z") in
  getFirstTimeContributors E (Samples.config false)
    [Samples.prNew2; Samples.prNew1] []
  = (Ok [kept], [ListContributors "test-org" "test-repo" 100])
  /\ getFirstTimeContributors E (Samples.config false)
       [Samples.prNew1; Samples.prNew2] []
     = (Ok [kept], [ListContributors "test-org" "test-repo" 100])
  /\ Env.Date_parse E (Issue.created_at Samples.prNew2) = Some 1675242000000
  /\ Env.Date_parse E (Issue.created_at Samples.prNew1) = Some 1675245600000
  /\ isNewContributor "newUser"
       (contributorsMap_of [Contributor.mk (Some "newUser") 2])
       (getMilestonePRs [Samples.prNew2; Samples.prNew1]) = true.
Proof. repeat split; vm_compute; reflexivity. Qed.

(** ** The changelog built by the loop of [generate] *)

Module ChangelogFacts.
Import FirstTimeFacts.

Lemma filed_under_ensure (o : list (string * PRCategory.t)) (category cat : string) :
  filed_under (ensure_category o category) cat = filed_under o cat.
Proof.
  unfold ensure_category, filed_under.
  destruct (Obj.get o category) eqn:Hg; [done|].
  destruct (decide (category = cat)) as [<-|Hne].
  - by rewrite get_set_eq, Hg.
  - by rewrite get_set_ne.
Qed.

Lemma ensure_is_there (o : list (string * PRCategory.t)) (category : string) :
  is_Some (Obj.get (ensure_category o category) category).
Proof.
  unfold ensure_category. destruct (Obj.get o category) eqn:Hg; [by rewrite Hg|].
  rewrite get_set_eq. eauto.
Qed.

(** Pushing onto a category that is there never throws. *)
Lemma push_pr_ok (o : list (string * PRCategory.t)) (category : string)
    (prInfo : PRInfo.t) (tr : list event) :
  is_Some (Obj.get o category) ->
  exists o', push_pr o category prInfo tr = (Ok o', tr)
    /\ forall cat, filed_under o' cat
         = filed_under o cat
           ++ (if String.eqb category cat then [prInfo] else []).
Proof.
  intros [c Hc]. unfold push_pr. rewrite Hc. eexists. split; [reflexivity|].
  intros cat. unfold filed_under.
  destruct (String.eqb_spec category cat) as [<-|Hne].
  - by rewrite get_set_eq, Hc.
  - rewrite get_set_ne by done. by rewrite app_nil_r.
Qed.

(** When the loop comes to its end, each category holds, after what it
    held before, the pull requests that [categorize] files under it, in
    the order of the list; the list of pull requests keeps its length. *)
Lemma categorize_loop_changelog (E : Env.t) (c : Config.t) :
  forall (prs : list Issue.t) (o o' : list (string * PRCategory.t))
         (prs' : list Issue.t) (tr tr' : list event),
    categorize_loop E c prs o tr = (Ok (o', prs'), tr') ->
    length prs' = length prs
    /\ forall cat,
         filed_under o' cat
         = filed_under o cat
           ++ map prInfo_of (List.filter (in_category cat) prs).
Proof.
  induction prs as [|pr prs IH]; intros o o' prs' tr tr' Hrun.
  - injection Hrun as <- <- <-. split; [done|]. intros cat. by rewrite app_nil_r.
  - cbn [categorize_loop] in Hrun. cbn [List.filter]. unfold in_category at 1.
    destruct (categorize pr) as [category|] eqn:Hcat.
    + unfold bind at 1 in Hrun.
      destruct (includeDataFromIssue E _ _ pr tr) as [[pr1| |] tr1]; try done.
      destruct (push_pr_ok (ensure_category o category) category (prInfo_of pr)
                  tr1 (ensure_is_there o category)) as (o2 & Hpush & Hfiled).
      unfold bind at 1 in Hrun. rewrite Hpush in Hrun.
      unfold bind at 1 in Hrun.
      destruct (categorize_loop E c prs o2 tr1) as [[[o3 prs3]| |] tr3] eqn:Hrest;
        try done.
      injection Hrun as <- <- <-.
      destruct (IH _ _ _ _ _ Hrest) as [Hlen Hall].
      split; [simpl; by rewrite Hlen|].
      intros cat. rewrite Hall, Hfiled, filed_under_ensure, <- app_assoc.
      f_equal. by destruct (String.eqb category cat).
    + unfold bind at 1 in Hrun.
      destruct (categorize_loop E c prs o tr) as [[[o3 prs3]| |] tr3] eqn:Hrest;
        try done.
      injection Hrun as <- <- <-.
      destruct (IH _ _ _ _ _ Hrest) as [Hlen Hall].
      split; [simpl; by rewrite Hlen|]. done.
Qed.

End ChangelogFacts.

(** * Further properties *)

(** ** The pull requests of a milestone, continued *)

Module MoreMilestoneFacts.
Import MilestoneFacts.

(** What comes back is what the filter lets through. *)
Lemma getPRsByMilestone_filtered (E : Env.t) (fuel : nat)
    (owner repo title : string) (tr tr' : list event) (prs : list Issue.t) :
  getPRsByMilestone E fuel owner repo title tr = (Ok prs, tr') ->
  exists all, prs = List.filter is_user_pr all.
Proof.
  unfold getPRsByMilestone, bind at 1, request.
  destruct (Env.listMilestones E owner repo) as [milestones| |]; try done.
  destruct (List.find _ milestones) as [m|]; [|done].
  unfold bind. destruct (paginate E fuel owner repo _ 1 [] _) as [[all| |] tr1];
    try done.
  intros [= <- <-]. by exists all.
Qed.

Lemma is_user_pr_inv (issue : Issue.t) :
  is_user_pr issue = true ->
  exists p u, Issue.pull_request issue = Some p /\ Issue.user issue = Some u
    /\ User.type u <> "Bot"
    /\ User.login u <> "podman-desktop-bot"
    /\ User.login u <> "step-security-bot".
Proof.
  unfold is_user_pr.
  destruct (Issue.pull_request issue) as [p|]; [|done].
  destruct (Issue.user issue) as [u|]; [|done].
  intros [[H1 H2]%andb_true_iff H3]%andb_true_iff.
  apply negb_true_iff, String.eqb_neq in H1, H2, H3. by exists p, u.
Qed.

(** The loop stops at the first page that cannot be read: the error is
    that of the request, nothing is asked again, and what was collected is
    lost. *)
Lemma paginate_error (E : Env.t) (owner repo milestone e : string) :
  forall (pages : list (list Issue.t)) (fuel : nat) (start : N)
         (acc : list Issue.t) (tr : list event),
    Forall (fun page => page <> []) pages ->
    (forall i page, pages !! i = Some page ->
       Env.listForRepo E owner repo milestone "closed" 100 (start + N.of_nat i)
       = Ok page) ->
    Env.listForRepo E owner repo milestone "closed" 100
      (start + N.of_nat (length pages)) = Throw e ->
    (length pages < fuel)%nat ->
    paginate E fuel owner repo milestone start acc tr
    = (Throw e,
       tr ++ page_requests owner repo milestone start (S (length pages))).
Proof.
  induction pages as [|page pages IH]; intros fuel start acc tr Hne Hp He Hf.
  - destruct fuel as [|fuel]; [simpl in Hf; lia|].
    simpl. unfold bind, request. simpl in He. rewrite N.add_0_r in *. rewrite He.
    by rewrite page_requests_step.
  - destruct fuel as [|fuel]; [simpl in Hf; lia|].
    simpl. unfold bind, request.
    pose proof (Hp 0%nat page eq_refl) as H0. simpl in H0.
    rewrite N.add_0_r in H0. rewrite H0.
    apply Forall_cons in Hne as [Hpage Hne].
    destruct page as [|issue page]; [done|].
    rewrite (IH fuel (start + 1)%N).
    + f_equal. rewrite <- app_assoc. f_equal.
      by rewrite (page_requests_step _ _ _ start).
    + done.
    + intros i pg Hi. rewrite <- (Hp (S i) pg Hi). f_equal. lia.
    + rewrite <- He. f_equal. simpl. lia.
    + simpl in Hf. lia.
Qed.

End MoreMilestoneFacts.

(** X1. Whatever the repository answers, when [getPRsByMilestone] returns
    a list, every entry of it is a pull request (it carries the marker)
    with an author whose account is not of type "Bot" and is neither
    [podman-desktop-bot] nor [step-security-bot]. *)
Theorem getPRsByMilestone_only_user_prs :
  forall (E : Env.t) (fuel : nat) (owner repo milestoneTitle : string)
         (tr tr' : list event) (prs : list Issue.t),
    getPRsByMilestone E fuel owner repo milestoneTitle tr = (Ok prs, tr') ->
    forall issue, In issue prs ->
      exists p u, Issue.pull_request issue = Some p
        /\ Issue.user issue = Some u
        /\ User.type u <> "Bot"
        /\ User.login u <> "podman-desktop-bot"
        /\ User.login u <> "step-security-bot".
Proof.
  intros E fuel owner repo title tr tr' prs Hrun issue Hin.
  destruct (MoreMilestoneFacts.getPRsByMilestone_filtered _ _ _ _ _ _ _ _ Hrun)
    as [all ->].
  apply List.filter_In in Hin as [_ Hin].
  by apply MoreMilestoneFacts.is_user_pr_inv.
Qed.

(** A page with a bot's pull request and a plain issue: neither is
    returned. *)
Lemma getPRsByMilestone_only_user_prs_witness :
  getPRsByMilestone (MoreSamples.env_with_pages MoreSamples.mixed_pages) 5
    "test-org" "test-repo" "1.0.0" []
  = (Ok [Samples.prNew2; Samples.prNew1],
     [ListMilestones "test-org" "test-repo";
      ListForRepo "test-org" "test-repo" "1" "closed" 100 1;
      ListForRepo "test-org" "test-repo" "1" "closed" 100 2])
  /\ In Samples.prNew1 [Samples.prNew2; Samples.prNew1]
  /\ exists p u, Issue.pull_request Samples.prNew1 = Some p
       /\ Issue.user Samples.prNew1 = Some u
       /\ User.type u <> "Bot"
       /\ User.login u <> "podman-desktop-bot"
       /\ User.login u <> "step-security-bot".
Proof.
  assert (Hrun : getPRsByMilestone
                   (MoreSamples.env_with_pages MoreSamples.mixed_pages) 5
                   "test-org" "test-repo" "1.0.0" []
                 = (Ok [Samples.prNew2; Samples.prNew1],
                    [ListMilestones "test-org" "test-repo";
                     ListForRepo "test-org" "test-repo" "1" "closed" 100 1;
                     ListForRepo "test-org" "test-repo" "1" "closed" 100 2]))
    by reflexivity.
  assert (Hin : In Samples.prNew1 [Samples.prNew2; Samples.prNew1])
    by (right; left; reflexivity).
  split; [exact Hrun|]. split; [exact Hin|].
  exact (getPRsByMilestone_only_user_prs _ _ _ _ _ _ _ _ Hrun _ Hin).
Defined.

(** X2. The loop over the pages has no bound of its own: when the
    milestone is found and the repository never answers with an empty
    page, [getPRsByMilestone] neither returns nor throws, however many
    iterations it is given. *)
Theorem getPRsByMilestone_never_ends :
  forall (E : Env.t) (fuel : nat) (owner repo milestoneTitle : string)
         (milestones : list Milestone.t) (m : Milestone.t) (tr : list event),
    Env.listMilestones E owner repo = Ok milestones ->
    List.find (fun m => String.eqb (Milestone.title m) milestoneTitle) milestones
    = Some m ->
    (forall page, exists issue issues,
       Env.listForRepo E owner repo (pretty (Milestone.number m)) "closed" 100
         page = Ok (issue :: issues)) ->
    (getPRsByMilestone E fuel owner repo milestoneTitle tr).1 = OutOfFuel.
Proof.
  intros E fuel owner repo title milestones m tr Hl Hf Hp.
  unfold getPRsByMilestone, bind at 1, request. rewrite Hl, Hf. unfold bind.
  pose proof (MilestoneFacts.paginate_no_end E owner repo _ Hp fuel 1 []
                (tr ++ [ListMilestones owner repo])) as H.
  destruct (paginate E fuel owner repo _ 1 [] _) as [o tr1]. simpl in H.
  by subst o.
Qed.

Lemma getPRsByMilestone_never_ends_witness :
  (getPRsByMilestone (MoreSamples.env_with_pages MoreSamples.endless_pages) 1000
     "test-org" "test-repo" "1.0.0" []).1 = OutOfFuel.
Proof.
  apply (getPRsByMilestone_never_ends
           (MoreSamples.env_with_pages MoreSamples.endless_pages) 1000
           "test-org" "test-repo" "1.0.0" [Milestone.mk "1.0.0" 1]
           (Milestone.mk "1.0.0" 1) []); [reflexivity|reflexivity|].
  intros page. exists Samples.prNew1, []. reflexivity.
Defined.

(** X3. Errors of the repository are not caught by [getPRsByMilestone]:
    when the list of milestones cannot be read, the error is thrown
    after that one request; when a page cannot be read, the error is
    thrown after the request for that page, with no further request, and
    the pages read before are lost. *)
Theorem getPRsByMilestone_errors_propagate :
  forall (E : Env.t) (fuel : nat) (owner repo milestoneTitle e : string)
         (tr : list event),
    (Env.listMilestones E owner repo = Throw e ->
     getPRsByMilestone E fuel owner repo milestoneTitle tr
     = (Throw e, tr ++ [ListMilestones owner repo]))
    /\ (forall (milestones : list Milestone.t) (m : Milestone.t)
               (pages : list (list Issue.t)),
          Env.listMilestones E owner repo = Ok milestones ->
          List.find (fun m => String.eqb (Milestone.title m) milestoneTitle)
                    milestones = Some m ->
          Forall (fun page => page <> []) pages ->
          (forall i page, pages !! i = Some page ->
             Env.listForRepo E owner repo (pretty (Milestone.number m))
               "closed" 100 (1 + N.of_nat i) = Ok page) ->
          Env.listForRepo E owner repo (pretty (Milestone.number m))
            "closed" 100 (1 + N.of_nat (length pages)) = Throw e ->
          (length pages < fuel)%nat ->
          getPRsByMilestone E fuel owner repo milestoneTitle tr
          = (Throw e,
             (tr ++ [ListMilestones owner repo])
             ++ page_requests owner repo (pretty (Milestone.number m)) 1
                  (S (length pages)))).
Proof.
  intros E fuel owner repo title e tr. split.
  - intros Hl. unfold getPRsByMilestone, bind, request. by rewrite Hl.
  - intros milestones m pages Hl Hf Hne Hp He Hfuel.
    unfold getPRsByMilestone, bind at 1, request. rewrite Hl, Hf. unfold bind.
    by rewrite (MoreMilestoneFacts.paginate_error E owner repo _ e pages fuel 1
                  [] _ Hne Hp He Hfuel).
Qed.

(** The second page cannot be read: the first page is lost with it. *)
Lemma getPRsByMilestone_errors_propagate_witness :
  getPRsByMilestone (MoreSamples.env_with_pages MoreSamples.broken_pages) 5
    "test-org" "test-repo" "1.0.0" []
  = (Throw "HttpError: Server Error",
     [ListMilestones "test-org" "test-repo";
      ListForRepo "test-org" "test-repo" "1" "closed" 100 1;
      ListForRepo "test-org" "test-repo" "1" "closed" 100 2]).
Proof.
  apply (proj2 (getPRsByMilestone_errors_propagate
                  (MoreSamples.env_with_pages MoreSamples.broken_pages) 5
                  "test-org" "test-repo" "1.0.0" "HttpError: Server Error" [])
               [Milestone.mk "1.0.0" 1] (Milestone.mk "1.0.0" 1)
               [[Samples.prNew2]]).
  - reflexivity.
  - reflexivity.
  - repeat constructor. discriminate.
  - intros [|[|i]] page H; try discriminate. by injection H as <-.
  - reflexivity.
  - simpl. lia.
Defined.

(** ** The whole run *)

(** X4. A milestone that the repository has not makes the whole run
    fail at once: [generate] throws the error of the lookup after the
    request for the milestones, and asks for nothing else (no contributors,
    no issue, no highlights). *)
Theorem generate_milestone_not_found :
  forall (E : Env.t) (c : Config.t) (fuel : nat)
         (milestones : list Milestone.t) (tr : list event),
    Env.listMilestones E (Config.organization c) (Config.repo c)
    = Ok milestones ->
    (forall m, In m milestones -> Milestone.title m <> Config.milestone c) ->
    generate E c fuel tr
    = (Throw (not_found_message (Config.milestone c) milestones),
       tr ++ [ListMilestones (Config.organization c) (Config.repo c)]).
Proof.
  intros E c fuel milestones tr Hl Hnone.
  unfold generate, bind at 1, getPRsByMilestone, bind, request.
  by rewrite Hl, MilestoneFacts.find_title_none.
Qed.

Lemma generate_milestone_not_found_witness :
  generate (Samples.env (Throw "offline")) MoreSamples.config_missing 5 []
  = (Throw "Milestone '2.0.0' was not found in: [1.0.0]",
     [ListMilestones "test-org" "test-repo"]).
Proof.
  apply (generate_milestone_not_found (Samples.env (Throw "offline"))
           MoreSamples.config_missing 5 [Milestone.mk "1.0.0" 1] []);
    [reflexivity|].
  intros m [<-|[]]. discriminate.
Defined.

(** X5. A service that cannot be reached does not by itself fail the
    run: when the pull requests, the first-time contributors and the
    categories have been obtained, the failure is only logged and
    [generate] goes on to [generateMD] with an empty list of highlights.
    The run then ends well when the template is read, rendered with the
    sorted changelog and the empty highlights, and the file is written
    (its name is then logged); it throws the error of the reading, of the
    rendering or of the writing otherwise. *)
Theorem generate_without_service :
  forall (E : Env.t) (c : Config.t) (fuel : nat) (e : string)
         (prs prs' : list Issue.t) (firstTime : list PRInfo.t)
         (o : list (string * PRCategory.t)) (tr tr1 tr2 tr3 : list event),
    getPRsByMilestone E fuel (Config.organization c) (Config.repo c)
      (Config.milestone c) tr = (Ok prs, tr1) ->
    getFirstTimeContributors E c prs tr1 = (Ok firstTime, tr2) ->
    categorize_loop E c prs [] tr2 = (Ok (o, prs'), tr3) ->
    service_answer E c (content_of (features_of prs')) = Throw e ->
    exists msg tr4 view,
      tr4 = (tr3 ++ [fetch_event c (content_of (features_of prs'))])
            ++ [ConsoleError msg]
      /\ view = View.mk firstTime (sortedChangelog (Obj.values o)) (JArr [])
                        (version c) (Config.username c)
      /\ generate E c fuel tr
         = generateMD E c (Obj.values o) firstTime (JArr []) tr4
      /\ (forall e',
            Env.readFile E template_path = Throw e' ->
            generate E c fuel tr = (Throw e', tr4 ++ [ReadFile template_path]))
      /\ (forall template e',
            Env.readFile E template_path = Ok template ->
            Env.mustache_render E template view = Throw e' ->
            generate E c fuel tr = (Throw e', tr4 ++ [ReadFile template_path]))
      /\ (forall template markdown e',
            Env.readFile E template_path = Ok template ->
            Env.mustache_render E template view = Ok markdown ->
            Env.writeFile E (filename E c) markdown = Throw e' ->
            generate E c fuel tr
            = (Throw e',
               (tr4 ++ [ReadFile template_path])
               ++ [WriteFile (filename E c) markdown]))
      /\ (forall template markdown,
            Env.readFile E template_path = Ok template ->
            Env.mustache_render E template view = Ok markdown ->
            Env.writeFile E (filename E c) markdown = Ok tt ->
            generate E c fuel tr
            = (Ok tt,
               ((tr4 ++ [ReadFile template_path])
                ++ [WriteFile (filename E c) markdown])
               ++ [ConsoleLog (filename E c +:+ " was created!")])).
Proof.
  intros E c fuel e prs prs' firstTime o tr tr1 tr2 tr3 H1 H2 H3 H4.
  destruct (ServiceFacts.network_failure E c _ e tr3 H4) as [msg Hmsg].
  exists msg. eexists. eexists. split; [reflexivity|]. split; [reflexivity|].
  assert (Hgen : generate E c fuel tr
                 = generateMD E c (Obj.values o) firstTime (JArr [])
                     ((tr3 ++ [fetch_event c (content_of (features_of prs'))])
                      ++ [ConsoleError msg])).
  { unfold generate.
    unfold bind at 1. rewrite H1.
    unfold bind at 1. rewrite H2.
    unfold bind at 1. rewrite H3.
    unfold bind at 1. cbn [fst snd]. by rewrite Hmsg. }
  split; [exact Hgen|]. rewrite Hgen. unfold generateMD, generateMD_view.
  split; [|split; [|split]].
  - intros e' Hr. unfold bind at 1, request at 1. by rewrite Hr.
  - intros template e' Hr Hm. unfold bind at 1, request at 1. rewrite Hr.
    unfold bind at 1, lift. by rewrite Hm.
  - intros template markdown e' Hr Hm Hw. unfold bind at 1, request at 1.
    rewrite Hr. unfold bind at 1, lift. rewrite Hm.
    unfold bind at 1, request. by rewrite Hw.
  - intros template markdown Hr Hm Hw. unfold bind at 1, request at 1.
    rewrite Hr. unfold bind at 1, lift. rewrite Hm.
    unfold bind at 1, request. by rewrite Hw.
Qed.

(** The run of the sample repository without a service: the release notes
    are written all the same. *)
Lemma generate_without_service_witness :
  exists msg,
    generate (Samples.env (Throw "offline")) (Samples.config false) 5 []
    = (Ok tt,
       (((([ListMilestones "test-org" "test-repo";
            ListForRepo "test-org" "test-repo" "1" "closed" 100 1;
            ListForRepo "test-org" "test-repo" "1" "closed" 100 2;
            ListContributors "test-org" "test-repo" 100]
           ++ [fetch_event (Samples.config false)
                 (content_of (features_of [Samples.prNew2; Samples.prNew1]))])
          ++ [ConsoleError msg])
         ++ [ReadFile template_path])
        ++ [WriteFile "2025-06-30-release-1.0.md" "# Release notes 1.0 (2)"])
       ++ [ConsoleLog "2025-06-30-release-1.0.md was created!"]).
Proof.
  destruct (generate_without_service (Samples.env (Throw "offline"))
              (Samples.config false) 5 "offline"
              [Samples.prNew2; Samples.prNew1] [Samples.prNew2; Samples.prNew1]
              [PRInfo.mk "feat: First PR" (Author.mk "newUser" "urlNew") 201
                         "htmlNew" (Some "2023-02-01T10:00:00Z")]
              [("fix", PRCategory.mk "fix" [prInfo_of Samples.prNew2]);
               ("feat", PRCategory.mk "feat" [prInfo_of Samples.prNew1])]
              []
              [ListMilestones "test-org" "test-repo";
               ListForRepo "test-org" "test-repo" "1" "closed" 100 1;
               ListForRepo "test-org" "test-repo" "1" "closed" 100 2]
              [ListMilestones "test-org" "test-repo";
               ListForRepo "test-org" "test-repo" "1" "closed" 100 1;
               ListForRepo "test-org" "test-repo" "1" "closed" 100 2;
               ListContributors "test-org" "test-repo" 100]
              [ListMilestones "test-org" "test-repo";
               ListForRepo "test-org" "test-repo" "1" "closed" 100 1;
               ListForRepo "test-org" "test-repo" "1" "closed" 100 2;
               ListContributors "test-org" "test-repo" 100]
              eq_refl eq_refl eq_refl eq_refl)
    as (msg & tr4 & view & -> & -> & _ & _ & _ & _ & Hok).
  exists msg.
  exact (Hok Samples.template "# Release notes 1.0 (2)" eq_refl eq_refl eq_refl).
Defined.

(** ** First-time contributors, continued *)

Module MoreFirstTimeFacts.
Import FirstTimeFacts.

Lemma contributorsMap_of_snoc (cs : list Contributor.t) (c : Contributor.t) :
  contributorsMap_of (cs ++ [c]) = add_contributor (contributorsMap_of cs) c.
Proof. unfold contributorsMap_of. by rewrite foldl_snoc. Qed.

(** Nothing is ever stored under [__proto__]. *)
Lemma contributorsMap_of_proto (cs : list Contributor.t) :
  contributorsMap_of cs !! "__proto__" = None.
Proof.
  induction cs as [|c cs IH] using rev_ind; [done|].
  rewrite contributorsMap_of_snoc. unfold add_contributor.
  destruct (Contributor.login c) as [l|]; [|done].
  destruct (Js.truthy l); [|done].
  rewrite assign_lookup. destruct (decide (l = "__proto__")) as [->|]; [|done].
  by rewrite IH.
Qed.

Lemma contributorsMap_of_lookup (cs : list Contributor.t) (username : string) :
  username <> "__proto__" ->
  contributorsMap_of cs !! username = lifetime_count username cs.
Proof.
  intros Hu. unfold lifetime_count.
  induction cs as [|c cs IH] using rev_ind.
  - unfold contributorsMap_of. simpl. rewrite lookup_empty.
    by destruct (Js.truthy username).
  - rewrite contributorsMap_of_snoc, rev_unit. cbn [List.find].
    unfold add_contributor, has_login at 1.
    destruct (Contributor.login c) as [l|]; [|done].
    destruct (String.eqb_spec l username) as [->|Hne].
    + destruct (Js.truthy username) eqn:Ht; [|done].
      rewrite assign_lookup. destruct (decide (username = username)); [|done].
      apply String.eqb_neq in Hu. rewrite Hu.
      by destruct (contributorsMap_of cs !! username).
    + destruct (Js.truthy l); [|done].
      rewrite assign_lookup. by destruct (decide (l = username)).
Qed.

(** The test on the counts, with the counts written out. *)
Lemma isNewContributor_counts (contributors : list Contributor.t)
    (prs : list Issue.t) (username : string) :
  Proto.inherits username = false ->
  isNewContributor username (contributorsMap_of contributors)
    (getMilestonePRs prs) = true
  <-> default 0 (lifetime_count username contributors)
      = Z.of_nat (milestone_count username prs)
      /\ (0 < milestone_count username prs)%nat.
Proof.
  intros Hi.
  assert (Hu : username <> "__proto__") by (intros ->; by rewrite inherits_proto in Hi).
  unfold isNewContributor, get_property, count_dictionary, num_dictionary,
    milestone_count.
  rewrite contributorsMap_of_lookup by done. rewrite getMilestonePRs_stored.
  unfold stored_count, read. rewrite Hi.
  apply String.eqb_neq in Hu. rewrite Hu.
  destruct (lifetime_count username contributors) as [k|];
    destruct (length (List.filter (authored_by username) prs)) as [|n]; simpl;
    rewrite ?andb_true_iff, ?Z.eqb_eq, ?Z.ltb_lt; lia.
Qed.

(** A user whose login is the name of a property of the prototype is
    never entered. *)
Lemma date_gt_undefined (E : Env.t) (d : option Z) :
  date_gt d (Date_new E None) = false.
Proof. by destruct d. Qed.


Lemma has_pr_by_snoc (u : string) (prs : list Issue.t) (pr : Issue.t) :
  has_pr_by u (prs ++ [pr])
  <-> has_pr_by u prs
      \/ exists usr, Issue.user pr = Some usr /\ User.login usr = u.
Proof.
  unfold has_pr_by. split.
  - intros (p & usr & [Hin|[<-|[]]]%in_app_or & Hu & Hl); [left|right]; eauto.
  - intros [(p & usr & Hin & H)|(usr & Hu & Hl)].
    + exists p, usr. split; [apply in_or_app; by left|done].
    + exists pr, usr. split; [apply in_or_app; right; by left|done].
Qed.

Lemma keys_invariant_step (E : Env.t) (cm : gmap string Z)
    (mm : gmap string num)
    (prs : list Issue.t) (pr : Issue.t) (o : list (string * PRInfo.t)) :
  keys_invariant cm mm prs o ->
  keys_invariant cm mm (prs ++ [pr]) (first_time_step E cm mm o pr).
Proof.
  intros [Hk Hkeys]. unfold first_time_step.
  destruct (Issue.user pr) as [usr|] eqn:Hu.
  2: { split; [done|]. intros u. rewrite Hkeys, has_pr_by_snoc.
       split; [tauto|]. intros [[?|(usr & ? & _)] ?]; [done|congruence]. }
  assert (Hsame : (isNewContributor (User.login usr) cm mm = false
                   \/ Proto.inherits (User.login usr) = true
                   \/ is_Some (Obj.get o (User.login usr))) ->
                  keys_invariant cm mm (prs ++ [pr]) o).
  { intros Hcase. split; [done|]. intros u. rewrite has_pr_by_snoc.
    destruct (decide (User.login usr = u)) as [<-|Hne].
    - rewrite Hkeys. split; [tauto|].
      intros [_ [Hnew Hplain]].
      destruct Hcase as [H|[H|H]]; [congruence|congruence|].
      by apply Hkeys in H.
    - rewrite Hkeys. split; [tauto|]. intros [[?|(us & Hus & Hl)] ?]; [done|].
      rewrite Hu in Hus. by injection Hus as <-. }
  destruct (isNewContributor (User.login usr) cm mm) eqn:Hn; cbn [negb];
    [|apply Hsame; by left].
  destruct (Obj.get o (User.login usr)) as [old|] eqn:Hold; cbn [read].
  - assert (Hi : Proto.inherits (User.login usr) = false).
    { assert (H : is_Some (Obj.get o (User.login usr))) by eauto.
      by apply Hkeys in H as (_ & _ & H). }
    destruct (date_gt _ _); [|apply Hsame; right; right; eauto].
    split; [by apply keyed_set|]. intros u. rewrite has_pr_by_snoc.
    destruct (decide (User.login usr = u)) as [<-|Hne].
    + rewrite get_set_eq. split; [intros _; split; [right; eauto|done]|eauto].
    + rewrite get_set_ne by done. rewrite Hkeys.
      split; [tauto|]. intros [[?|(us & Hus & Hl)] ?]; [done|].
      rewrite Hu in Hus. by injection Hus as <-.
  - destruct (Proto.inherits (User.login usr)) eqn:Hi.
    + rewrite date_gt_undefined. apply Hsame. right. by left.
    + split; [by apply keyed_set|]. intros u. rewrite has_pr_by_snoc.
      destruct (decide (User.login usr = u)) as [<-|Hne].
      * rewrite get_set_eq.
        split; [intros _; split; [right; eauto|done]|eauto].
      * rewrite get_set_ne by done. rewrite Hkeys.
        split; [tauto|]. intros [[?|(us & Hus & Hl)] ?]; [done|].
        rewrite Hu in Hus. by injection Hus as <-.
Qed.

Lemma keys_invariant_holds (E : Env.t) (cm : gmap string Z)
    (mm : gmap string num)
    (prs : list Issue.t) :
  keys_invariant cm mm prs (foldl (first_time_step E cm mm) [] prs).
Proof.
  induction prs as [|pr prs IH] using rev_ind.
  - split; [split; constructor|]. intros u. simpl. split.
    + by intros [? ?].
    + by intros [(p & usr & [] & _) _].
  - rewrite foldl_snoc. by apply keys_invariant_step.
Qed.

(** The entries of a username in the result: none or one. *)
Lemma entries_of_result (E : Env.t) (cm : gmap string Z)
    (mm : gmap string num)
    (prs : list Issue.t) (u : string) :
  entries_of u (first_time_loop E cm mm prs)
  = match Obj.get (foldl (first_time_step E cm mm) [] prs) u with
    | Some info => [info]
    | None => []
    end.
Proof.
  unfold first_time_loop. apply entries_of_values.
  apply (keys_invariant_holds E cm mm prs).
Qed.

End MoreFirstTimeFacts.

(** X6. The lifetime counts are looked up by login: [contributorsMap]
    maps a login to the contributions of the last record of the list with
    that login, and has no entry for a login without a record; records
    without a login, or with an empty one, are left out.  So are records
    with the login [__proto__], under which an object stores no number:
    nothing is ever found there but the prototype. *)
Theorem contributorsMap_last_record :
  forall (contributors : list Contributor.t) (username : string),
    (username <> "__proto__" ->
     contributorsMap_of contributors !! username
     = lifetime_count username contributors)
    /\ contributorsMap_of contributors !! "" = None
    /\ (forall n, contributorsMap_of (contributors ++ [Contributor.mk None n])
                  = contributorsMap_of contributors)
    /\ (forall n, contributorsMap_of (contributors ++ [Contributor.mk (Some "") n])
                  = contributorsMap_of contributors)
    /\ contributorsMap_of contributors !! "__proto__" = None
    /\ get_property (contributorsMap_of contributors) "__proto__"
       = Inherited "__proto__"
    /\ (forall n,
          contributorsMap_of
            (contributors ++ [Contributor.mk (Some "__proto__") n])
          = contributorsMap_of contributors).
Proof.
  intros cs u. split; [apply MoreFirstTimeFacts.contributorsMap_of_lookup|].
  split; [by rewrite MoreFirstTimeFacts.contributorsMap_of_lookup|].
  split; [intros n; by rewrite MoreFirstTimeFacts.contributorsMap_of_snoc|].
  split; [intros n; by rewrite MoreFirstTimeFacts.contributorsMap_of_snoc|].
  pose proof (MoreFirstTimeFacts.contributorsMap_of_proto cs) as Hp.
  split; [done|].
  split.
  - unfold get_property, count_dictionary. by rewrite Hp.
  - intros n. rewrite MoreFirstTimeFacts.contributorsMap_of_snoc.
    unfold add_contributor, assign. simpl. by rewrite Hp.
Qed.

(** X7. Who is listed as a first-time contributor: when the list of
    contributors is answered, [getFirstTimeContributors] returns, after
    that one request, a list in which a username has an entry exactly when
    some entry of the milestone is by that user, the user has at least one
    counted pull request in the milestone, the lifetime count of the user
    equals that number, and the username is not the name of a property of
    [Object.prototype] (a user called [constructor] is never listed); and
    no username has more than one entry. *)
Theorem first_time_contributors_listed :
  forall (E : Env.t) (c : Config.t) (prs : list Issue.t)
         (contributors : list Contributor.t) (tr : list event),
    Env.listContributors E (Config.organization c) (Config.repo c) 100
    = Ok contributors ->
    exists result,
      getFirstTimeContributors E c prs tr
      = (Ok result,
         tr ++ [ListContributors (Config.organization c) (Config.repo c) 100])
      /\ forall username,
           ((exists info, In info result
               /\ Author.username (PRInfo.author info) = username)
            <-> has_pr_by username prs
                /\ default 0 (lifetime_count username contributors)
                   = Z.of_nat (milestone_count username prs)
                /\ (0 < milestone_count username prs)%nat
                /\ Proto.inherits username = false)
           /\ (length (entries_of username result) <= 1)%nat.
Proof.
  intros E c prs contributors tr Hl.
  unfold getFirstTimeContributors, bind, request. rewrite Hl.
  eexists. split; [reflexivity|].
  intros u.
  pose proof (MoreFirstTimeFacts.entries_of_result E
                (contributorsMap_of contributors) (getMilestonePRs prs) prs u)
    as Hent.
  destruct (MoreFirstTimeFacts.keys_invariant_holds E
              (contributorsMap_of contributors) (getMilestonePRs prs) prs)
    as [_ Hkeys].
  specialize (Hkeys u).
  assert (Hcond : has_pr_by u prs
                  /\ isNewContributor u (contributorsMap_of contributors)
                       (getMilestonePRs prs) = true
                  /\ Proto.inherits u = false
                  <-> has_pr_by u prs
                      /\ default 0 (lifetime_count u contributors)
                         = Z.of_nat (milestone_count u prs)
                      /\ (0 < milestone_count u prs)%nat
                      /\ Proto.inherits u = false).
  { split.
    - intros (Hp & Hn & Hi).
      apply MoreFirstTimeFacts.isNewContributor_counts in Hn; [|done]. tauto.
    - intros (Hp & Hc & Hpos & Hi). split; [done|]. split; [|done].
      by apply MoreFirstTimeFacts.isNewContributor_counts. }
  rewrite Hcond in Hkeys.
  split.
  - rewrite <- Hkeys. split.
    + intros (info & Hin & Hu).
      assert (In info (entries_of u (first_time_loop E
                (contributorsMap_of contributors) (getMilestonePRs prs) prs))).
      { apply List.filter_In. split; [done|]. by apply String.eqb_eq. }
      rewrite Hent in H. destruct (Obj.get _ u); [eauto|destruct H].
    + intros [info Hg]. rewrite Hg in Hent. exists info.
      assert (Hin : In info (entries_of u (first_time_loop E
                (contributorsMap_of contributors) (getMilestonePRs prs) prs)))
        by (rewrite Hent; by left).
      apply List.filter_In in Hin as [Hin Hu]. by apply String.eqb_eq in Hu.
  - rewrite Hent. destruct (Obj.get _ u); simpl; lia.
Qed.

(** The input of the test suite: [newUser] is listed, once. *)
Lemma first_time_contributors_listed_witness :
  exists result,
    getFirstTimeContributors (Samples.env (Throw "offline"))
      (Samples.config false) [Samples.prNew2; Samples.prNew1] []
    = (Ok result, [] ++ [ListContributors "test-org" "test-repo" 100])
    /\ forall username,
         ((exists info, In info result
             /\ Author.username (PRInfo.author info) = username)
          <-> has_pr_by username [Samples.prNew2; Samples.prNew1]
              /\ default 0 (lifetime_count username
                              [Contributor.mk (Some "newUser") 2])
                 = Z.of_nat (milestone_count username
                               [Samples.prNew2; Samples.prNew1])
              /\ (0 < milestone_count username
                        [Samples.prNew2; Samples.prNew1])%nat
              /\ Proto.inherits username = false)
         /\ (length (entries_of username result) <= 1)%nat.
Proof.
  exact (first_time_contributors_listed (Samples.env (Throw "offline"))
           (Samples.config false) [Samples.prNew2; Samples.prNew1]
           [Contributor.mk (Some "newUser") 2] [] eq_refl).
Defined.

(** X8. The entry of a first-time contributor: when the list of
    contributors is answered and every creation date is valid, a user with
    an entry in the milestone who passes the test on the counts, and whose
    login is not the name of a property of [Object.prototype], has exactly
    one entry in the result; it is made from one of the user's entries in
    the milestone, and none of the user's entries was created later than
    that one. *)
Theorem first_time_entry_is_latest :
  forall (E : Env.t) (c : Config.t) (prs : list Issue.t)
         (contributors : list Contributor.t) (tr : list event)
         (pr : Issue.t) (usr : User.t),
    Env.listContributors E (Config.organization c) (Config.repo c) 100
    = Ok contributors ->
    (forall p, In p prs -> is_Some (Env.Date_parse E (Issue.created_at p))) ->
    In pr prs -> Issue.user pr = Some usr ->
    isNewContributor (User.login usr) (contributorsMap_of contributors)
      (getMilestonePRs prs) = true ->
    Proto.inherits (User.login usr) = false ->
    exists result kept keptUser t,
      getFirstTimeContributors E c prs tr
      = (Ok result,
         tr ++ [ListContributors (Config.organization c) (Config.repo c) 100])
      /\ In kept prs /\ Issue.user kept = Some keptUser
      /\ User.login keptUser = User.login usr
      /\ entries_of (User.login usr) result = [newPRInfo_of kept keptUser]
      /\ Env.Date_parse E (Issue.created_at kept) = Some t
      /\ forall pr' usr' t',
           In pr' prs -> Issue.user pr' = Some usr' ->
           User.login usr' = User.login usr ->
           Env.Date_parse E (Issue.created_at pr') = Some t' -> t' <= t.
Proof.
  intros E c prs contributors tr pr usr Hl Hdates Hin Hu Hn Hi.
  destruct (FirstTimeFacts.first_time_loop_latest E
              (contributorsMap_of contributors) (getMilestonePRs prs)
              prs pr usr Hdates Hin Hu Hn Hi)
    as (kept & keptUser & t & H).
  eexists _, kept, keptUser, t.
  split; [|exact H].
  unfold getFirstTimeContributors, bind, request. rewrite Hl. reflexivity.
Qed.

Lemma first_time_entry_is_latest_witness :
  exists result kept keptUser t,
    getFirstTimeContributors (Samples.env (Throw "offline"))
      (Samples.config false) [Samples.prNew2; Samples.prNew1] []
    = (Ok result, [] ++ [ListContributors "test-org" "test-repo" 100])
    /\ In kept [Samples.prNew2; Samples.prNew1]
    /\ Issue.user kept = Some keptUser
    /\ User.login keptUser = User.login (Samples.user "newUser" "urlNew")
    /\ entries_of (User.login (Samples.user "newUser" "urlNew")) result
       = [newPRInfo_of kept keptUser]
    /\ Env.Date_parse (Samples.env (Throw "offline")) (Issue.created_at kept)
       = Some t
    /\ forall pr' usr' t',
         In pr' [Samples.prNew2; Samples.prNew1] ->
         Issue.user pr' = Some usr' ->
         User.login usr' = User.login (Samples.user "newUser" "urlNew") ->
         Env.Date_parse (Samples.env (Throw "offline")) (Issue.created_at pr')
         = Some t' -> t' <= t.
Proof.
  apply (first_time_entry_is_latest (Samples.env (Throw "offline"))
           (Samples.config false) [Samples.prNew2; Samples.prNew1]
           [Contributor.mk (Some "newUser") 2] [] Samples.prNew2
           (Samples.user "newUser" "urlNew")).
  - reflexivity.
  - intros p [<-|[<-|[]]]; vm_compute; eauto.
  - by left.
  - reflexivity.
  - vm_compute. reflexivity.
  - reflexivity.
Defined.

(** A user called [constructor]: with one pull request and a lifetime
    count of one, the count of the milestone is NaN and the test on the
    counts fails; with two pull requests and a lifetime count of one, the
    test passes, and still nothing is entered, because the object of the
    first-time contributors already has something under that name. *)
Example getFirstTimeContributors_constructor :
  getFirstTimeContributors
    (MoreSamples.env_with_contributors [Contributor.mk (Some "constructor") 1])
    (Samples.config false) [MoreSamples.pr_constructor] []
  = (Ok [], [ListContributors "test-org" "test-repo" 100])
  /\ isNewContributor "constructor"
       (contributorsMap_of [Contributor.mk (Some "constructor") 1])
       (getMilestonePRs [MoreSamples.pr_constructor]) = false
  /\ getFirstTimeContributors
       (MoreSamples.env_with_contributors [Contributor.mk (Some "constructor") 1])
       (Samples.config false)
       [MoreSamples.pr_constructor; MoreSamples.pr_constructor2] []
     = (Ok [], [ListContributors "test-org" "test-repo" 100])
  /\ isNewContributor "constructor"
       (contributorsMap_of [Contributor.mk (Some "constructor") 1])
       (getMilestonePRs [MoreSamples.pr_constructor; MoreSamples.pr_constructor2])
     = true.
Proof. repeat split; vm_compute; reflexivity. Qed.

(** A user with a numeric login comes first in the result, whenever the
    pull request was met. *)
Example getFirstTimeContributors_numeric_login :
  getFirstTimeContributors
    (MoreSamples.env_with_contributors
       [Contributor.mk (Some "zed") 1; Contributor.mk (Some "42") 1])
    (Samples.config false) [MoreSamples.pr_zed; MoreSamples.pr_42] []
  = (Ok [newPRInfo_of MoreSamples.pr_42 (Samples.user "42" "url42");
         newPRInfo_of MoreSamples.pr_zed (Samples.user "zed" "urlZed")],
     [ListContributors "test-org" "test-repo" 100]).
Proof. vm_compute. reflexivity. Qed.

(** ** The highlights service, continued *)

(** X9. [fetchDataFromService] never rejects, whatever the service does:
    no error leaves it.  It sends exactly one request, never a second one,
    and writes at most one line to the error console. *)
Theorem fetchDataFromService_never_rejects :
  forall (E : Env.t) (c : Config.t) (content : string) (tr : list event),
    (forall e, (fetchDataFromService E c content tr).1 <> Throw e)
    /\ exists logs,
         (fetchDataFromService E c content tr).2
         = (tr ++ [fetch_event c content]) ++ logs
         /\ (logs = [] \/ exists msg, logs = [ConsoleError msg]).
Proof.
  intros E c content tr. split; [apply ServiceFacts.never_throws|].
  unfold fetchDataFromService, try_catch, bind, request, fetch_event.
  destruct (Env.fetch E _ _ _ _) as [response|e|].
  - destruct (Response.ok response); simpl.
    + pose proof (ServiceFacts.read_highlights_trace E c response
                    (tr ++ [Fetch (service_url c) (Config.useOllama c)
                                  (Config.model c) content])) as Ht.
      destruct (read_highlights E c response _) as [[v|e|] tr1];
        simpl in Ht; subst tr1; simpl.
      * exists []. by rewrite app_nil_r; split; [|left].
      * eexists. split; [reflexivity|right; eauto].
      * exists []. by rewrite app_nil_r; split; [|left].
    + eexists. split; [reflexivity|right; eauto].
  - eexists. split; [reflexivity|right; eauto].
  - exists []. simpl. by rewrite app_nil_r; split; [|left].
Qed.

(** X10. When the highlights cannot be had, the result is the empty
    list and one line is logged: when the request fails; when the status is
    not a success (the line then names the status); when the body of the
    answer is not JSON; when the answer has no [choices] (chat-completion
    kind); and when [JSON.parse] rejects the text of the answer (Ollama
    kind). *)
Theorem fetchDataFromService_degrades :
  forall (E : Env.t) (c : Config.t) (content : string) (tr : list event),
    (forall e, service_answer E c content = Throw e ->
       exists msg,
         fetchDataFromService E c content tr
         = (Ok (JArr []), (tr ++ [fetch_event c content]) ++ [ConsoleError msg]))
    /\ (forall response,
          service_answer E c content = Ok response ->
          Response.ok response = false ->
          fetchDataFromService E c content tr
          = (Ok (JArr []),
             (tr ++ [fetch_event c content])
             ++ [ConsoleError ("HTTP error! Status: "
                               +:+ pretty (Response.status response))]))
    /\ (forall response e,
          service_answer E c content = Ok response ->
          Response.ok response = true ->
          Response.json response = Throw e ->
          exists msg,
            fetchDataFromService E c content tr
            = (Ok (JArr []),
               (tr ++ [fetch_event c content]) ++ [ConsoleError msg]))
    /\ (forall response fields,
          Config.useOllama c = false ->
          service_answer E c content = Ok response ->
          Response.ok response = true ->
          Response.json response = Ok (JObj fields) ->
          field "choices" fields = JUndefined ->
          exists msg,
            fetchDataFromService E c content tr
            = (Ok (JArr []),
               (tr ++ [fetch_event c content]) ++ [ConsoleError msg]))
    /\ (forall response fields e,
          Config.useOllama c = true ->
          service_answer E c content = Ok response ->
          Response.ok response = true ->
          Response.json response = Ok (JObj fields) ->
          Env.JSON_parse E (field "response" fields) = Throw e ->
          exists msg,
            fetchDataFromService E c content tr
            = (Ok (JArr []),
               (tr ++ [fetch_event c content]) ++ [ConsoleError msg])).
Proof.
  intros E c content tr. repeat split.
  - intros e He. by apply (ServiceFacts.network_failure E c content e).
  - intros response Ha Hok. by apply ServiceFacts.http_error.
  - intros response e Ha Hok Hj.
    by apply (ServiceFacts.body_not_json E c content e response).
  - intros response fields Hu Ha Hok Hj Hc.
    eapply (ServiceFacts.parse_failure E c content _ response); try done.
    unfold read_highlights, bind, lift. rewrite Hj, Hu. simpl.
    rewrite Hc. reflexivity.
  - intros response fields e Hu Ha Hok Hj Hp.
    by apply (ServiceFacts.text_not_json E c content e response fields).
Qed.

(** The test of the suite for an HTTP error, with status 500. *)
Lemma fetchDataFromService_degrades_witness :
  fetchDataFromService
    (Samples.env (Ok (Response.mk false 500 (Throw "no body"))))
    (Samples.config false) "PR1: ..." []
  = (Ok (JArr []),
     ([] ++ [fetch_event (Samples.config false) "PR1: ..."])
     ++ [ConsoleError ("HTTP error! Status: " +:+ pretty 500)]).
Proof.
  exact (proj1 (proj2 (fetchDataFromService_degrades
                         (Samples.env (Ok (Response.mk false 500 (Throw "no body"))))
                         (Samples.config false) "PR1: ..." []))
               (Response.mk false 500 (Throw "no body")) eq_refl eq_refl).
Defined.

(** X11. A well-formed answer gives the highlights, with nothing logged:
    from a service of the Ollama kind, the array [prs] of the object that
    [JSON.parse] reads from the text [response]; from a service of the
    chat-completion kind, the array [prs] of the object read from
    [choices[0].message.content]. *)
Theorem fetchDataFromService_well_formed :
  forall (E : Env.t) (c : Config.t) (content text : string)
         (response : Response.t) (fields rest : list (string * jsval))
         (prs : list jsval) (tr : list event),
    service_answer E c content = Ok response ->
    Response.ok response = true ->
    Response.json response = Ok (JObj fields) ->
    Env.JSON_parse E (JStr text) = Ok (JObj rest) ->
    field "prs" rest = JArr prs ->
    (Config.useOllama c = true ->
     field "response" fields = JStr text ->
     fetchDataFromService E c content tr
     = (Ok (JArr prs), tr ++ [fetch_event c content]))
    /\ (forall (choice message : list (string * jsval)) (choices : list jsval),
          Config.useOllama c = false ->
          field "choices" fields = JArr (JObj choice :: choices) ->
          field "message" choice = JObj message ->
          field "content" message = JStr text ->
          fetchDataFromService E c content tr
          = (Ok (JArr prs), tr ++ [fetch_event c content])).
Proof.
  intros E c content text response fields rest prs tr Ha Hok Hj Hp Hprs.
  split.
  - intros Hu Hf.
    by apply (ServiceFacts.ollama_success E c content text response fields rest).
  - intros choice message choices Hu Hc Hm Ht.
    by apply (ServiceFacts.chat_success E c content text response fields
                choice message rest choices).
Qed.

(** The test of the suite for the chat-completion kind. *)
Lemma fetchDataFromService_well_formed_witness :
  fetchDataFromService
    (Samples.env (Ok (Samples.chat_answer Samples.highlights_json)))
    (Samples.config false) "PR1: ..." []
  = (Ok (JArr Samples.hlPRs), [] ++ [fetch_event (Samples.config false) "PR1: ..."]).
Proof.
  exact (proj2 (fetchDataFromService_well_formed
                  (Samples.env (Ok (Samples.chat_answer Samples.highlights_json)))
                  (Samples.config false) "PR1: ..." Samples.highlights_json
                  (Samples.chat_answer Samples.highlights_json)
                  [("choices",
                    JArr [JObj [("message",
                                 JObj [("content", JStr Samples.highlights_json)])]])]
                  [("prs", JArr Samples.hlPRs)] Samples.hlPRs []
                  eq_refl eq_refl eq_refl eq_refl eq_refl)
               [("message", JObj [("content", JStr Samples.highlights_json)])]
               [("content", JStr Samples.highlights_json)] []
               eq_refl eq_refl eq_refl eq_refl).
Defined.

(** ** References to issues, continued *)

(** X12. What the fetched issue can do to [includeDataFromIssue], for a
    pull request whose body has a reference: when the fetch is rejected the
    error goes on to the caller; when the answer has no data the pull
    request comes back unchanged; when the issue has no body (it is
    [null]) the text "null" is put in front of the body.  In each case the
    issue was asked for once. *)
Theorem includeDataFromIssue_fetch_outcomes :
  forall (E : Env.t) (owner repo : string) (pr : Issue.t) (tr : list event)
         (b d : string),
    Issue.body pr = Some b ->
    first_reference b = Some d ->
    (forall e, Env.issues_get E owner repo (Some d) = Throw e ->
       includeDataFromIssue E owner repo pr tr
       = (Throw e, tr ++ [IssuesGet owner repo (Some d)]))
    /\ (Env.issues_get E owner repo (Some d) = Ok None ->
        includeDataFromIssue E owner repo pr tr
        = (Ok pr, tr ++ [IssuesGet owner repo (Some d)]))
    /\ (forall data, Env.issues_get E owner repo (Some d) = Ok (Some data) ->
          Issue.body data = None ->
          includeDataFromIssue E owner repo pr tr
          = (Ok (Issue.with_body pr (Some ("null" +:+ b))),
             tr ++ [IssuesGet owner repo (Some d)])).
Proof.
  intros E owner repo pr tr b d Hb Hd.
  rewrite ReferenceFacts.includeDataFromIssue_eq, Hb. simpl. rewrite Hd.
  split; [|split].
  - by intros e ->.
  - by intros ->.
  - by intros data -> ->.
Qed.

(** A reference to an issue that the repository has not. *)
Lemma includeDataFromIssue_fetch_outcomes_witness :
  includeDataFromIssue (Samples.env (Throw "offline")) "test-org" "test-repo"
    MoreSamples.pr_dangling []
  = (Throw "HttpError: Not Found",
     [] ++ [IssuesGet "test-org" "test-repo" (Some "77")]).
Proof.
  exact (proj1 (includeDataFromIssue_fetch_outcomes
                  (Samples.env (Throw "offline")) "test-org" "test-repo"
                  MoreSamples.pr_dangling [] "Closes #77" "77" eq_refl eq_refl)
               "HttpError: Not Found" eq_refl).
Defined.

(** ** The changelog built by the loop of [generate], continued *)

Module ObjFacts.
Section ObjFacts.
Context {V : Type}.

Lemma obj_get_None (o : list (string * V)) (k : string) :
  Obj.get o k = None <-> ~ In k (map fst o).
Proof.
  induction o as [|[k' v'] o IH]; simpl; [tauto|].
  destruct (String.eqb_spec k' k) as [->|Hne]; [split; [done|tauto]|].
  rewrite IH. tauto.
Qed.

Lemma obj_keys_set (o : list (string * V)) (k : string) (v : V) :
  map fst (Obj.set o k v)
  = match Obj.get o k with
    | Some _ => map fst o
    | None => map fst o ++ [k]
    end.
Proof.
  induction o as [|[k' v'] o IH]; simpl; [done|].
  destruct (String.eqb_spec k' k) as [->|Hk]; simpl; [done|].
  rewrite IH. by destruct (Obj.get o k).
Qed.

Lemma obj_get_seen (o : list (string * V)) (k : string) :
  existsb (String.eqb k) (map fst o)
  = match Obj.get o k with Some _ => true | None => false end.
Proof.
  induction o as [|[k' v'] o IH]; simpl; [done|].
  rewrite (String.eqb_sym k k').
  destruct (String.eqb k' k); simpl; [done|apply IH].
Qed.

Lemma obj_set_Forall (P : string * V -> Prop) (o : list (string * V))
    (k : string) (v : V) :
  P (k, v) -> Forall P o -> Forall P (Obj.set o k v).
Proof.
  intros Hv Ho. induction Ho as [|[k' v'] o Hkv Ho IH]; simpl.
  - by repeat constructor.
  - destruct (String.eqb_spec k' k) as [->|Hk]; constructor; done.
Qed.

Lemma obj_get_Forall (P : string * V -> Prop) (o : list (string * V))
    (k : string) (v : V) :
  Forall P o -> Obj.get o k = Some v -> P (k, v).
Proof.
  intros Ho. induction Ho as [|[k' v'] o Hkv Ho IH]; simpl; [done|].
  destruct (String.eqb_spec k' k) as [->|Hk]; [by intros [= <-]|done].
Qed.

Lemma obj_set_set (o : list (string * V)) (k : string) (v v' : V) :
  Obj.set (Obj.set o k v) k v' = Obj.set o k v'.
Proof.
  induction o as [|[k0 v0] o IH]; simpl; [by rewrite String.eqb_refl|].
  destruct (String.eqb k0 k) eqn:He; simpl; rewrite He; [done|by rewrite IH].
Qed.

End ObjFacts.
End ObjFacts.

Module MoreChangelogFacts.
Import ChangelogFacts ObjFacts.

Lemma categorize_in_prefixes (pr : Issue.t) (category : string) :
  categorize pr = Some category -> In category prefixes.
Proof.
  rewrite TitleFacts.categorize_eq.
  destruct (Issue.user pr); [|done].
  destruct (List.find _ _) as [kw|] eqn:Hf; [|done].
  apply List.find_some in Hf as [Hin _].
  destruct (contains_ci _ _); intros [= <-]; [|done].
  unfold prefixes. simpl. tauto.
Qed.

(** One turn of the loop on a pull request that has a category: the keys
    afterwards, and the entries still well formed. *)
Lemma keys_after_push (o o2 : list (string * PRCategory.t))
    (category : string) (prInfo : PRInfo.t) (tr tr2 : list event) :
  push_pr (ensure_category o category) category prInfo tr = (Ok o2, tr2) ->
  map fst o2 = see (map fst o) category
  /\ (well_formed_categories o -> well_formed_categories o2).
Proof.
  unfold push_pr, ensure_category, see. rewrite obj_get_seen.
  destruct (Obj.get o category) as [cat|] eqn:Hg.
  - rewrite Hg. intros [= <- <-]. split.
    + by rewrite obj_keys_set, Hg.
    + intros Hwf. apply obj_set_Forall; [|done]. simpl.
      destruct (obj_get_Forall _ _ _ _ Hwf Hg) as [Hc _]. simpl in Hc.
      split; [done|]. by destruct (PRCategory.prs cat).
  - rewrite FirstTimeFacts.get_set_eq. simpl. intros [= <- <-].
    rewrite obj_set_set. split.
    + by rewrite obj_keys_set, Hg.
    + intros Hwf. by apply obj_set_Forall.
Qed.

Lemma assigned_keys (E : Env.t) (c : Config.t) :
  forall (prs : list Issue.t) (o o' : list (string * PRCategory.t))
         (prs' : list Issue.t) (tr tr' : list event),
    categorize_loop E c prs o tr = (Ok (o', prs'), tr') ->
    map fst o' = fold_left see (assigned prs) (map fst o)
    /\ (well_formed_categories o -> well_formed_categories o').
Proof.
  induction prs as [|pr prs IH]; intros o o' prs' tr tr' Hrun.
  - by injection Hrun as <- <- <-.
  - cbn [categorize_loop assigned] in *.
    destruct (categorize pr) as [category|] eqn:Hcat.
    + unfold bind at 1 in Hrun.
      destruct (includeDataFromIssue E _ _ pr tr) as [[pr1| |] tr1]; try done.
      unfold bind at 1 in Hrun.
      destruct (push_pr _ category _ tr1) as [[o2| |] tr2] eqn:Hpush; try done.
      unfold bind at 1 in Hrun.
      destruct (categorize_loop E c prs o2 tr2) as [[[o3 prs3]| |] tr3] eqn:Hrest;
        try done.
      injection Hrun as <- <- <-.
      destruct (keys_after_push _ _ _ _ _ _ Hpush) as [Hkeys Hwf].
      destruct (IH _ _ _ _ _ Hrest) as [Hk3 Hwf3].
      cbn [fold_left]. rewrite Hk3, Hkeys. split; [done|auto].
    + unfold bind at 1 in Hrun.
      destruct (categorize_loop E c prs o tr) as [[[o3 prs3]| |] tr3] eqn:Hrest;
        try done.
      injection Hrun as <- <- <-. by apply (IH _ _ _ _ _ Hrest).
Qed.

Lemma assigned_in_prefixes (prs : list Issue.t) :
  Forall (fun category => In category prefixes) (assigned prs).
Proof.
  induction prs as [|pr prs IH]; simpl; [constructor|].
  destruct (categorize pr) eqn:Hc; [|done].
  constructor; [by eapply categorize_in_prefixes|done].
Qed.

Lemma first_seen_subset (l seen : list string) (P : string -> Prop) :
  Forall P l -> Forall P seen -> Forall P (fold_left see l seen).
Proof.
  intros Hl. revert seen. induction Hl as [|x l Hx Hl IH]; intros seen Hs; [done|].
  simpl. apply IH. unfold see. destruct (existsb _ _); [done|].
  apply Forall_app. by split; [|repeat constructor].
Qed.

(** The text in front of a body: what [includeDataFromIssue] can do to a
    pull request. *)
Lemma includeDataFromIssue_enriched (E : Env.t) (owner repo : string)
    (pr pr' : Issue.t) (tr tr' : list event) :
  includeDataFromIssue E owner repo pr tr = (Ok pr', tr') ->
  enriched pr pr'.
Proof.
  rewrite ReferenceFacts.includeDataFromIssue_eq.
  assert (Hsame : enriched pr pr).
  { repeat split. exists "". by destruct (Issue.body pr). }
  destruct (Issue.body pr) as [b|] eqn:Hb; simpl; [|by intros [= <- <-]].
  destruct (first_reference b) as [d|]; [|by intros [= <- <-]].
  destruct (Env.issues_get E owner repo (Some d)) as [[data|]| |]; try done;
    intros [= <- <-]; [|done].
  repeat split. exists (str_of (Issue.body data)). simpl. by rewrite Hb.
Qed.

Lemma categorize_loop_enriched (E : Env.t) (c : Config.t) :
  forall (prs : list Issue.t) (o o' : list (string * PRCategory.t))
         (prs' : list Issue.t) (tr tr' : list event),
    categorize_loop E c prs o tr = (Ok (o', prs'), tr') ->
    Forall2 (fun p p' => enriched p p' /\ (categorize p = None -> p' = p))
            prs prs'.
Proof.
  induction prs as [|pr prs IH]; intros o o' prs' tr tr' Hrun.
  - injection Hrun as <- <- <-. constructor.
  - cbn [categorize_loop] in Hrun.
    destruct (categorize pr) as [category|] eqn:Hcat.
    + unfold bind at 1 in Hrun.
      destruct (includeDataFromIssue E _ _ pr tr) as [[pr1| |] tr1] eqn:Hinc;
        try done.
      unfold bind at 1 in Hrun.
      destruct (push_pr _ category _ tr1) as [[o2| |] tr2] eqn:Hpush; try done.
      unfold bind at 1 in Hrun.
      destruct (categorize_loop E c prs o2 tr2) as [[[o3 prs3]| |] tr3] eqn:Hrest;
        try done.
      injection Hrun as <- <- <-. constructor; [|exact (IH _ _ _ _ _ Hrest)].
      split; [exact (includeDataFromIssue_enriched _ _ _ _ _ _ _ Hinc)|congruence].
    + unfold bind at 1 in Hrun.
      destruct (categorize_loop E c prs o tr) as [[[o3 prs3]| |] tr3] eqn:Hrest;
        try done.
      injection Hrun as <- <- <-. constructor; [|exact (IH _ _ _ _ _ Hrest)].
      split; [|done]. repeat split. exists "". by destruct (Issue.body pr).
Qed.

Lemma enriched_is_feature (p p' : Issue.t) :
  enriched p p' -> is_feature p' = is_feature p.
Proof.
  intros (Ht & _ & _ & _ & _ & Hp & _). unfold is_feature. by rewrite Ht, Hp.
Qed.

(** The enrichment that fails stops the loop. *)
Lemma categorize_loop_stops (E : Env.t) (c : Config.t) (pr : Issue.t)
    (b d e : string) :
  categorize pr <> None ->
  Issue.body pr = Some b -> first_reference b = Some d ->
  Env.issues_get E (Config.organization c) (Config.repo c) (Some d) = Throw e ->
  forall (prs : list Issue.t) (o : list (string * PRCategory.t))
         (tr : list event),
    In pr prs ->
    forall r, (categorize_loop E c prs o tr).1 <> Ok r.
Proof.
  intros Hcat Hb Hd He.
  induction prs as [|p prs IH]; intros o tr Hin r; [destruct Hin|].
  cbn [categorize_loop].
  destruct Hin as [->|Hin].
  - destruct (categorize pr) as [category|]; [|done].
    unfold bind at 1.
    rewrite ReferenceFacts.includeDataFromIssue_eq, Hb. simpl. by rewrite Hd, He.
  - destruct (categorize p) as [category|].
    + unfold bind at 1.
      destruct (includeDataFromIssue E _ _ p tr) as [[p1| |] tr1]; try done.
      unfold bind at 1. destruct (push_pr _ _ _ _) as [[o2| |] tr2]; try done.
      unfold bind at 1. specialize (IH o2 tr2 Hin).
      destruct (categorize_loop E c prs o2 tr2) as [[r3| |] tr3]; try done.
      by specialize (IH r3).
    + unfold bind at 1. specialize (IH o tr Hin).
      destruct (categorize_loop E c prs o tr) as [[r3| |] tr3]; try done.
      by specialize (IH r3).
Qed.

(** The loop comes to an end, one way or the other, when every request
    for an issue is answered. *)
Lemma categorize_loop_ends (E : Env.t) (c : Config.t) :
  (forall n, Env.issues_get E (Config.organization c) (Config.repo c) n
             <> OutOfFuel) ->
  forall (prs : list Issue.t) (o : list (string * PRCategory.t))
         (tr : list event),
    (categorize_loop E c prs o tr).1 <> OutOfFuel.
Proof.
  intros Hans. induction prs as [|p prs IH]; intros o tr; [done|].
  cbn [categorize_loop]. destruct (categorize p) as [category|].
  - unfold bind at 1.
    rewrite ReferenceFacts.includeDataFromIssue_eq.
    assert (Hrest : forall p1 tr1,
              (let (o0, tr') :=
                 push_pr (ensure_category o category) category (prInfo_of p) tr1 in
               match o0 with
               | Ok a =>
                   (await r <~ categorize_loop E c prs a;; ret (r.1, p1 :: r.2)) tr'
               | Throw e => (Throw e, tr')
               | OutOfFuel => (OutOfFuel, tr')
               end).1 <> OutOfFuel).
    { intros p1 tr1.
      destruct (push_pr_ok (ensure_category o category) category (prInfo_of p)
                  tr1 (ensure_is_there o category)) as (o2 & -> & _).
      unfold bind at 1. specialize (IH o2 tr1).
      by destruct (categorize_loop E c prs o2 tr1) as [[r3| |] tr3]. }
    destruct (Issue.body p ≫= first_reference) as [d|]; [|apply Hrest].
    specialize (Hans (Some d)).
    destruct (Env.issues_get E _ _ (Some d)) as [[data|]| |]; try done;
      apply Hrest.
  - unfold bind at 1. specialize (IH o tr).
    by destruct (categorize_loop E c prs o tr) as [[r3| |] tr3].
Qed.

Lemma referenced_cons (p : Issue.t) (prs : list Issue.t) :
  referenced (p :: prs)
  = match categorize p with
    | Some _ =>
        match Issue.body p ≫= first_reference with
        | Some d => d :: referenced prs
        | None => referenced prs
        end
    | None => referenced prs
    end.
Proof.
  unfold referenced. simpl. by destruct (categorize p).
Qed.

(** The requests of the loop: one for each referenced issue, in order,
    up to the point where the loop stops. *)
Lemma categorize_loop_trace (E : Env.t) (c : Config.t) :
  forall (prs : list Issue.t) (o : list (string * PRCategory.t))
         (tr tr' : list event)
         (res : outcome (list (string * PRCategory.t) * list Issue.t)),
    categorize_loop E c prs o tr = (res, tr') ->
    exists ds,
      ds `prefix_of` referenced prs
      /\ tr' = tr ++ issue_requests (Config.organization c) (Config.repo c) ds
      /\ (forall r, res = Ok r -> ds = referenced prs).
Proof.
  induction prs as [|p prs IH]; intros o tr tr' res Hrun.
  - injection Hrun as <- <-. exists []. simpl. by rewrite app_nil_r.
  - cbn [categorize_loop] in Hrun. rewrite referenced_cons.
    destruct (categorize p) as [category|].
    + assert (Hrest : forall p1 tr1,
                (await map2 <~
                   push_pr (ensure_category o category) category (prInfo_of p);;
                 await r <~ categorize_loop E c prs map2;;
                 ret (r.1, p1 :: r.2)) tr1 = (res, tr') ->
                exists ds,
                  ds `prefix_of` referenced prs
                  /\ tr' = tr1 ++ issue_requests (Config.organization c)
                                    (Config.repo c) ds
                  /\ (forall r, res = Ok r -> ds = referenced prs)).
      { intros p1 tr1 H. unfold bind at 1 in H.
        destruct (push_pr_ok (ensure_category o category) category (prInfo_of p)
                    tr1 (ensure_is_there o category)) as (o2 & Hpush & _).
        rewrite Hpush in H. unfold bind at 1 in H.
        destruct (categorize_loop E c prs o2 tr1) as [res3 tr3] eqn:Hl.
        destruct (IH _ _ _ _ Hl) as (ds & Hpre & Htr & Hok).
        exists ds. split; [done|].
        destruct res3 as [r3| |]; injection H as <- <-; split; try done.
        intros _ _. by apply (Hok r3). }
      unfold bind at 1 in Hrun.
      rewrite ReferenceFacts.includeDataFromIssue_eq in Hrun.
      destruct (Issue.body p ≫= first_reference) as [d|];
        [|by apply (Hrest p tr)].
      destruct (Env.issues_get E _ _ (Some d)) as [[data|]| |].
      * destruct (Hrest _ _ Hrun) as (ds & Hpre & Htr & Hok).
        exists (d :: ds). split; [by apply prefix_cons|].
        split; [by rewrite Htr, <- app_assoc|].
        intros r Hr. f_equal. by apply (Hok r).
      * destruct (Hrest _ _ Hrun) as (ds & Hpre & Htr & Hok).
        exists (d :: ds). split; [by apply prefix_cons|].
        split; [by rewrite Htr, <- app_assoc|].
        intros r Hr. f_equal. by apply (Hok r).
      * injection Hrun as <- <-.
        exists [d]. split; [by apply prefix_cons, prefix_nil|]. by split.
      * injection Hrun as <- <-.
        exists [d]. split; [by apply prefix_cons, prefix_nil|]. by split.
    + unfold bind at 1 in Hrun.
      destruct (categorize_loop E c prs o tr) as [res3 tr3] eqn:Hl.
      destruct (IH _ _ _ _ Hl) as (ds & Hpre & Htr & Hok).
      exists ds. split; [done|].
      destruct res3 as [r3| |]; injection Hrun as <- <-; split; try done.
      intros _ _. by apply (Hok r3).
Qed.

Lemma strip_is_feature (p : Issue.t) :
  is_feature (strip_screenshot p) = is_feature p.
Proof. reflexivity. Qed.

Lemma features_of_enriched {A : Type} (f : Issue.t -> A) (prs prs' : list Issue.t) :
  (forall p p', enriched p p' -> f (strip_screenshot p') = f (strip_screenshot p)) ->
  Forall2 enriched prs prs' ->
  map f (features_of prs') = map f (features_of prs).
Proof.
  intros Hf H. unfold features_of.
  induction H as [|p p' prs prs' Hp _ IH]; [done|].
  cbn [map List.filter]. rewrite !strip_is_feature, (enriched_is_feature _ _ Hp).
  destruct (is_feature p); [|done]. cbn [map]. by rewrite IH, (Hf _ _ Hp).
Qed.

End MoreChangelogFacts.

(** X13. The changelog by category: when the loop of [generate] comes to
    its end, the pull requests filed under a category are exactly those of
    the milestone to which the categorizer gives this category, in the
    order of the milestone; a pull request that is given no category is in
    no category. *)
Theorem changelog_by_category :
  forall (E : Env.t) (c : Config.t) (prs prs' : list Issue.t)
         (o : list (string * PRCategory.t)) (tr tr' : list event),
    categorize_loop E c prs [] tr = (Ok (o, prs'), tr') ->
    forall category,
      filed_under o category
      = map prInfo_of (List.filter (in_category category) prs).
Proof.
  intros E c prs prs' o tr tr' Hrun category.
  by destruct (ChangelogFacts.categorize_loop_changelog E c prs [] o prs' tr tr'
                 Hrun) as [_ ->].
Qed.

Lemma changelog_by_category_witness :
  categorize_loop (Samples.env (Throw "offline")) (Samples.config false)
    [Samples.prNew2; MoreSamples.botPR; Samples.prNew1] [] []
  = (Ok ([("fix", PRCategory.mk "fix" [prInfo_of Samples.prNew2]);
          ("chore", PRCategory.mk "chore" [prInfo_of MoreSamples.botPR]);
          ("feat", PRCategory.mk "feat" [prInfo_of Samples.prNew1])],
         [Samples.prNew2; MoreSamples.botPR; Samples.prNew1]), [])
  /\ filed_under
       [("fix", PRCategory.mk "fix" [prInfo_of Samples.prNew2]);
        ("chore", PRCategory.mk "chore" [prInfo_of MoreSamples.botPR]);
        ("feat", PRCategory.mk "feat" [prInfo_of Samples.prNew1])] "feat"
     = map prInfo_of
         (List.filter (in_category "feat")
            [Samples.prNew2; MoreSamples.botPR; Samples.prNew1]).
Proof.
  assert (Hrun : categorize_loop (Samples.env (Throw "offline"))
                   (Samples.config false)
                   [Samples.prNew2; MoreSamples.botPR; Samples.prNew1] [] []
                 = (Ok ([("fix", PRCategory.mk "fix" [prInfo_of Samples.prNew2]);
                         ("chore", PRCategory.mk "chore" [prInfo_of MoreSamples.botPR]);
                         ("feat", PRCategory.mk "feat" [prInfo_of Samples.prNew1])],
                        [Samples.prNew2; MoreSamples.botPR; Samples.prNew1]), []))
    by reflexivity.
  split; [exact Hrun|].
  exact (changelog_by_category _ _ _ _ _ _ _ Hrun "feat").
Defined.

(** X14. The categories of the changelog: when the loop of [generate]
    comes to its end, the changelog lists each category that was given to
    some pull request once, in the order in which the categories were
    first given; each is one of chore, feat, docs, fix, refactor, test, ci,
    and none is empty. *)
Theorem changelog_categories :
  forall (E : Env.t) (c : Config.t) (prs prs' : list Issue.t)
         (o : list (string * PRCategory.t)) (tr tr' : list event),
    categorize_loop E c prs [] tr = (Ok (o, prs'), tr') ->
    map PRCategory.category (Obj.values o) = first_seen (assigned prs)
    /\ Forall (fun cat => In (PRCategory.category cat) prefixes
                          /\ PRCategory.prs cat <> []) (Obj.values o).
Proof.
  intros E c prs prs' o tr tr' Hrun.
  destruct (MoreChangelogFacts.assigned_keys E c prs [] o prs' tr tr' Hrun)
    as [Hkeys Hwf].
  specialize (Hwf (Forall_nil_2 _)).
  pose proof (MoreChangelogFacts.first_seen_subset (assigned prs) []
                (fun k => In k prefixes)
                (MoreChangelogFacts.assigned_in_prefixes prs)
                (Forall_nil_2 _)) as Hin.
  simpl in Hkeys. rewrite <- Hkeys in Hin.
  assert (Hval : Obj.values o = map snd o).
  { apply FirstTimeFacts.values_unindexed.
    clear Hkeys Hrun Hwf. induction o as [|[k v] o IH]; [constructor|].
    simpl in Hin. apply Forall_cons in Hin as [Hk Hin].
    constructor; [|by apply IH]. simpl.
    repeat (destruct Hk as [<-|Hk]; [reflexivity|]). destruct Hk. }
  rewrite Hval.
  assert (Hnames : map PRCategory.category (map snd o) = map fst o).
  { rewrite map_map.
    clear Hkeys Hrun Hin Hval. induction Hwf as [|e o [He _] _ IH]; [done|].
    simpl. by rewrite He, IH. }
  split; [by rewrite Hnames, Hkeys|].
  clear Hkeys Hnames Hrun Hval. induction Hwf as [|e o [He Hp] _ IH]; [constructor|].
  simpl in Hin. apply Forall_cons in Hin as [Hin1 Hin2].
  constructor; [|by apply IH]. by rewrite He.
Qed.

Lemma changelog_categories_witness :
  map PRCategory.category
    (Obj.values [("fix", PRCategory.mk "fix" [prInfo_of Samples.prNew2]);
                 ("chore", PRCategory.mk "chore" [prInfo_of MoreSamples.botPR]);
                 ("feat", PRCategory.mk "feat" [prInfo_of Samples.prNew1])])
  = first_seen (assigned [Samples.prNew2; MoreSamples.botPR; Samples.prNew1])
  /\ Forall (fun cat => In (PRCategory.category cat) prefixes
                        /\ PRCategory.prs cat <> [])
       (Obj.values [("fix", PRCategory.mk "fix" [prInfo_of Samples.prNew2]);
                    ("chore", PRCategory.mk "chore" [prInfo_of MoreSamples.botPR]);
                    ("feat", PRCategory.mk "feat" [prInfo_of Samples.prNew1])]).
Proof.
  exact (changelog_categories (Samples.env (Throw "offline"))
           (Samples.config false)
           [Samples.prNew2; MoreSamples.botPR; Samples.prNew1]
           [Samples.prNew2; MoreSamples.botPR; Samples.prNew1] _ [] []
           eq_refl).
Defined.

(** X15. What the enrichment leaves alone: when the loop of [generate]
    comes to its end, each pull request of the list it hands on is the one
    of the milestone at that place, with the same title, author, number,
    links, date and marker, and a body that is the old one with some text
    in front; a pull request without a category is handed on as it
    is.  So the pull requests selected for the highlights are the same, by
    title and number, as if nothing had been enriched. *)
Theorem enrichment_keeps_selection :
  forall (E : Env.t) (c : Config.t) (prs prs' : list Issue.t)
         (o o' : list (string * PRCategory.t)) (tr tr' : list event),
    categorize_loop E c prs o tr = (Ok (o', prs'), tr') ->
    Forall2 (fun p p' => enriched p p' /\ (categorize p = None -> p' = p))
            prs prs'
    /\ map Issue.title (features_of prs') = map Issue.title (features_of prs)
    /\ map Issue.number (features_of prs') = map Issue.number (features_of prs).
Proof.
  intros E c prs prs' o o' tr tr' Hrun.
  pose proof (MoreChangelogFacts.categorize_loop_enriched E c prs o o' prs'
                tr tr' Hrun) as H.
  split; [done|].
  assert (He : Forall2 enriched prs prs').
  { eapply Forall2_impl; [exact H|]. by intros p p' [? _]. }
  split; apply MoreChangelogFacts.features_of_enriched; try done.
  - by intros p p' (Ht & _).
  - by intros p p' (_ & _ & Hn & _).
Qed.

(** A pull request with a reference, one that is skipped, and one
    without a reference. *)
Lemma enrichment_keeps_selection_witness :
  Forall2 (fun p p' => enriched p p' /\ (categorize p = None -> p' = p))
    [Samples.pr_closes; MoreSamples.plainIssue; Samples.pr_Feat]
    [Issue.with_body Samples.pr_closes (Some "Issue body.Closes #123. PR body.");
     MoreSamples.plainIssue; Samples.pr_Feat]
  /\ map Issue.title
       (features_of
          [Issue.with_body Samples.pr_closes
             (Some "Issue body.Closes #123. PR body.");
           MoreSamples.plainIssue; Samples.pr_Feat])
     = map Issue.title
         (features_of [Samples.pr_closes; MoreSamples.plainIssue; Samples.pr_Feat])
  /\ map Issue.number
       (features_of
          [Issue.with_body Samples.pr_closes
             (Some "Issue body.Closes #123. PR body.");
           MoreSamples.plainIssue; Samples.pr_Feat])
     = map Issue.number
         (features_of [Samples.pr_closes; MoreSamples.plainIssue; Samples.pr_Feat]).
Proof.
  exact (enrichment_keeps_selection (Samples.env (Throw "offline"))
           (Samples.config false)
           [Samples.pr_closes; MoreSamples.plainIssue; Samples.pr_Feat]
           _ [] _ [] _ eq_refl).
Defined.

(** X16. An issue that cannot be fetched stops the run: when the
    milestone has a pull request with a category whose body refers to an
    issue, and the request for that issue is rejected, [generate] throws
    (every request for an issue being answered one way or the other).
    After the contributors it has only asked for referenced issues, in
    their order; the highlights service is never asked. *)
Theorem generate_stops_on_enrichment_error :
  forall (E : Env.t) (c : Config.t) (fuel : nat) (prs : list Issue.t)
         (contributors : list Contributor.t) (tr tr1 : list event)
         (pr : Issue.t) (b d e : string),
    getPRsByMilestone E fuel (Config.organization c) (Config.repo c)
      (Config.milestone c) tr = (Ok prs, tr1) ->
    Env.listContributors E (Config.organization c) (Config.repo c) 100
    = Ok contributors ->
    (forall n, Env.issues_get E (Config.organization c) (Config.repo c) n
               <> OutOfFuel) ->
    In pr prs -> categorize pr <> None ->
    Issue.body pr = Some b -> first_reference b = Some d ->
    Env.issues_get E (Config.organization c) (Config.repo c) (Some d) = Throw e ->
    exists e' ds,
      ds `prefix_of` referenced prs
      /\ generate E c fuel tr
         = (Throw e',
            (tr1 ++ [ListContributors (Config.organization c) (Config.repo c) 100])
            ++ issue_requests (Config.organization c) (Config.repo c) ds).
Proof.
  intros E c fuel prs contributors tr tr1 pr b d e H1 Hl Hans Hin Hcat Hb Hd He.
  unfold generate. unfold bind at 1. rewrite H1.
  unfold bind at 1, getFirstTimeContributors at 1, bind at 1, request at 1.
  rewrite Hl. unfold ret at 1.
  unfold bind at 1.
  pose proof (MoreChangelogFacts.categorize_loop_stops E c pr b d e Hcat Hb Hd
                He prs [] (tr1 ++ [ListContributors (Config.organization c)
                                    (Config.repo c) 100]) Hin) as Hstop.
  pose proof (MoreChangelogFacts.categorize_loop_ends E c Hans prs []
                (tr1 ++ [ListContributors (Config.organization c)
                           (Config.repo c) 100])) as Hend.
  destruct (categorize_loop E c prs [] _) as [res tr3] eqn:Hrun.
  destruct (MoreChangelogFacts.categorize_loop_trace E c _ _ _ _ _ Hrun)
    as (ds & Hpre & -> & _).
  destruct res as [r|e'|]; simpl in *.
  - by specialize (Hstop r).
  - by exists e', ds.
  - done.
Qed.

Lemma generate_stops_on_enrichment_error_witness :
  exists e' ds,
    ds `prefix_of` referenced [MoreSamples.pr_dangling]
    /\ generate (MoreSamples.env_with_pages MoreSamples.dangling_pages)
         (Samples.config false) 5 []
       = (Throw e',
          ([ListMilestones "test-org" "test-repo";
            ListForRepo "test-org" "test-repo" "1" "closed" 100 1;
            ListForRepo "test-org" "test-repo" "1" "closed" 100 2]
           ++ [ListContributors (Config.organization (Samples.config false))
                 (Config.repo (Samples.config false)) 100])
          ++ issue_requests (Config.organization (Samples.config false))
               (Config.repo (Samples.config false)) ds).
Proof.
  apply (generate_stops_on_enrichment_error
           (MoreSamples.env_with_pages MoreSamples.dangling_pages)
           (Samples.config false) 5 [MoreSamples.pr_dangling]
           [Contributor.mk (Some "newUser") 2] []
           [ListMilestones "test-org" "test-repo";
            ListForRepo "test-org" "test-repo" "1" "closed" 100 1;
            ListForRepo "test-org" "test-repo" "1" "closed" 100 2]
           MoreSamples.pr_dangling "Closes #77" "77" "HttpError: Not Found").
  - reflexivity.
  - reflexivity.
  - intros [n|]; simpl; [destruct (String.eqb n "123")|]; discriminate.
  - by left.
  - discriminate.
  - reflexivity.
  - reflexivity.
  - reflexivity.
Defined.

(** X17. The issues that are asked for: when the loop of [generate] comes
    to its end, it has sent one request for each pull request that has a
    category and a body with a reference, for the issue of the first
    reference of the body as the milestone gave it, in the order of the
    milestone, and nothing else. *)
Theorem enrichment_requests :
  forall (E : Env.t) (c : Config.t) (prs prs' : list Issue.t)
         (o o' : list (string * PRCategory.t)) (tr tr' : list event),
    categorize_loop E c prs o tr = (Ok (o', prs'), tr') ->
    tr' = tr ++ issue_requests (Config.organization c) (Config.repo c)
                  (referenced prs).
Proof.
  intros E c prs prs' o o' tr tr' Hrun.
  destruct (MoreChangelogFacts.categorize_loop_trace E c _ _ _ _ _ Hrun)
    as (ds & _ & -> & Hok).
  by rewrite (Hok _ eq_refl).
Qed.

Lemma enrichment_requests_witness :
  [IssuesGet "test-org" "test-repo" (Some "123")]
  = [] ++ issue_requests (Config.organization (Samples.config false))
            (Config.repo (Samples.config false))
            (referenced [Samples.pr_closes; MoreSamples.plainIssue;
                         Samples.pr_Feat]).
Proof.
  exact (enrichment_requests (Samples.env (Throw "offline"))
           (Samples.config false)
           [Samples.pr_closes; MoreSamples.plainIssue; Samples.pr_Feat]
           _ [] _ [] _ eq_refl).
Defined.

(** ** The screenshot section *)

Module ScreenshotFacts.
Import Re ReFacts.

Lemma append_nil_r (s : string) : s +:+ "" = s.
Proof. induction s as [|a s IH]; [done|]. by rewrite ReferenceFacts.append_cons, IH. Qed.

Lemma length_drop (n : nat) (s : string) :
  String.length (Js.drop n s) = (String.length s - n)%nat.
Proof. revert s. induction n as [|n IH]; intros [|a s]; simpl; try done; lia. Qed.

Lemma take_all (n : nat) (s : string) :
  (String.length s <= n)%nat -> Js.take n s = s.
Proof.
  revert s. induction n as [|n IH]; intros [|a s]; simpl; try done; [lia|].
  intros H. rewrite IH; [done|lia].
Qed.

Lemma drop_all (n : nat) (s : string) :
  (String.length s <= n)%nat -> Js.drop n s = "".
Proof.
  revert s. induction n as [|n IH]; intros [|a s]; simpl; try done; [lia|].
  intros H. apply IH. lia.
Qed.

Lemma span_any_char (s : string) : span Js.any_char s = String.length s.
Proof. induction s as [|a s IH]; simpl; congruence. Qed.

Lemma startsWith_length (s w : string) :
  Js.startsWith s w = true -> (String.length w <= String.length s)%nat.
Proof.
  revert s. induction w as [|c w IH]; intros [|a s]; simpl; try done; [lia|].
  intros [_ H]%andb_true_iff. apply IH in H. lia.
Qed.

Lemma startsWith_split (s w : string) :
  Js.startsWith s w = true -> s = w +:+ Js.drop (String.length w) s.
Proof.
  revert s. induction w as [|c w IH]; intros [|a s]; simpl; try done.
  intros [Ha H]%andb_true_iff. apply Ascii.eqb_eq in Ha. subst a.
  rewrite ReferenceFacts.append_cons. f_equal. by apply IH.
Qed.

Lemma startsWith_append (w r : string) : Js.startsWith (w +:+ r) w = true.
Proof.
  induction w as [|c w IH]; [done|]. rewrite ReferenceFacts.append_cons. simpl.
  by rewrite Ascii.eqb_refl, IH.
Qed.

Lemma startsWith_of_take (n : nat) (s w : string) :
  Js.startsWith (Js.take n s) w = true -> Js.startsWith s w = true.
Proof.
  revert n s. induction w as [|c w IH]; intros n s; [done|].
  destruct n as [|n], s as [|a s]; simpl; try done.
  intros [Ha H]%andb_true_iff. rewrite Ha. simpl. by apply (IH n).
Qed.

Lemma index_cons (w : string) (a : ascii) (s : string) :
  index_of_substring w (String a s)
  = if Js.startsWith (String a s) w then Some 0%nat
    else S <$> index_of_substring w s.
Proof. reflexivity. Qed.

Lemma index_le (w s : string) (k : nat) :
  index_of_substring w s = Some k -> (k <= String.length s)%nat.
Proof.
  revert k. induction s as [|a s IH]; intros k.
  - simpl. destruct (Js.startsWith "" w); [|done]. intros [= <-]. done.
  - rewrite index_cons. destruct (Js.startsWith _ w); [intros [= <-]; simpl; lia|].
    destruct (index_of_substring w s) as [k'|]; [|done].
    intros [= <-]. specialize (IH k' eq_refl). simpl. lia.
Qed.

(** The index is that of an occurrence. *)
Lemma index_occurrence (w s : string) (k : nat) :
  index_of_substring w s = Some k ->
  Js.startsWith (Js.drop k s) w = true.
Proof.
  revert k. induction s as [|a s IH]; intros k.
  - simpl. destruct (Js.startsWith "" w) eqn:H; [|done]. by intros [= <-].
  - rewrite index_cons. destruct (Js.startsWith (String a s) w) eqn:H.
    + by intros [= <-].
    + destruct (index_of_substring w s) as [k'|]; [|done].
      intros [= <-]. simpl. by apply IH.
Qed.

(** There is an index when there is an occurrence. *)
Lemma index_of_occurrence (w s : string) :
  occurs_in w s -> is_Some (index_of_substring w s).
Proof.
  intros (before & after & ->).
  induction before as [|a before IH].
  - change ("" +:+ w +:+ after) with (w +:+ after).
    destruct after as [|x after], w as [|c w]; simpl; try done.
    + rewrite Ascii.eqb_refl. simpl.
      change (w +:+ "") with (w +:+ "").
      by rewrite startsWith_append.
    + rewrite Ascii.eqb_refl. simpl. by rewrite startsWith_append.
  - rewrite ReferenceFacts.append_cons, index_cons.
    destruct (Js.startsWith _ w); [done|].
    destruct IH as [k ->]. done.
Qed.

(** No occurrence before the index. *)
Lemma index_first (w s : string) (k : nat) :
  w <> "" ->
  index_of_substring w s = Some k -> ~ occurs_in w (Js.take k s).
Proof.
  intros Hw. revert k. induction s as [|a s IH]; intros k.
  - simpl. destruct w; [done|]. done.
  - rewrite index_cons. destruct (Js.startsWith (String a s) w) eqn:H.
    + intros [= <-]. simpl. intros (before & after & Heq).
      destruct before; [|done]. destruct w; done.
    + destruct (index_of_substring w s) as [k'|]; [|done].
      intros [= <-]. simpl. intros (before & after & Heq).
      destruct before as [|x before].
      * change ("" +:+ w +:+ after) with (w +:+ after) in Heq.
        assert (Hs : Js.startsWith (Js.take (S k') (String a s)) w = true).
        { simpl. rewrite Heq. apply startsWith_append. }
        apply startsWith_of_take in Hs. congruence.
      * rewrite ReferenceFacts.append_cons in Heq. injection Heq as _ Heq.
        apply (IH k' eq_refl). by exists before, after.
Qed.

(** The regular expression [/w[\s\S]*/] finds the first occurrence of
    [w] and takes everything from there. *)
Lemma search_to_the_end (w : string) :
  forall (s : string) (i : nat),
    search false (Cat (lit w) (Star Js.any_char)) i s
    = (fun k => mkres (i + k) (Js.drop k s) None) <$> index_of_substring w s.
Proof.
  assert (Hexec : forall s i,
            exec_at false (Cat (lit w) (Star Js.any_char)) i s
            = if Js.startsWith s w then Some (mkres i s None) else None).
  { intros s i. unfold exec_at. rewrite run_Cat, run_lit. cbn [rest pos cap1].
    rewrite looking_at_exact. destruct (Js.startsWith s w) eqn:H; [|done].
    rewrite run_Star. cbn [rest pos cap1].
    rewrite (star_total Js.any_char Some) by done.
    cbn [pos cap1]. rewrite span_any_char, length_drop.
    apply startsWith_length in H.
    rewrite take_all; [done|lia]. }
  induction s as [|a s IH]; intros i.
  - cbn [search]. rewrite Hexec. simpl.
    destruct (Js.startsWith "" w); [|done]. simpl. by rewrite Nat.add_0_r.
  - cbn [search]. rewrite Hexec, index_cons.
    destruct (Js.startsWith (String a s) w).
    + simpl. by rewrite Nat.add_0_r.
    + rewrite IH. destruct (index_of_substring w s) as [k|]; [|done].
      simpl. by rewrite Nat.add_succ_r.
Qed.

Lemma String_remove_to_the_end (w s : string) :
  String_remove s false (Cat (lit w) (Star Js.any_char)) = before_first w s.
Proof.
  unfold String_remove, String_match, before_first.
  rewrite search_to_the_end.
  destruct (index_of_substring w s) as [k|] eqn:Hk; [|done].
  cbn [fmap option_fmap option_map index m0]. rewrite length_drop.
  apply index_le in Hk.
  rewrite drop_all by (simpl; lia). apply append_nil_r.
Qed.

Lemma before_first_split (w s : string) :
  exists removed,
    s = before_first w s +:+ removed
    /\ (removed = "" \/ Js.startsWith removed w = true).
Proof.
  unfold before_first. destruct (index_of_substring w s) as [k|] eqn:Hk.
  - exists (Js.drop k s). split; [|right; by apply index_occurrence].
    clear Hk. revert s. induction k as [|k IH]; intros [|a s]; simpl; try done.
    rewrite ReferenceFacts.append_cons. by rewrite <- IH.
  - exists "". split; [by rewrite append_nil_r|by left].
Qed.

Lemma before_first_clean (w s : string) :
  w <> "" -> ~ occurs_in w (before_first w s).
Proof.
  intros Hw. unfold before_first.
  destruct (index_of_substring w s) as [k|] eqn:Hk.
  - by apply index_first.
  - intros H. apply index_of_occurrence in H. rewrite Hk in H. by destruct H.
Qed.

Lemma before_first_none (w s : string) :
  ~ occurs_in w s -> before_first w s = s.
Proof.
  intros H. unfold before_first.
  destruct (index_of_substring w s) as [k|] eqn:Hk; [|done].
  destruct H. apply index_occurrence in Hk. apply startsWith_split in Hk.
  exists (Js.take k s), (Js.drop (String.length w) (Js.drop k s)).
  rewrite <- Hk. clear. revert s. induction k as [|k IH]; intros [|a s]; simpl; try done.
  rewrite ReferenceFacts.append_cons. by rewrite <- IH.
Qed.

Lemma strip_screenshot_body (pr : Issue.t) :
  Issue.body (strip_screenshot pr)
  = Some (before_first screenshot_heading (body_or_empty pr)).
Proof.
  unfold strip_screenshot, body_or_empty. cbn [Issue.body Issue.with_body].
  destruct (Issue.body pr) as [[|a b]|]; try done.
  cbn [Js.truthy default]. f_equal.
  exact (String_remove_to_the_end screenshot_heading (String a b)).
Qed.

End ScreenshotFacts.

(** X18. What [generate] cuts from a body before the highlights are asked
    for: the body becomes its part before the first occurrence of the
    heading "### Screenshot / video of UI", so that what is cut is nothing
    or starts with the heading, and the heading does not occur in what is
    kept; a body without the heading is kept as it is, and a missing or
    empty body becomes the empty text.  Cutting twice is cutting once. *)
Theorem strip_screenshot_cuts :
  forall pr : Issue.t,
    Issue.body (strip_screenshot pr)
    = Some (before_first screenshot_heading (body_or_empty pr))
    /\ (exists removed,
          body_or_empty pr
          = before_first screenshot_heading (body_or_empty pr) +:+ removed
          /\ (removed = ""
              \/ Js.startsWith removed screenshot_heading = true))
    /\ ~ occurs_in screenshot_heading
           (before_first screenshot_heading (body_or_empty pr))
    /\ (~ occurs_in screenshot_heading (body_or_empty pr) ->
        Issue.body (strip_screenshot pr) = Some (body_or_empty pr))
    /\ (Issue.body pr = None \/ Issue.body pr = Some "" ->
        Issue.body (strip_screenshot pr) = Some "")
    /\ strip_screenshot (strip_screenshot pr) = strip_screenshot pr.
Proof.
  intros pr. pose proof (ScreenshotFacts.strip_screenshot_body pr) as Hb.
  assert (Hclean : ~ occurs_in screenshot_heading
                     (before_first screenshot_heading (body_or_empty pr)))
    by (by apply ScreenshotFacts.before_first_clean).
  repeat split.
  - exact Hb.
  - apply ScreenshotFacts.before_first_split.
  - exact Hclean.
  - intros H. by rewrite Hb, ScreenshotFacts.before_first_none.
  - intros [H|H]; rewrite Hb; unfold body_or_empty; by rewrite H.
  - assert (Hbb : Issue.body (strip_screenshot (strip_screenshot pr))
                  = Issue.body (strip_screenshot pr)).
    { rewrite (ScreenshotFacts.strip_screenshot_body (strip_screenshot pr)), Hb.
      f_equal. unfold body_or_empty at 1. rewrite Hb.
      by apply ScreenshotFacts.before_first_none. }
    destruct pr as [t u n h cr b p]. unfold strip_screenshot in *.
    cbn [Issue.with_body Issue.body Issue.title Issue.user Issue.number
         Issue.html_url Issue.created_at Issue.pull_request] in *.
    f_equal. exact Hbb.
Qed.

(** ** The command line *)

Module CliFacts.
Import Cli.

Lemma showHelp_no_launch : Forall (fun o => is_launch o = false) showHelp.
Proof. unfold showHelp. repeat constructor. Qed.

Lemma assignment_flag (o : valued) :
  exists assign,
    Argv.assignment (flag o) = Some assign
    /\ forall (x : jsval) (c : Settings.t),
         Settings.useOllama (assign x c) = Settings.useOllama c
         /\ forall o', variable o' (assign x c)
                       = if valued_eqb o o' then x else variable o' c.
Proof.
  destruct o; eexists; (split; [reflexivity|]); intros x c;
    (split; [reflexivity|]); intros []; reflexivity.
Qed.

(** Every label that reads a value is the flag of an option. *)
Lemma assignment_inv (arg : string)
    (assign : jsval -> Settings.t -> Settings.t) :
  Argv.assignment arg = Some assign ->
  exists o, arg = flag o
    /\ forall (x : jsval) (c : Settings.t),
         Settings.useOllama (assign x c) = Settings.useOllama c
         /\ forall o', variable o' (assign x c)
                       = if valued_eqb o o' then x else variable o' c.
Proof.
  unfold Argv.assignment. intros H.
  repeat match type of H with
         | (if String.eqb ?a ?b then _ else _) = _ =>
             destruct (String.eqb_spec a b) as [->|_]
         end; try discriminate; injection H as <-.
  - exists OToken. split; [done|]. intros x c. split; [done|]. by intros [].
  - exists OOrg. split; [done|]. intros x c. split; [done|]. by intros [].
  - exists ORepo. split; [done|]. intros x c. split; [done|]. by intros [].
  - exists OUsername. split; [done|]. intros x c. split; [done|]. by intros [].
  - exists OMilestone. split; [done|]. intros x c. split; [done|]. by intros [].
  - exists OModel. split; [done|]. intros x c. split; [done|]. by intros [].
  - exists OPort. split; [done|]. intros x c. split; [done|]. by intros [].
  - exists OEndpoint. split; [done|]. intros x c. split; [done|]. by intros [].
Qed.

Lemma from_strings_assign (o : valued) (assign : jsval -> Settings.t -> Settings.t)
    (x : jsval) (c : Settings.t) :
  (forall o', variable o' (assign x c)
              = if valued_eqb o o' then x else variable o' c) ->
  string_or_none x -> from_strings c -> from_strings (assign x c).
Proof.
  intros Ha Hx Hc o'. rewrite Ha. destruct (valued_eqb o o'); [done|apply Hc].
Qed.

Lemma from_strings_useOllama (b : bool) (c : Settings.t) :
  from_strings c -> from_strings (Settings.set_useOllama b c).
Proof. intros Hc o. specialize (Hc o). by destruct o. Qed.

Lemma from_strings_initial (env : ProcessEnv.t) : from_strings (initial env).
Proof.
  intros o. destruct env as [[t|] [u|]], o; simpl;
    first [by left | right; by eexists].
Qed.

(** The loop writes help and warnings only, and leaves strings (or
    [undefined]) in the variables. *)
Lemma argv_loop_invariant (args : list string) :
  forall c : Settings.t,
    Forall (fun o => is_launch o = false) (Argv.loop args c).2
    /\ (from_strings c -> from_strings (Argv.loop args c).1).
Proof.
  remember (length args) as n eqn:Hn.
  assert (Hle : (length args <= n)%nat) by lia. clear Hn. revert args Hle.
  induction n as [|n IHn]; intros [|arg rest] Hle c; try (by split);
    [simpl in Hle; lia|].
  assert (IH : forall rest', (length rest' <= n)%nat -> forall c,
             Forall (fun o => is_launch o = false) (Argv.loop rest' c).2
             /\ (from_strings c -> from_strings (Argv.loop rest' c).1))
    by (intros rest' H; by apply IHn).
  simpl in Hle. clear IHn.
  cbn [Argv.loop].
  destruct (Argv.assignment arg) as [assign|] eqn:Ha.
  - destruct (assignment_inv _ _ Ha) as (o & -> & Hset).
    destruct rest as [|value rest].
    + split; [constructor|]. intros Hc.
      apply (from_strings_assign o); [apply Hset|by left|done].
    + destruct (IH rest ltac:(simpl in Hle; lia) (assign (JStr value) c)) as [H1 H2].
      split; [done|]. intros Hc. apply H2.
      apply (from_strings_assign o); [apply Hset|right; by eexists|done].
  - destruct (String.eqb arg "--ollama").
    + destruct (IH rest ltac:(lia) (Settings.set_useOllama true c))
        as [H1 H2].
      split; [done|]. intros Hc. by apply H2, from_strings_useOllama.
    + destruct (IH rest ltac:(lia) c) as [H1 H2].
      destruct (String.eqb arg "--help" || String.eqb arg "-h"); cbn [fst snd].
      * split; [|done]. apply Forall_app. split; [apply showHelp_no_launch|done].
      * split; [|done]. by constructor.
Qed.

(** Truthy strings. *)
Lemma truthy_string (v : jsval) :
  string_or_none v -> toBoolean v = true -> exists s, v = JStr s /\ s <> "".
Proof.
  intros [->|[s ->]]; [done|]. simpl. intros H. exists s. split; [done|].
  by intros ->.
Qed.

Lemma nullish_or_string (v : jsval) (d : string) :
  string_or_none v -> exists s, nullish_or v (JStr d) = JStr s.
Proof. intros [->|[s ->]]; by eexists. Qed.

Lemma finish_launch (c s : Settings.t) :
  In (Launch s) (Argv.finish c) ->
  Argv.finish c = [Launch s]
  /\ s = setupDefaults c
  /\ toBoolean (Settings.token c) = true
  /\ toBoolean (Settings.username c) = true
  /\ (Settings.useOllama c = true -> toBoolean (Settings.model c) = true).
Proof.
  unfold Argv.finish.
  destruct (Settings.useOllama c && negb (toBoolean (Settings.model c))) eqn:Hm.
  { intros [H|[]]. discriminate. }
  assert (Ht : Settings.token (setupDefaults c) = Settings.token c)
    by (unfold setupDefaults; by destruct (Settings.useOllama c)).
  assert (Hu : Settings.username (setupDefaults c) = Settings.username c)
    by (unfold setupDefaults; by destruct (Settings.useOllama c)).
  cbv zeta. rewrite Ht, Hu.
  destruct (toBoolean (Settings.token c)); simpl; [|intros [H|[]]; discriminate].
  destruct (toBoolean (Settings.username c)); simpl; [|intros [H|[]]; discriminate].
  intros [[= <-]|[]]. repeat split; try done.
  intros Ho. rewrite Ho in Hm. simpl in Hm. by apply negb_false_iff in Hm.
Qed.

Lemma setupDefaults_variable (c : Settings.t) (o : valued) :
  o <> OPort -> o <> OEndpoint ->
  variable o (setupDefaults c) = variable o c.
Proof.
  intros Hp He. unfold setupDefaults.
  destruct (Settings.useOllama c), o; done.
Qed.

Lemma setupDefaults_useOllama (c : Settings.t) :
  Settings.useOllama (setupDefaults c) = Settings.useOllama c.
Proof. unfold setupDefaults. by destruct (Settings.useOllama c) eqn:H. Qed.

Lemma find_rev_cons {A : Type} (f : A -> bool) (x : A) (l : list A) :
  List.find f (rev (x :: l))
  = match List.find f (rev l) with
    | Some y => Some y
    | None => if f x then Some x else None
    end.
Proof.
  simpl. generalize (rev l). intros l'. induction l' as [|y l' IH]; simpl.
  - by destruct (f x).
  - by destruct (f y).
Qed.

(** What [parseArguments] leaves in the settings. *)
Lemma parseArguments_variable (env : ProcessEnv.t)
    (parsedArgs : list (string * jsval)) (o : valued) (name : string) :
  (o, name) ∈ [(OToken, "token"); (OOrg, "org"); (ORepo, "repo");
               (OModel, "model"); (OMilestone, "milestone"); (OPort, "port");
               (OEndpoint, "endpoint"); (OUsername, "username")] ->
  variable o (Minimist.parseArguments env parsedArgs)
  = if toBoolean (field name parsedArgs) then field name parsedArgs
    else variable o (initial env).
Proof.
  intros Hin. unfold Minimist.parseArguments, Minimist.take_arg.
  repeat (apply elem_of_cons in Hin as [[= -> ->]|Hin];
          [destruct (toBoolean (field "token" parsedArgs)),
                    (toBoolean (field "org" parsedArgs)),
                    (toBoolean (field "repo" parsedArgs)),
                    (toBoolean (field "model" parsedArgs)),
                    (toBoolean (field "milestone" parsedArgs)),
                    (toBoolean (field "port" parsedArgs)),
                    (toBoolean (field "endpoint" parsedArgs)),
                    (toBoolean (field "username" parsedArgs)),
                    (toBoolean (field "ollama" parsedArgs)); reflexivity|]).
  by apply elem_of_nil in Hin.
Qed.

Lemma parseArguments_useOllama (env : ProcessEnv.t)
    (parsedArgs : list (string * jsval)) :
  Settings.useOllama (Minimist.parseArguments env parsedArgs)
  = toBoolean (field "ollama" parsedArgs).
Proof.
  unfold Minimist.parseArguments, Minimist.take_arg.
  destruct (toBoolean (field "token" parsedArgs)),
           (toBoolean (field "org" parsedArgs)),
           (toBoolean (field "repo" parsedArgs)),
           (toBoolean (field "model" parsedArgs)),
           (toBoolean (field "milestone" parsedArgs)),
           (toBoolean (field "port" parsedArgs)),
           (toBoolean (field "endpoint" parsedArgs)),
           (toBoolean (field "username" parsedArgs)),
           (toBoolean (field "ollama" parsedArgs)); reflexivity.
Qed.

Lemma nullish_or_truthy (v : jsval) (d : string) :
  d <> "" -> (toBoolean v = true \/ v = JUndefined) ->
  toBoolean (nullish_or v (JStr d)) = true.
Proof.
  intros Hd [H| ->]; [|by destruct d].
  destruct v; try done.
Qed.

End CliFacts.

(** X19. The generator is started at most once by the form of the script
    that walks over [process.argv], as the last thing it does, and only
    with a token and a username that are strings that are not empty, with
    a port and an endpoint that are strings, and, when Ollama is asked
    for, with a model that is a string that is not empty. *)
Theorem argv_run_launch :
  forall (env : Cli.ProcessEnv.t) (args : list string) (s : Cli.Settings.t),
    In (Cli.Launch s) (Cli.Argv.run env args) ->
    (exists out,
       Cli.Argv.run env args = out ++ [Cli.Launch s]
       /\ Forall (fun o => Cli.is_launch o = false) out)
    /\ (exists token username port endpoint,
          Cli.Settings.token s = JStr token /\ token <> ""
          /\ Cli.Settings.username s = JStr username /\ username <> ""
          /\ Cli.Settings.port s = JStr port
          /\ Cli.Settings.endpoint s = JStr endpoint)
    /\ (Cli.Settings.useOllama s = true ->
        exists model, Cli.Settings.model s = JStr model /\ model <> "").
Proof.
  intros env args s Hin. destruct args as [|arg rest].
  { pose proof CliFacts.showHelp_no_launch as H.
    rewrite List.Forall_forall in H. by apply H in Hin. }
  unfold Cli.Argv.run in *.
  destruct (CliFacts.argv_loop_invariant (arg :: rest) (Cli.initial env))
    as [Hout Hstr].
  specialize (Hstr (CliFacts.from_strings_initial env)).
  destruct (Cli.Argv.loop (arg :: rest) (Cli.initial env)) as [c out].
  cbn [fst snd] in *.
  apply in_app_or in Hin as [Hin|Hin].
  { rewrite List.Forall_forall in Hout. by apply Hout in Hin. }
  destruct (CliFacts.finish_launch c s Hin) as (Hf & -> & Ht & Hu & Hm).
  split; [exists out; by rewrite Hf|].
  destruct (CliFacts.truthy_string _ (Hstr Cli.OToken) Ht) as (t & Ht1 & Ht2).
  destruct (CliFacts.truthy_string _ (Hstr Cli.OUsername) Hu) as (u & Hu1 & Hu2).
  split.
  - pose proof (CliFacts.setupDefaults_variable c Cli.OToken) as H1.
    pose proof (CliFacts.setupDefaults_variable c Cli.OUsername) as H2.
    cbn [Cli.variable] in *.
    destruct (CliFacts.nullish_or_string _
                (if Cli.Settings.useOllama c then "11434" else "45621")
                (Hstr Cli.OPort)) as [p Hp].
    destruct (CliFacts.nullish_or_string _
                (if Cli.Settings.useOllama c then "/api/generate"
                 else "/v1/chat/completions")
                (Hstr Cli.OEndpoint)) as [e He].
    exists t, u, p, e. rewrite H1, H2 by done.
    repeat split; try done.
    + rewrite <- Hp. unfold Cli.setupDefaults.
      by destruct (Cli.Settings.useOllama c).
    + rewrite <- He. unfold Cli.setupDefaults.
      by destruct (Cli.Settings.useOllama c).
  - rewrite CliFacts.setupDefaults_useOllama. intros Ho.
    pose proof (CliFacts.setupDefaults_variable c Cli.OModel) as H1.
    cbn [Cli.variable] in H1. rewrite H1 by done.
    exact (CliFacts.truthy_string _ (Hstr Cli.OModel) (Hm Ho)).
Qed.

Lemma argv_run_launch_witness :
  (exists out,
     Cli.Argv.run (Cli.ProcessEnv.mk None None)
       ["--unknown-option"; "value"; "--token"; "t"; "--username"; "u";
        "--milestone"; "1.0.0"]
     = out ++ [Cli.Launch
                 (Cli.Settings.mk (JStr "t") (JStr "podman-desktop")
                    (JStr "podman-desktop") (JStr "1.0.0") (JStr "u")
                    JUndefined (JStr "45621") (JStr "/v1/chat/completions")
                    false)]
     /\ Forall (fun o => Cli.is_launch o = false) out)
  /\ (exists token username port endpoint,
        JStr "t" = JStr token /\ token <> ""
        /\ JStr "u" = JStr username /\ username <> ""
        /\ JStr "45621" = JStr port
        /\ JStr "/v1/chat/completions" = JStr endpoint)
  /\ (false = true -> exists model, JUndefined = JStr model /\ model <> "").
Proof.
  apply (argv_run_launch (Cli.ProcessEnv.mk None None)
           ["--unknown-option"; "value"; "--token"; "t"; "--username"; "u";
            "--milestone"; "1.0.0"]
           (Cli.Settings.mk (JStr "t") (JStr "podman-desktop")
              (JStr "podman-desktop") (JStr "1.0.0") (JStr "u")
              JUndefined (JStr "45621") (JStr "/v1/chat/completions") false)).
  vm_compute. tauto.
Defined.

(** X20. Options with their values: on a command line made of options
    that take a value, each followed by its value, the loop of the form
    that walks over [process.argv] warns about nothing and leaves in each
    variable the value given last to its option, whatever text the values
    are (a value that reads like an option is not taken for one), and its
    old value when the option is not given; so the run is decided by these
    values alone. *)
Theorem argv_command_line :
  forall (pairs : list (Cli.valued * string)) (c : Cli.Settings.t),
    exists c',
      Cli.Argv.loop (Cli.command_line pairs) c = (c', [])
      /\ Cli.Settings.useOllama c' = Cli.Settings.useOllama c
      /\ (forall o,
            Cli.variable o c'
            = match Cli.last_value o pairs with
              | Some v => JStr v
              | None => Cli.variable o c
              end)
      /\ (forall env, pairs <> [] -> c = Cli.initial env ->
            Cli.Argv.run env (Cli.command_line pairs) = Cli.Argv.finish c').
Proof.
  intros pairs c.
  assert (H : exists c',
             Cli.Argv.loop (Cli.command_line pairs) c = (c', [])
             /\ Cli.Settings.useOllama c' = Cli.Settings.useOllama c
             /\ (forall o,
                   Cli.variable o c'
                   = match Cli.last_value o pairs with
                     | Some v => JStr v
                     | None => Cli.variable o c
                     end)).
  { revert c. induction pairs as [|[o v] pairs IH]; intros c.
    - exists c. by repeat split.
    - change (Cli.command_line ((o, v) :: pairs))
        with (Cli.flag o :: v :: Cli.command_line pairs).
      cbn [Cli.Argv.loop].
      destruct (CliFacts.assignment_flag o) as (assign & -> & Hset).
      destruct (IH (assign (JStr v) c)) as (c' & Hrun & Hb & Hv).
      exists c'. split; [done|].
      destruct (Hset (JStr v) c) as [Hb' Hv'].
      split; [congruence|].
      intros o'. rewrite Hv. unfold Cli.last_value.
      rewrite CliFacts.find_rev_cons. cbn [fst snd].
      destruct (List.find _ (rev pairs)) as [p|]; [done|].
      rewrite Hv'. by destruct (Cli.valued_eqb o o'). }
  destruct H as (c' & Hrun & Hb & Hv). exists c'.
  repeat split; try done.
  intros env Hne ->. unfold Cli.Argv.run.
  destruct pairs as [|[o v] pairs]; [done|].
  change (Cli.command_line ((o, v) :: pairs))
    with (Cli.flag o :: v :: Cli.command_line pairs) in *.
  by rewrite Hrun.
Qed.

(** X21. Asking for help: in the form of the script that walks over
    [process.argv], [--help] and [-h] print the help and the run goes
    on; before other arguments the run is that of these arguments after the
    help, and alone, with a token and a username in the environment, the
    help is followed by a start of the generator with the default settings
    and an empty milestone.  In the form that uses [minimist], the help is
    all that is written, and nothing is started. *)
Theorem help_in_the_two_forms :
  (forall (env : Cli.ProcessEnv.t) (arg : string) (rest : list string),
      arg = "--help" \/ arg = "-h" -> rest <> [] ->
      Cli.Argv.run env (arg :: rest) = Cli.showHelp ++ Cli.Argv.run env rest)
  /\ (forall (env : Cli.ProcessEnv.t) (arg token username : string),
        arg = "--help" \/ arg = "-h" ->
        Cli.ProcessEnv.GITHUB_TOKEN env = Some token -> token <> "" ->
        Cli.ProcessEnv.GITHUB_USERNAME env = Some username -> username <> "" ->
        Cli.Argv.run env [arg]
        = Cli.showHelp
          ++ [Cli.Launch
                (Cli.Settings.mk (JStr token) (JStr "podman-desktop")
                   (JStr "podman-desktop") (JStr "") (JStr username)
                   JUndefined (JStr "45621") (JStr "/v1/chat/completions")
                   false)])
  /\ (forall (env : Cli.ProcessEnv.t) (parsedArgs : list (string * jsval)),
        Cli.toBoolean (field "help" parsedArgs) = true ->
        Cli.Minimist.run env (Some parsedArgs) = Cli.showHelp
        /\ Forall (fun o => Cli.is_launch o = false)
                  (Cli.Minimist.run env (Some parsedArgs))).
Proof.
  split; [|split].
  - intros env arg rest Harg Hne. destruct rest as [|a rest]; [done|].
    unfold Cli.Argv.run.
    assert (Hl : Cli.Argv.loop (arg :: a :: rest) (Cli.initial env)
                 = ((Cli.Argv.loop (a :: rest) (Cli.initial env)).1,
                    Cli.showHelp
                    ++ (Cli.Argv.loop (a :: rest) (Cli.initial env)).2))
      by (by destruct Harg as [-> | ->]).
    rewrite Hl. cbn [fst snd]. by rewrite <- app_assoc.
  - intros env arg token username Harg Ht Ht' Hu Hu'.
    destruct env as [t u]. simpl in Ht, Hu. subst t u.
    destruct token as [|x token]; [done|].
    destruct username as [|y username]; [done|].
    by destruct Harg as [-> | ->].
  - intros env parsedArgs Hh. unfold Cli.Minimist.run. rewrite Hh.
    split; [done|apply CliFacts.showHelp_no_launch].
Qed.

(** X22. The generator is started by the form of the script that uses
    [minimist] only when no help is asked for, and then this start is all
    that happens; the token, the organization, the repository, the
    username, the port and the endpoint it is started with are toBoolean, and
    so is the model when Ollama is asked for.  (Nothing of the kind holds
    of the milestone.) *)
Theorem minimist_run_launch :
  forall (env : Cli.ProcessEnv.t)
         (parsedArgs : option (list (string * jsval))) (s : Cli.Settings.t),
    In (Cli.Launch s) (Cli.Minimist.run env parsedArgs) ->
    Cli.Minimist.run env parsedArgs = [Cli.Launch s]
    /\ Cli.toBoolean (Cli.Settings.token s) = true
    /\ Cli.toBoolean (Cli.Settings.organization s) = true
    /\ Cli.toBoolean (Cli.Settings.repo s) = true
    /\ Cli.toBoolean (Cli.Settings.username s) = true
    /\ Cli.toBoolean (Cli.Settings.port s) = true
    /\ Cli.toBoolean (Cli.Settings.endpoint s) = true
    /\ (Cli.Settings.useOllama s = true ->
        Cli.toBoolean (Cli.Settings.model s) = true)
    /\ exists obj,
         parsedArgs = Some obj
         /\ Cli.toBoolean (field "help" obj) = false
         /\ Cli.Settings.useOllama s = Cli.toBoolean (field "ollama" obj).
Proof.
  intros env [obj|] s Hin; cycle 1.
  { pose proof CliFacts.showHelp_no_launch as H.
    rewrite List.Forall_forall in H. by apply H in Hin. }
  unfold Cli.Minimist.run in *.
  destruct (Cli.toBoolean (field "help" obj)) eqn:Hh.
  { pose proof CliFacts.showHelp_no_launch as H.
    rewrite List.Forall_forall in H. by apply H in Hin. }
  pose proof (CliFacts.parseArguments_variable env obj) as Hv.
  pose proof (CliFacts.parseArguments_useOllama env obj) as Ho.
  set (partialConfig := Cli.Minimist.parseArguments env obj) in *.
  unfold Cli.Minimist.validateConfig in *.
  destruct (Cli.Settings.useOllama partialConfig
            && negb (Cli.toBoolean (Cli.Settings.model partialConfig))) eqn:Hm.
  { destruct Hin as [H|[]]. discriminate. }
  destruct (Cli.toBoolean (Cli.Settings.token partialConfig)) eqn:Ht;
    [|destruct Hin as [H|[]]; discriminate].
  destruct (Cli.toBoolean (Cli.Settings.username partialConfig)) eqn:Hu;
    [|destruct Hin as [H|[]]; discriminate].
  cbn [negb] in Hin. destruct Hin as [[= <-]|[]].
  split; [done|].
  pose proof (CliFacts.setupDefaults_variable partialConfig) as Hd.
  pose proof (Hd Cli.OToken ltac:(done) ltac:(done)) as Hdt.
  pose proof (Hd Cli.OOrg ltac:(done) ltac:(done)) as Hdo.
  pose proof (Hd Cli.ORepo ltac:(done) ltac:(done)) as Hdr.
  pose proof (Hd Cli.OUsername ltac:(done) ltac:(done)) as Hdu.
  pose proof (Hd Cli.OModel ltac:(done) ltac:(done)) as Hdm.
  cbn [Cli.variable] in Hdt, Hdo, Hdr, Hdu, Hdm.
  rewrite Hdt, Hdo, Hdr, Hdu, Hdm.
  rewrite CliFacts.setupDefaults_useOllama.
  split; [done|].
  split.
  { specialize (Hv Cli.OOrg "org" ltac:(set_solver)). cbn [Cli.variable] in Hv.
    rewrite Hv. by destruct (Cli.toBoolean (field "org" obj)) eqn:H. }
  split.
  { specialize (Hv Cli.ORepo "repo" ltac:(set_solver)). cbn [Cli.variable] in Hv.
    rewrite Hv. by destruct (Cli.toBoolean (field "repo" obj)) eqn:H. }
  split; [done|].
  split.
  { specialize (Hv Cli.OPort "port" ltac:(set_solver)). cbn [Cli.variable] in Hv.
    unfold Cli.setupDefaults.
    destruct (Cli.Settings.useOllama partialConfig);
      cbn [Cli.Settings.port Cli.Settings.set_port Cli.Settings.set_endpoint];
      apply CliFacts.nullish_or_truthy; try done; rewrite Hv;
      destruct (Cli.toBoolean (field "port" obj)) eqn:H; auto. }
  split.
  { specialize (Hv Cli.OEndpoint "endpoint" ltac:(set_solver)).
    cbn [Cli.variable] in Hv. unfold Cli.setupDefaults.
    destruct (Cli.Settings.useOllama partialConfig);
      cbn [Cli.Settings.endpoint Cli.Settings.set_port
           Cli.Settings.set_endpoint];
      apply CliFacts.nullish_or_truthy; try done; rewrite Hv;
      destruct (Cli.toBoolean (field "endpoint" obj)) eqn:H; auto. }
  split.
  { intros Hol. rewrite Hol in Hm. simpl in Hm. by apply negb_false_iff in Hm. }
  exists obj. by repeat split.
Qed.

Lemma minimist_run_launch_witness :
  Cli.Minimist.run (Cli.ProcessEnv.mk (Some "env-token-for-cli")
                      (Some "env-user-for-cli"))
    (Some [("org", JStr "test-org"); ("repo", JStr "test-repo");
           ("milestone", JStr "env-1.0.0"); ("port", JNum 8080)])
  = [Cli.Launch
       (Cli.Settings.mk (JStr "env-token-for-cli") (JStr "test-org")
          (JStr "test-repo") (JStr "env-1.0.0") (JStr "env-user-for-cli")
          JUndefined (JNum 8080) (JStr "/v1/chat/completions") false)]
  /\ Cli.toBoolean (JStr "env-token-for-cli") = true
  /\ Cli.toBoolean (JStr "test-org") = true
  /\ Cli.toBoolean (JStr "test-repo") = true
  /\ Cli.toBoolean (JStr "env-user-for-cli") = true
  /\ Cli.toBoolean (JNum 8080) = true
  /\ Cli.toBoolean (JStr "/v1/chat/completions") = true
  /\ (false = true -> Cli.toBoolean JUndefined = true)
  /\ exists obj,
       Some [("org", JStr "test-org"); ("repo", JStr "test-repo");
             ("milestone", JStr "env-1.0.0"); ("port", JNum 8080)]
       = Some obj
       /\ Cli.toBoolean (field "help" obj) = false
       /\ false = Cli.toBoolean (field "ollama" obj).
Proof.
  apply (minimist_run_launch
           (Cli.ProcessEnv.mk (Some "env-token-for-cli")
              (Some "env-user-for-cli"))
           (Some [("org", JStr "test-org"); ("repo", JStr "test-repo");
                  ("milestone", JStr "env-1.0.0"); ("port", JNum 8080)])
           (Cli.Settings.mk (JStr "env-token-for-cli") (JStr "test-org")
              (JStr "test-repo") (JStr "env-1.0.0") (JStr "env-user-for-cli")
              JUndefined (JNum 8080) (JStr "/v1/chat/completions") false)).
  vm_compute. tauto.
Defined.
